(** * UTFR dashboard: local test-day folder scan, import and merge

    A shallow embedding of the folder scanner and importer of
    [LocalGoogleDriveSync] (scanForTestDayFolders, importTestDayData,
    importGlobalSetups) and of the merge handler [handleDataImported] of
    [UTFRDataDashboard.tsx], with the properties of the specification
    stated over them, followed by further properties of the code around
    them: the run list of the dashboard, IMPORT ALL, the folders and files
    written from the dashboard and the race tracker, and the pattern and
    the importer of the Drive panel.

    Conventions of the embedding.
    - A JavaScript string is a [string]: one [ascii] per UTF-16 code unit,
      for strings whose code units are all below 256.  Character classes and
      case mapping are those of JavaScript on that range.
    - A JavaScript number is carried as an integer ([Z]); the numbers the
      code under study computes are array indices and lengths.
    - A JavaScript object is the list of its own properties in insertion
      order; an array is the list of its elements.
    - React state and refs are passed explicitly; the wall clock
      ([new Date().toISOString()]) and [JSON.parse] are inputs. *)

From Stdlib Require Import ZArith Ascii String List Bool Lia DecimalString DecimalNat.
From stdpp Require Import base option list gmap sets strings.

Open Scope string_scope.
Open Scope list_scope.

(** ** JavaScript strings *)

Module JsString.

Definition chars (s : string) : list ascii := list_ascii_of_string s.
Definition of_chars (l : list ascii) : string := string_of_list_ascii l.

Definition code (c : ascii) : N := N_of_ascii c.

(** [\d] *)
Definition is_digit (c : ascii) : bool :=
  (48 <=? code c)%N && (code c <=? 57)%N.

(** LineTerminator: LF and CR (U+2028 and U+2029 are above the range). *)
Definition is_line_terminator (c : ascii) : bool :=
  (code c =? 10)%N || (code c =? 13)%N.

(** [\s]: WhiteSpace and LineTerminator, i.e. TAB, LF, VT, FF, CR, SP and
    NBSP on this range. *)
Definition is_space (c : ascii) : bool :=
  ((9 <=? code c)%N && (code c <=? 13)%N)
  || (code c =? 32)%N || (code c =? 160)%N.

(** [.] without the [s] flag: any code unit but a line terminator. *)
Definition is_dot (c : ascii) : bool := negb (is_line_terminator c).

(** [[-_]] *)
Definition is_sep (c : ascii) : bool :=
  (code c =? 45)%N || (code c =? 95)%N.

Definition is_char (a c : ascii) : bool := Ascii.eqb a c.

(** One lower-case ASCII letter [a] under the [i] flag: the code units
    whose canonical (upper-case) form is that of [a]. *)
Definition is_char_ci (a c : ascii) : bool :=
  Ascii.eqb a c || (code c + 32 =? code a)%N.

(** [String.prototype.toLowerCase] on one code unit below 256: A-Z and
    the upper-case letters of Latin-1 (U+00C0..U+00DE but U+00D7). *)
Definition lower_char (c : ascii) : ascii :=
  let n := code c in
  if ((65 <=? n)%N && (n <=? 90)%N)
     || ((192 <=? n)%N && (n <=? 222)%N && negb (n =? 215)%N)
  then ascii_of_N (n + 32) else c.

Fixpoint toLowerCase (s : string) : string :=
  match s with
  | EmptyString => EmptyString
  | String c s' => String (lower_char c) (toLowerCase s')
  end.

(** [s.startsWith(p)] *)
Fixpoint startsWith (p s : list ascii) : bool :=
  match p, s with
  | [], _ => true
  | a :: p', c :: s' => Ascii.eqb a c && startsWith p' s'
  | _ :: _, [] => false
  end.

(** [s.endsWith(p)] *)
Definition endsWith (s p : string) : bool :=
  startsWith (rev (chars p)) (rev (chars s)).

(** [s.includes(p)] *)
Fixpoint includes_chars (s p : list ascii) : bool :=
  startsWith p s ||
  match s with
  | [] => false
  | _ :: s' => includes_chars s' p
  end.

Definition includes (s p : string) : bool := includes_chars (chars s) (chars p).

(** [s.split(sep)] for a non-empty separator: the pieces between the
    occurrences of [sep], scanned left to right; always at least one
    piece.  [cur] is the piece being read, reversed. *)
Fixpoint split_go (sep : list ascii) (cur : list ascii) (s : list ascii)
                  (skip : nat) : list string :=
  match s with
  | [] => [of_chars (rev cur)]
  | c :: s' =>
      match skip with
      | S k => split_go sep cur s' k
      | O =>
          if startsWith sep s
          then of_chars (rev cur) :: split_go sep [] s' (Nat.pred (length sep))
          else split_go sep (c :: cur) s' O
      end
  end.

Definition split (s sep : string) : list string :=
  split_go (chars sep) [] (chars s) O.

(** The decimal rendering of a non-negative integer, as a template
    literal prints it. *)
Definition of_nat (n : nat) : string := NilEmpty.string_of_uint (Nat.to_uint n).

End JsString.

Import JsString.

(** ** A backtracking matcher for the regular expressions of the source

    The fragment the source uses: anchors, one code unit of a class,
    concatenation, greedy quantifiers over a class, capture groups.  The
    matcher follows the ECMAScript semantics: it is written in
    continuation-passing style, a greedy quantifier first tries to take one
    more code unit and falls back to fewer only when the rest fails. *)

Module Regex.

Inductive regex : Type :=
| RBegin                                   (* ^ *)
| REnd                                     (* $ *)
| RChar (p : ascii -> bool)                (* one code unit of a class *)
| RSeq (r1 r2 : regex)
| RGreedy (lo : nat) (hi : option nat) (p : ascii -> bool)
                                           (* p{lo,hi}; hi = None: no bound *)
| RGroup (i : nat) (r : regex).            (* the i-th capture group *)

Abbreviation captures := (gmap nat (list ascii)).

(** A continuation receives the code units consumed so far (most recent
    first), the rest of the input and the captures. *)
Definition cont : Type := list ascii -> list ascii -> captures -> option captures.

Definition may_take (hi : option nat) : bool :=
  match hi with Some O => false | _ => true end.

Fixpoint greedy (p : ascii -> bool) (lo : nat) (hi : option nat)
                (pre s : list ascii) (k : list ascii -> list ascii -> option captures)
  : option captures :=
  let stop := match lo with O => k pre s | S _ => None end in
  match s with
  | c :: s' =>
      if p c && may_take hi then
        match greedy p (Nat.pred lo) (Nat.pred <$> hi) (c :: pre) s' k with
        | Some r => Some r
        | None => stop
        end
      else stop
  | [] => stop
  end.

Fixpoint rmatch (r : regex) (pre s : list ascii) (caps : captures) (k : cont)
  : option captures :=
  match r with
  | RBegin => match pre with [] => k pre s caps | _ :: _ => None end
  | REnd => match s with [] => k pre s caps | _ :: _ => None end
  | RChar p =>
      match s with
      | c :: s' => if p c then k (c :: pre) s' caps else None
      | [] => None
      end
  | RSeq r1 r2 =>
      rmatch r1 pre s caps (fun pre' s' caps' => rmatch r2 pre' s' caps' k)
  | RGreedy lo hi p =>
      greedy p lo hi pre s (fun pre' s' => k pre' s' caps)
  | RGroup i r1 =>
      rmatch r1 pre s caps
        (fun pre' s' caps' =>
           k pre' s' (<[i := rev (take (length pre' - length pre) pre')]> caps'))
  end.

(** [RegExp.prototype.exec] without the [g] flag: the first start
    position, left to right, at which the pattern matches.  Group 0 is
    the whole match; the result carries the index of the match. *)
Fixpoint exec_from (r : regex) (pre s : list ascii) : option (nat * captures) :=
  match rmatch (RGroup 0 r) pre s ∅ (fun _ _ caps => Some caps) with
  | Some caps => Some (length pre, caps)
  | None =>
      match s with
      | [] => None
      | c :: s' => exec_from r (c :: pre) s'
      end
  end.

Definition exec (r : regex) (s : string) : option (nat * captures) :=
  exec_from r [] (chars s).

(** The text of capture group [i] of a successful match. *)
Definition group (caps : captures) (i : nat) : string :=
  of_chars (default [] (caps !! i)).

(** [s.replace(r, '')] for a pattern without the [g] flag: the first
    match is cut out. *)
Definition remove_match (s : string) (r : regex) : string :=
  match exec r s with
  | Some (i, caps) =>
      of_chars (take i (chars s) ++ drop (i + length (default [] (caps !! 0))) (chars s))
  | None => s
  end.

End Regex.

Import Regex.

Declare Scope regex_scope.
Delimit Scope regex_scope with re.
Infix "⋅" := RSeq (at level 41, right associativity) : regex_scope.

(** [/^(\d{4}-\d{1,2}-\d{1,2})\s*[-_]\s*(.+)$/], the pattern of
    scanForTestDayFolders: the date of group 1, then the separator and the
    venue of group 2. *)
Definition datePattern : regex :=
  (RGreedy 4 (Some 4) is_digit ⋅ RChar (is_char "-") ⋅
   RGreedy 1 (Some 2) is_digit ⋅ RChar (is_char "-") ⋅
   RGreedy 1 (Some 2) is_digit)%re.

Definition separatorVenuePattern : regex :=
  (RGreedy 0 None is_space ⋅ RChar is_sep ⋅ RGreedy 0 None is_space ⋅
   RGroup 2 (RGreedy 1 None is_dot) ⋅ REnd)%re.

Definition testDayPattern : regex :=
  (RBegin ⋅ RGroup 1 datePattern ⋅ separatorVenuePattern)%re.

(** [segment.match(testDayPattern)]: [None] for [null], otherwise the two
    captures [date] and [venue]. *)
Definition matchTestDayFolder (segment : string) : option (string * string) :=
  match exec testDayPattern segment with
  | Some (_, caps) => Some (group caps 1, group caps 2)
  | None => None
  end.

(** [/\.json$/i], the suffix importGlobalSetups strips from a file name. *)
Definition jsonSuffixPattern : regex :=
  (RChar (is_char ".") ⋅ RChar (is_char_ci "j") ⋅ RChar (is_char_ci "s") ⋅
   RChar (is_char_ci "o") ⋅ RChar (is_char_ci "n") ⋅ REnd)%re.

(** ** JavaScript values and objects *)

#[local] Unset Elimination Schemes.
Inductive JSValue : Type :=
| JUndefined
| JNull
| JBool (b : bool)
| JNum (n : Z)
| JStr (s : string)
| JArr (elems : list JSValue)
| JObj (props : list (string * JSValue)).

#[local] Set Elimination Schemes.

(** The own properties of an object.  The order of the list is not observed
    by the code under study. *)
Abbreviation JSObject := (list (string * JSValue)).

Section JSValue_induction.
Variable P : JSValue -> Prop.
Hypothesis Hundef : P JUndefined.
Hypothesis Hnull : P JNull.
Hypothesis Hbool : forall b, P (JBool b).
Hypothesis Hnum : forall n, P (JNum n).
Hypothesis Hstr : forall s, P (JStr s).
Hypothesis Harr : forall l, Forall P l -> P (JArr l).
Hypothesis Hobj : forall l, Forall (fun kv => P kv.2) l -> P (JObj l).

Fixpoint JSValue_nested_ind (v : JSValue) : P v :=
  match v with
  | JUndefined => Hundef
  | JNull => Hnull
  | JBool b => Hbool b
  | JNum n => Hnum n
  | JStr s => Hstr s
  | JArr l =>
      Harr l ((fix go (l : list JSValue) : Forall P l :=
                 match l with
                 | [] => Forall_nil_2 P
                 | x :: l' => Forall_cons_2 P x l' (JSValue_nested_ind x) (go l')
                 end) l)
  | JObj l =>
      Hobj l ((fix go (l : list (string * JSValue)) : Forall (fun kv => P kv.2) l :=
                 match l with
                 | [] => Forall_nil_2 _
                 | kv :: l' =>
                     Forall_cons_2 (fun kv => P kv.2) kv l'
                                   (JSValue_nested_ind kv.2) (go l')
                 end) l)
  end.
End JSValue_induction.

(** Structural equality; on the primitive values that serve as record ids
    it is the SameValueZero comparison of [Set.prototype.has]. *)
Fixpoint JSValue_eqb (a b : JSValue) : bool :=
  match a, b with
  | JUndefined, JUndefined => true
  | JNull, JNull => true
  | JBool x, JBool y => Bool.eqb x y
  | JNum x, JNum y => (x =? y)%Z
  | JStr x, JStr y => String.eqb x y
  | JArr l1, JArr l2 =>
      (fix go (l1 l2 : list JSValue) : bool :=
         match l1, l2 with
         | [], [] => true
         | x :: l1', y :: l2' => JSValue_eqb x y && go l1' l2'
         | _, _ => false
         end) l1 l2
  | JObj l1, JObj l2 =>
      (fix go (l1 l2 : list (string * JSValue)) : bool :=
         match l1, l2 with
         | [], [] => true
         | (k1, x) :: l1', (k2, y) :: l2' =>
             String.eqb k1 k2 && JSValue_eqb x y && go l1' l2'
         | _, _ => false
         end) l1 l2
  | _, _ => false
  end.

#[global] Instance JSValue_eq_dec : EqDecision JSValue.
Proof.
  assert (eqb_eq : forall a b, JSValue_eqb a b = true <-> a = b).
  { intros a. induction a as [| |x|x|x|l IH|l IH] using JSValue_nested_ind;
      intros [| |y|y|y|l'|l']; simpl; try (split; [discriminate|congruence]);
      try tauto.
    - rewrite Bool.eqb_true_iff. split; congruence.
    - rewrite Z.eqb_eq. split; congruence.
    - rewrite String.eqb_eq. split; congruence.
    - revert l'. induction IH as [|x l Hx _ IHl]; intros [|y l'];
        try (split; [discriminate|congruence]); try tauto.
      rewrite andb_true_iff, Hx, IHl. split.
      + intros [-> [= ->]]. reflexivity.
      + intros [= -> ->]. auto.
    - revert l'. induction IH as [|[k x] l Hx _ IHl]; intros [|[k' y] l'];
        try (split; [discriminate|congruence]); try tauto.
      simpl in Hx. rewrite !andb_true_iff, String.eqb_eq, Hx, IHl. split.
      + intros [[-> ->] [= ->]]. reflexivity.
      + intros [= -> -> ->]. auto. }
  intros a b. destruct (JSValue_eqb a b) eqn:E.
  - left. apply eqb_eq, E.
  - right. intros H. apply eqb_eq in H. congruence.
Defined.

Module JsObject.

(** [o.k] on an object: the value of the own property, or [undefined]. *)
Fixpoint get (o : JSObject) (k : string) : JSValue :=
  match o with
  | [] => JUndefined
  | (k', v) :: o' => if String.eqb k' k then v else get o' k
  end.

Fixpoint has (o : JSObject) (k : string) : bool :=
  match o with
  | [] => false
  | (k', _) :: o' => String.eqb k' k || has o' k
  end.

(** Defining a property: an existing one is overwritten where it stands,
    a new one comes last. *)
Fixpoint set (o : JSObject) (k : string) (v : JSValue) : JSObject :=
  match o with
  | [] => [(k, v)]
  | (k', v') :: o' =>
      if String.eqb k' k then (k', v) :: o' else (k', v') :: set o' k v
  end.

(** [{...o, ...src}] *)
Definition spread (o src : JSObject) : JSObject :=
  fold_left (fun acc kv => set acc kv.1 kv.2) src o.

(** ToBoolean *)
Definition truthy (v : JSValue) : bool :=
  match v with
  | JUndefined | JNull => false
  | JBool b => b
  | JNum n => negb (n =? 0)%Z
  | JStr s => negb (String.eqb s "")
  | JArr _ | JObj _ => true
  end.

(** [a || b] *)
Definition or (a b : JSValue) : JSValue := if truthy a then a else b.

Definition indexed (l : list JSValue) : JSObject :=
  imap (fun i v => (of_nat i, v)) l.

(** The own enumerable properties an object spread copies from a value. *)
Definition own_props (v : JSValue) : JSObject :=
  match v with
  | JObj o => o
  | JArr l => indexed l
  | JStr s => indexed (map (fun c => JStr (String c "")) (chars s))
  | JUndefined | JNull | JBool _ | JNum _ => []
  end.

(** [v.k] on any value: a [TypeError] ([None]) on [null] and
    [undefined]; primitives and arrays have no property of the names read
    by the code under study ([id], [name]). *)
Definition get_member (v : JSValue) (k : string) : option JSValue :=
  match v with
  | JUndefined | JNull => None
  | JObj o => Some (get o k)
  | JArr _ | JStr _ | JBool _ | JNum _ => Some JUndefined
  end.

End JsObject.

(** ** The data of the scanner *)

(** A [File] of the selected folder, with the outcome of reading it:
    [text] is [None] when [file.text()] rejects. *)
Module File.
Record t : Type := mk {
  name : string;
  size : Z;
  lastModified : Z;
  webkitRelativePath : string;
  text : option string
}.
End File.

Module XRKFile.
Record t : Type := mk {
  name : string;
  size : Z;
  lastModified : Z;
  path : string;
  file : File.t
}.
End XRKFile.

Module TestDayFolder.
Record t : Type := mk {
  name : string;
  path : string;
  xrkFiles : list XRKFile.t
}.
End TestDayFolder.

(** ** scanForTestDayFolders *)

(** The [Map<string, File[]>] of the scanner, in insertion order. *)
Abbreviation DirectoryMap := (list (string * list File.t)).

(** [if (!m.has(k)) m.set(k, []); m.get(k).push(f)] *)
Fixpoint directoryMap_push (m : DirectoryMap) (k : string) (f : File.t) : DirectoryMap :=
  match m with
  | [] => [(k, [f])]
  | (k', fs) :: m' =>
      if String.eqb k' k then (k', fs ++ [f]) :: m'
      else (k', fs) :: directoryMap_push m' k f
  end.

Definition isTestDay (segment : string) : bool :=
  bool_decide (is_Some (matchTestDayFolder segment)).

(** The loop [for (i = 0; i < pathParts.length - 1; i++)] over the
    segments but the last: the first one that matches, [''] when none
    does. *)
Fixpoint findTestDayFolder (pathParts : list string) : string :=
  match pathParts with
  | [] | [_] => ""
  | seg :: rest => if isTestDay seg then seg else findTestDayFolder rest
  end.

Definition isGlobalSetup (relPath : string) (pathParts : list string) : bool :=
  includes (toLowerCase relPath) "/setups/"
  || String.eqb (toLowerCase (default "" (head pathParts))) "setups".

(** One turn of the first loop, on the pair of [directoryMap] and
    [detectedGlobalSetups]. *)
Definition classifyFile (acc : DirectoryMap * list File.t) (file : File.t)
  : DirectoryMap * list File.t :=
  let '(directoryMap, detectedGlobalSetups) := acc in
  let relPath := File.webkitRelativePath file in
  let pathParts := split relPath "/" in
  if (2 <=? length pathParts)%nat then
    let detectedGlobalSetups :=
      if isGlobalSetup relPath pathParts
         && endsWith (toLowerCase (File.name file)) ".json"
      then detectedGlobalSetups ++ [file] else detectedGlobalSetups in
    let testDayFolder := findTestDayFolder pathParts in
    let directoryMap :=
      if negb (String.eqb testDayFolder "")
      then directoryMap_push directoryMap testDayFolder file
      else directoryMap in
    (directoryMap, detectedGlobalSetups)
  else acc.

Definition isXrk (file : File.t) : bool :=
  endsWith (toLowerCase (File.name file)) ".xrk".

Definition isTestDayJson (file : File.t) : bool :=
  String.eqb (toLowerCase (File.name file)) "testday.json".

Definition toXRKFile (file : File.t) : XRKFile.t :=
  {| XRKFile.name := File.name file;
     XRKFile.size := File.size file;
     XRKFile.lastModified := File.lastModified file;
     XRKFile.path := File.webkitRelativePath file;
     XRKFile.file := file |}.

(** One turn of the inner loop, on the pair of [xrkFiles] and
    [hasTestDayJson]. *)
Definition collectFile (acc : list XRKFile.t * bool) (file : File.t)
  : list XRKFile.t * bool :=
  let '(xrkFiles, hasTestDayJson) := acc in
  if isXrk file then (xrkFiles ++ [toXRKFile file], hasTestDayJson)
  else if isTestDayJson file then (xrkFiles, true)
  else acc.

(** One turn of the second loop, on [testDayFolders]. *)
Definition processFolder (testDayFolders : list TestDayFolder.t)
                         (entry : string * list File.t) : list TestDayFolder.t :=
  let '(testDayFolderName, files) := entry in
  match matchTestDayFolder testDayFolderName with
  | Some _ =>
      let '(xrkFiles, hasTestDayJson) := fold_left collectFile files ([], false) in
      if (0 <? length xrkFiles)%nat || hasTestDayJson
      then testDayFolders ++
           [ {| TestDayFolder.name := testDayFolderName;
                TestDayFolder.path := testDayFolderName;
                TestDayFolder.xrkFiles := xrkFiles |} ]
      else testDayFolders
  | None => testDayFolders
  end.

(** The scan: the test-day folders and the global setup files it leaves in
    the component's state. *)
Definition scanForTestDayFolders (files : list File.t)
  : list TestDayFolder.t * list File.t :=
  let '(directoryMap, detectedGlobalSetups) := fold_left classifyFile files ([], []) in
  (fold_left processFolder directoryMap [], detectedGlobalSetups).

(** ** The importer *)

(** The argument of [onDataImported]; a field is [None] when the property
    is missing. *)
Module ImportedData.
Record t : Type := mk {
  testDays : option (list JSObject);
  runs : option (list JSObject);
  setups : option (list JSObject);
  tireSets : option (list JSObject)
}.
End ImportedData.

(** The two refs the importer keeps between calls. *)
Record ImporterRefs : Type := mkRefs {
  importedRunPathsRef : gset string;
  importedSetupNamesRef : gset string
}.

Definition freshRefs : ImporterRefs := mkRefs ∅ ∅.

(** [name.split(' - ')[i]] *)
Definition namePart (name : string) (i : nat) : JSValue :=
  match split name " - " !! i with
  | Some s => JStr s
  | None => JUndefined
  end.

(** The callback of [.map] in importTestDayData; [now] is the reading of
    the clock in this call. *)
Definition makeRun (testDay : TestDayFolder.t) (now : string)
                   (index : nat) (file : XRKFile.t) : JSObject :=
  [ ("id", JStr ("local-" +:+ TestDayFolder.name testDay +:+ "-" +:+ of_nat (index + 1)));
    ("testDayId", JStr ("local-" +:+ TestDayFolder.name testDay));
    ("runNumber", JNum (Z.of_nat (index + 1)));
    ("timestamp", JStr now);
    ("track", JsObject.or (namePart (TestDayFolder.name testDay) 1) (JStr "Unknown"));
    ("drivers", JArr [JStr "Unknown"]);
    ("notes", JStr ("Imported from " +:+ XRKFile.name file));
    ("tags", JArr [JStr "imported"; JStr "xrk"]) ].

(** The files that pass [.filter(file => !importedRunPathsRef.current.has(file.path))]. *)
Definition notYetImported (refs : ImporterRefs) (testDay : TestDayFolder.t)
  : list XRKFile.t :=
  filter (fun file => XRKFile.path file ∉ importedRunPathsRef refs)
         (TestDayFolder.xrkFiles testDay).

(** [newRuns.forEach((_, idx) => { const f = testDay.xrkFiles[idx];
    if (f) importedRunPathsRef.current.add(f.path); })] *)
Definition markImported (paths : gset string) (testDay : TestDayFolder.t)
                        (newRuns : list JSObject) : gset string :=
  fold_left
    (fun acc idx =>
       match TestDayFolder.xrkFiles testDay !! idx with
       | Some f => {[ XRKFile.path f ]} ∪ acc
       | None => acc
       end)
    (seq 0 (length newRuns)) paths.

(** importTestDayData: the data handed to [onDataImported] and the refs
    after the call.  [clock i] is the wall-clock reading in the [i]-th call
    of the [.map] callback. *)
Definition importTestDayData (refs : ImporterRefs) (clock : nat -> string)
                             (testDay : TestDayFolder.t)
  : ImportedData.t * ImporterRefs :=
  let newRuns :=
    imap (fun index file => makeRun testDay (clock index) index file)
         (notYetImported refs testDay) in
  let refs' :=
    mkRefs (markImported (importedRunPathsRef refs) testDay newRuns)
           (importedSetupNamesRef refs) in
  let importedData :=
    {| ImportedData.testDays :=
         Some [ [ ("id", JStr ("local-" +:+ TestDayFolder.name testDay));
                  ("date", namePart (TestDayFolder.name testDay) 0);
                  ("track", JsObject.or (namePart (TestDayFolder.name testDay) 1)
                                        (JStr "Unknown"));
                  ("runs", JNum (Z.of_nat (length newRuns))) ] ];
       ImportedData.runs := Some newRuns;
       ImportedData.setups := Some [];
       ImportedData.tireSets := Some [] |} in
  (importedData, refs').

Section GlobalSetups.

(** [JSON.parse]: [None] when it throws. *)
Variable JSON_parse : string -> option JSValue.

(** The object literal of importGlobalSetups; [None] when reading a
    property of [setupData] throws. *)
Definition makeSetup (now : string) (file : File.t) (setupData : JSValue)
  : option JSObject :=
  id ← JsObject.get_member setupData "id";
  name ← JsObject.get_member setupData "name";
  let base := remove_match (File.name file) jsonSuffixPattern in
  Some (JsObject.spread
          [ ("id", JsObject.or id (JStr ("setup-" +:+ base)));
            ("name", JsObject.or name (JStr base));
            ("timestamp", JStr now) ]
          (JsObject.own_props setupData)).

(** The body of the inner [try]: [None] when it throws. *)
Definition readSetup (now : string) (file : File.t) : option JSObject :=
  content ← File.text file;
  setupData ← JSON_parse content;
  makeSetup now file setupData.

(** The warning importGlobalSetups writes for a file it could not turn into
    a setup. *)
Definition warningFor (file : File.t) : string :=
  "Failed to parse setup file " +:+ File.name file +:+ ":".

(** The file can be read and its text parses to a value other than [null]
    (the inner [try] does not throw). *)
Definition parsesToSetup (file : File.t) : bool :=
  match File.text file ≫= JSON_parse with
  | Some JNull | Some JUndefined | None => false
  | Some _ => true
  end.

(** The setups read from [files], the [i]-th file being read at
    [clock i]; a file that cannot be turned into a setup gives none. *)
Fixpoint setupsRead (clock : nat -> string) (i : nat) (files : list File.t)
  : list JSObject :=
  match files with
  | [] => []
  | file :: files' =>
      match readSetup (clock i) file with
      | Some setup => setup :: setupsRead clock (S i) files'
      | None => setupsRead clock (S i) files'
      end
  end.

(** The state of the loop of importGlobalSetups. *)
Record SetupLoop : Type := mkLoop {
  importedSetups : list JSObject;
  setupNames : gset string;
  console : list string
}.

(** One turn of the loop. *)
Definition importSetupFile (now : string) (st : SetupLoop) (file : File.t)
  : SetupLoop :=
  if bool_decide (File.name file ∈ setupNames st) then st
  else
    match readSetup now file with
    | Some setup =>
        mkLoop (importedSetups st ++ [setup])
               ({[ File.name file ]} ∪ setupNames st)
               (console st)
    | None =>
        mkLoop (importedSetups st) (setupNames st)
               (console st ++ [warningFor file])
    end.

Fixpoint importSetupFiles (clock : nat -> string) (i : nat) (st : SetupLoop)
                          (files : list File.t) : SetupLoop :=
  match files with
  | [] => st
  | file :: files' =>
      importSetupFiles clock (S i) (importSetupFile (clock i) st file) files'
  end.

(** importGlobalSetups: the data handed to [onDataImported] ([None] when it
    is not called), the warnings written to the console and the refs after
    the call.  [clock i] is the wall-clock reading at the [i]-th file. *)
Definition importGlobalSetups (refs : ImporterRefs) (clock : nat -> string)
                              (globalSetupFiles : list File.t)
  : option ImportedData.t * list string * ImporterRefs :=
  let st := importSetupFiles clock 0
              (mkLoop [] (importedSetupNamesRef refs) []) globalSetupFiles in
  let sent :=
    if (0 <? length (importedSetups st))%nat
    then Some {| ImportedData.testDays := Some [];
                 ImportedData.runs := Some [];
                 ImportedData.setups := Some (importedSetups st);
                 ImportedData.tireSets := Some [] |}
    else None in
  (sent, console st, mkRefs (importedRunPathsRef refs) (setupNames st)).

End GlobalSetups.

(** ** handleDataImported: the merge *)

(** The four collections the dashboard holds in its state. *)
Module Dataset.
Record t : Type := mk {
  days : list JSObject;
  runs : list JSObject;
  setups : list JSObject;
  tires : list JSObject
}.
End Dataset.

(** [r.id] *)
Definition recordId (r : JSObject) : JSValue := JsObject.get r "id".

(** The state update the handler applies to each collection:
    [if (imported && imported.length > 0) set(prev => { const existing =
    new Set(prev.map(d => d.id)); return [...prev, ...imported.filter(d =>
    !existing.has(d.id))]; })].  The set is only built and queried, so it is
    carried as the list of the ids. *)
Definition mergeCollection (prev : list JSObject) (imported : option (list JSObject))
  : list JSObject :=
  match imported with
  | Some ((_ :: _) as batch) =>
      let existing := recordId <$> prev in
      prev ++ filter (fun d => recordId d ∉ existing) batch
  | Some [] | None => prev
  end.

Definition handleDataImported (data : Dataset.t) (importedData : ImportedData.t)
  : Dataset.t :=
  {| Dataset.days := mergeCollection (Dataset.days data) (ImportedData.testDays importedData);
     Dataset.runs := mergeCollection (Dataset.runs data) (ImportedData.runs importedData);
     Dataset.setups := mergeCollection (Dataset.setups data) (ImportedData.setups importedData);
     Dataset.tires := mergeCollection (Dataset.tires data) (ImportedData.tireSets importedData) |}.

(** The records of an imported collection; none when the property is
    missing. *)
Definition batchOf (imported : option (list JSObject)) : list JSObject :=
  default [] imported.

(** Pairwise distinct ids within each collection. *)
Definition uniqueKeys (data : Dataset.t) : Prop :=
  NoDup (recordId <$> Dataset.days data) /\ NoDup (recordId <$> Dataset.runs data) /\
  NoDup (recordId <$> Dataset.setups data) /\ NoDup (recordId <$> Dataset.tires data).

Definition batchUniqueKeys (importedData : ImportedData.t) : Prop :=
  NoDup (recordId <$> batchOf (ImportedData.testDays importedData)) /\
  NoDup (recordId <$> batchOf (ImportedData.runs importedData)) /\
  NoDup (recordId <$> batchOf (ImportedData.setups importedData)) /\
  NoDup (recordId <$> batchOf (ImportedData.tireSets importedData)).

(** [result] keeps [prev] as it is, in place, and adds after it only
    records of [batch] whose id no record of [prev] has. *)
Definition keepsAndAdds (prev batch result : list JSObject) : Prop :=
  exists added,
    result = prev ++ added /\
    sublist added batch /\
    forall r, r ∈ added -> recordId r ∉ (recordId <$> prev).

(** ** Data of the examples *)

Definition emptyDataset : Dataset.t := Dataset.mk [] [] [] [].

(** Two setup records of one id, as two setup files that carry the same
    [id] property produce them. *)
Definition setupA : JSObject :=
  [("id", JStr "SET-1"); ("name", JStr "Baseline"); ("timestamp", JStr "t0")].
Definition setupB : JSObject :=
  [("id", JStr "SET-1"); ("name", JStr "Baseline copy"); ("timestamp", JStr "t1")].
Definition setupC : JSObject :=
  [("id", JStr "SET-2"); ("name", JStr "Wet"); ("timestamp", JStr "t2")].

Definition twinSetups : ImportedData.t :=
  ImportedData.mk (Some []) (Some []) (Some [setupA; setupB]) (Some []).

Definition distinctSetups : ImportedData.t :=
  ImportedData.mk (Some []) (Some []) (Some [setupA; setupC]) (Some []).

Definition oneSetup : Dataset.t := Dataset.mk [] [] [setupB] [].

(** A test day with two telemetry files, and the same folder after two
    more files were added to it. *)
Definition telemetryFile (name : string) (size lastModified : Z) : File.t :=
  File.mk name size lastModified
          ("UTFR Test Data/2025-4-11 - Villa/datadump/" +:+ name) (Some "").

Definition villaFiles : list File.t :=
  [telemetryFile "run1.xrk" 1024 100; telemetryFile "run2.xrk" 2048 200].

Definition villaFilesLater : list File.t :=
  villaFiles ++ [telemetryFile "run3.xrk" 512 300; telemetryFile "run4.xrk" 256 400].

Definition villaDay : TestDayFolder.t :=
  TestDayFolder.mk "2025-4-11 - Villa" "2025-4-11 - Villa" (toXRKFile <$> villaFiles).

Definition villaDayLater : TestDayFolder.t :=
  TestDayFolder.mk "2025-4-11 - Villa" "2025-4-11 - Villa" (toXRKFile <$> villaFilesLater).

Definition noon : nat -> string := fun _ => "2025-04-11T12:00:00.000Z".
Definition afternoon : nat -> string := fun _ => "2025-04-11T15:00:00.000Z".

(** The runs of an imported batch. *)
Definition runsOf (importedData : ImportedData.t) : list JSObject :=
  batchOf (ImportedData.runs importedData).

(** The id the importer gives the run at position [k] (from 0). *)
Definition runIdAt (testDay : TestDayFolder.t) (k : nat) : JSValue :=
  JStr ("local-" +:+ TestDayFolder.name testDay +:+ "-" +:+ of_nat (k + 1)).

(** The setups handed to [onDataImported]; none when it is not called. *)
Definition sentSetups (sent : option ImportedData.t) : list JSObject :=
  match sent with
  | Some importedData => batchOf (ImportedData.setups importedData)
  | None => []
  end.

(** [JSON.parse] on the texts of the examples below: the documents [{}],
    [[]], [null], [true] and [false]; the other texts used there are not
    JSON. *)
Definition parseExample (text : string) : option JSValue :=
  if String.eqb text "{}" then Some (JObj [])
  else if String.eqb text "[]" then Some (JArr [])
  else if String.eqb text "null" then Some JNull
  else if String.eqb text "true" then Some (JBool true)
  else if String.eqb text "false" then Some (JBool false)
  else None.

Definition setupFile (dir name text : string) : File.t :=
  File.mk name 2 0 ("UTFR Test Data/Setups/" +:+ dir +:+ name) (Some text).

(** Two valid setup files of one name, in two folders below Setups. *)
Definition namesakes : list File.t :=
  [setupFile "dry/" "baseline.json" "{}"; setupFile "wet/" "baseline.json" "{}"].

(** Ten setup files, the fourth of which is not JSON. *)
Definition tenSetupFiles : list File.t :=
  [ setupFile "" "s1.json" "{}"; setupFile "" "s2.json" "{}";
    setupFile "" "s3.json" "{}"; setupFile "" "s4.json" "{";
    setupFile "" "s5.json" "{}"; setupFile "" "s6.json" "{}";
    setupFile "" "s7.json" "{}"; setupFile "" "s8.json" "{}";
    setupFile "" "s9.json" "{}"; setupFile "" "s10.json" "{}" ].

(** The two namesakes and a file that is not JSON. *)
Definition namesakesAndBroken : list File.t :=
  namesakes ++ [setupFile "" "broken.json" "{"].

(** The test-day folder the first loop of the scan files [file] under:
    the first segment but the last of its path that matches the pattern,
    [''] when there is none. *)
Definition owner (file : File.t) : string :=
  findTestDayFolder (split (File.webkitRelativePath file) "/").

(** [m.get(k)] *)
Fixpoint directoryMap_get (m : DirectoryMap) (k : string) : option (list File.t) :=
  match m with
  | [] => None
  | (k', fs) :: m' => if String.eqb k' k then Some fs else directoryMap_get m' k
  end.

(** The folder the second loop of the scan makes of an entry of the map,
    if any. *)
Definition folderOf (entry : string * list File.t) : option TestDayFolder.t :=
  if isTestDay entry.1 then
    let xrkFiles := toXRKFile <$> filter (fun f => isXrk f = true) entry.2 in
    if (0 <? length xrkFiles)%nat || existsb isTestDayJson entry.2
    then Some (TestDayFolder.mk entry.1 entry.1 xrkFiles)
    else None
  else None.

(** The reading of "a file below a folder segment" that takes every
    segment of the path of the file but the last, whether or not an outer
    segment matches the pattern too. *)
Definition liesBelow (segment : string) (file : File.t) : Prop :=
  exists i, split (File.webkitRelativePath file) "/" !! i = Some segment /\
            (S i < length (split (File.webkitRelativePath file) "/"))%nat.

(** A test-day folder inside another one, and a test-day folder that holds
    the metadata marker only. *)
Definition nestedFiles : list File.t :=
  [ File.mk "run1.xrk" 1024 100
            "UTFR Test Data/2025-4-11 - Villa/2025-4-12 - Mosport/run1.xrk" (Some "") ].

Definition markerOnlyFiles : list File.t :=
  [ File.mk "testday.json" 64 100
            "UTFR Test Data/2025-4-12 - Mosport/testday.json" (Some "{}");
    File.mk "notes.txt" 10 100
            "UTFR Test Data/2025-4-12 - Mosport/notes.txt" (Some "") ].

(** ** The shape of a test-day folder name *)

(** The quantifier [p{lo,hi}] can take [taken] at the head of [s] and
    leave [rest]. *)
Definition canTake (p : ascii -> bool) (lo : nat) (hi : option nat)
                   (s taken rest : list ascii) : Prop :=
  s = taken ++ rest /\
  Forall (fun c => p c = true) taken /\
  (lo <= length taken)%nat /\
  match hi with Some h => (length taken <= h)%nat | None => True end.

(** [\d{4}-\d{1,2}-\d{1,2}] *)
Definition isDateText (d : list ascii) : Prop :=
  exists year month day,
    d = year ++ "-"%char :: month ++ "-"%char :: day /\
    length year = 4%nat /\ Forall (fun c => is_digit c = true) year /\
    (1 <= length month <= 2)%nat /\ Forall (fun c => is_digit c = true) month /\
    (1 <= length day <= 2)%nat /\ Forall (fun c => is_digit c = true) day.

(** The venue the pattern captures: not empty, without a line terminator,
    and starting with white space only when it is one code unit long. *)
Definition isVenueText (v : list ascii) : Prop :=
  Forall (fun c => is_dot c = true) v /\
  exists c rest, v = c :: rest /\ (is_space c = false \/ rest = []).

(** The segment [s] read as a test-day folder name with the parts [date]
    and [venue]: the date from the first code unit on, white space, one
    separator, white space, and the venue up to the end. *)
Definition isTestDayName (s date venue : string) : Prop :=
  exists ws1 sep ws2,
    chars s = chars date ++ ws1 ++ sep :: ws2 ++ chars venue /\
    isDateText (chars date) /\
    Forall (fun c => is_space c = true) ws1 /\ is_sep sep = true /\
    Forall (fun c => is_space c = true) ws2 /\
    isVenueText (chars venue).

(** The pattern as the specification words it: white space allowed before
    the date and after the venue, a date, one or more separators with
    white space allowed around them, and a venue that is not empty and
    carries no white space at either end. *)
Definition specTestDayPattern (s date venue : string) : Prop :=
  exists lead ws1 seps ws2 trail,
    chars s = lead ++ chars date ++ ws1 ++ seps ++ ws2 ++ chars venue ++ trail /\
    Forall (fun c => is_space c = true) (lead ++ ws1 ++ ws2 ++ trail) /\
    isDateText (chars date) /\
    seps <> [] /\ Forall (fun c => is_sep c = true) seps /\
    venue <> "" /\
    (forall c rest, chars venue = c :: rest -> is_space c = false) /\
    (forall c rest, rev (chars venue) = c :: rest -> is_space c = false).

(** Normal form of reversed concatenations. *)
Ltac norm_rev :=
  repeat (progress (rewrite ?rev_app_distr, <- ?app_assoc; simpl)).

(** ** The run list of the dashboard *)

(** The state update of upsertRun: the first record that has the id of
    [r] is replaced where it stands, a record of a new id comes last.  (The
    write of a run file that follows it does not touch the state.) *)
Definition upsertRun (prev : list JSObject) (r : JSObject) : list JSObject :=
  match list_find (fun x => recordId x = recordId r) prev with
  | Some (i, _) => <[i := r]> prev
  | None => prev ++ [r]
  end.

(** [prev.filter(r => r.id !== id)] *)
Definition deleteRun (prev : list JSObject) (id : JSValue) : list JSObject :=
  filter (fun r => recordId r <> id) prev.

(** ** The counters of the scan *)

(** [testDayFolders.reduce((sum, folder) => sum + folder.xrkFiles.length, 0)] *)
Definition totalXRKFiles (testDayFolders : list TestDayFolder.t) : nat :=
  fold_left (fun sum folder => (sum + length (TestDayFolder.xrkFiles folder))%nat)
            testDayFolders O.

(** ** Creating a test day *)

(** The template literal [`${date} - ${venue}`] that names the folder of a
    test day. *)
Definition testDayFolderName (date venue : string) : string :=
  date +:+ " - " +:+ venue.

(** createTestDayOnDisk up to the writes: [None] when it returns early
    (no write handle, or an empty field), otherwise the name of the folder
    it creates and the object it writes to [testday.json] in it. *)
Definition createTestDayOnDisk (baseWriteHandle : bool) (now : string)
                               (newDayDate newDayVenue : string)
  : option (string * JSObject) :=
  if negb baseWriteHandle then None
  else if String.eqb newDayDate "" || String.eqb newDayVenue "" then None
  else Some (testDayFolderName newDayDate newDayVenue,
             [ ("date", JStr newDayDate); ("track", JStr newDayVenue);
               ("createdAt", JStr now) ]).

(** The [testday.json] of a folder [folderName] directly below the
    selected folder [base], as a later selection of [base] lists it. *)
Definition testDayJsonFile (base folderName : string) (size lastModified : Z)
                           (content : option string) : File.t :=
  File.mk "testday.json" size lastModified
          (base +:+ "/" +:+ folderName +:+ "/testday.json") content.

(** The test-day records of an imported batch. *)
Definition daysOf (importedData : ImportedData.t) : list JSObject :=
  batchOf (ImportedData.testDays importedData).

(** A test day whose folder is written with an underscore. *)
Definition underscoreDay : TestDayFolder.t :=
  TestDayFolder.mk "2025-4-11_Villa" "2025-4-11_Villa" (toXRKFile <$> villaFiles).

(** ** The search of the Drive route *)

(** [r.test(s)] *)
Definition test (r : regex) (s : string) : bool :=
  bool_decide (is_Some (exec r s)).

(** [/^\d{4}-\d{2}-\d{2}\s*[-_]\s*(.+)$/], the pattern of the
    search-test-days route: the date, not captured, then the separator and
    the venue of group 1. *)
Definition driveDatePattern : regex :=
  (RGreedy 4 (Some 4) is_digit ⋅ RChar (is_char "-") ⋅
   RGreedy 2 (Some 2) is_digit ⋅ RChar (is_char "-") ⋅
   RGreedy 2 (Some 2) is_digit)%re.

Definition driveSeparatorVenuePattern : regex :=
  (RGreedy 0 None is_space ⋅ RChar is_sep ⋅ RGreedy 0 None is_space ⋅
   RGroup 1 (RGreedy 1 None is_dot) ⋅ REnd)%re.

Definition driveTestDayPattern : regex :=
  (RBegin ⋅ driveDatePattern ⋅ driveSeparatorVenuePattern)%re.

(** The callback of the filter of the route, on the [name] of a Drive
    folder ([None] when the property is missing): [file.name || ''] is
    tested against the pattern. *)
Definition isDriveTestDay (name : option string) : bool :=
  test driveTestDayPattern (default "" name).

(** ** IMPORT ALL *)

(** The button IMPORT ALL of the panel,
    [testDayFolders.forEach(folder => importTestDayData(folder))], with the
    handler of the dashboard as [onDataImported]: the folders are imported
    one after the other, each batch being merged before the next import.
    [clock k] is the clock during the import of the [k]-th folder. *)
Fixpoint importAll (refs : ImporterRefs) (clock : nat -> nat -> string) (k : nat)
                   (data : Dataset.t) (testDayFolders : list TestDayFolder.t)
  : Dataset.t * ImporterRefs :=
  match testDayFolders with
  | [] => (data, refs)
  | folder :: rest =>
      let '(importedData, refs') := importTestDayData refs (clock k) folder in
      importAll refs' clock (S k) (handleDataImported data importedData) rest
  end.

(** The ids of the runs of a folder when each of its files gives a run. *)
Definition runIdsOf (testDay : TestDayFolder.t) : list JSValue :=
  runIdAt testDay <$> seq 0 (length (TestDayFolder.xrkFiles testDay)).

(** ** Files written from the dashboard *)

(** [a || b] on strings: the empty string is the falsy one. *)
Definition orString (a b : string) : string :=
  if String.eqb a "" then b else a.

(** [s.trimStart()] on the code units, and [s.trim()]. *)
Fixpoint trimStart (s : list ascii) : list ascii :=
  match s with
  | c :: s' => if is_space c then trimStart s' else s
  | [] => []
  end.

Definition trim (s : string) : string :=
  of_chars (rev (trimStart (rev (trimStart (chars s))))).

(** [[a-zA-Z0-9]] *)
Definition is_alnum (c : ascii) : bool :=
  ((97 <=? code c)%N && (code c <=? 122)%N)
  || ((65 <=? code c)%N && (code c <=? 90)%N)
  || is_digit c.

(** [s.replace(/[^...]/g, '-')] for a class [keep] of code units. *)
Definition replaceOthers (keep : ascii -> bool) (s : string) : string :=
  of_chars ((fun c => if keep c then c else "-"%char) <$> chars s).

(** exportStintToDrive, the names it writes under: the folder of the day,
    [`${yyyy}-${m}-${d} - ${trackName}`] with the readings [yyyy], [m], [d]
    of [getFullYear()], [getMonth() + 1] and [getDate()], and the file of
    the stint. *)
Definition stintTrackName (track : string) : string :=
  orString (trim (orString track "Unknown")) "Unknown".

Definition stintFolderName (yyyy m d : nat) (track : string) : string :=
  of_nat yyyy +:+ "-" +:+ of_nat m +:+ "-" +:+ of_nat d +:+ " - " +:+ stintTrackName track.

(** [stint.name.replace(/[^a-zA-Z0-9-_]/g, '-').slice(0, 40) || 'stint'] *)
Definition stintSafeName (name : string) : string :=
  orString
    (of_chars (take 40 (chars (replaceOthers (fun c => is_alnum c || is_sep c) name))))
    "stint".

(** tryAutoWriteSetup, the file it writes in [Setups] below the folder
    [base] the write access was granted for:
    [`setup-${setup.name.replace(/[^a-zA-Z0-9]/g, '-')}.json`], as a later
    selection of [base] lists it. *)
Definition setupFileName (name : string) : string :=
  "setup-" +:+ replaceOthers is_alnum name +:+ ".json".

Definition writtenSetupFile (base name : string) (size lastModified : Z)
                            (content : option string) : File.t :=
  File.mk (setupFileName name) size lastModified
          (base +:+ "/Setups/" +:+ setupFileName name) content.

(** ** The importer of the Drive panel *)

Module GoogleDriveSync.

Module XRKFile.
Record t : Type := mk {
  id : string;
  name : string;
  size : string;
  modifiedTime : string;
  downloadLink : string
}.
End XRKFile.

Module TestDayFolder.
Record t : Type := mk {
  id : string;
  name : string;
  modifiedTime : string;
  webViewLink : string;
  xrkFiles : list XRKFile.t;
  error : option string
}.
End TestDayFolder.

(** The callback of [.map] in importTestDayData. *)
Definition makeRun (index : nat) (file : XRKFile.t) : JSObject :=
  [ ("id", JStr (XRKFile.id file));
    ("runNumber", JNum (Z.of_nat (index + 1)));
    ("driver", JStr "Unknown");
    ("time", JStr "00:00.000");
    ("notes", JStr ("Imported from " +:+ XRKFile.name file));
    ("xrkFile", JStr (XRKFile.name file));
    ("downloadLink", JStr (XRKFile.downloadLink file)) ].

(** importTestDayData of the Drive panel: the data handed to
    [onDataImported].  It keeps no record of what it imported. *)
Definition importTestDayData (testDay : TestDayFolder.t) : ImportedData.t :=
  let runs := imap makeRun (TestDayFolder.xrkFiles testDay) in
  {| ImportedData.testDays :=
       Some [ [ ("id", JStr (TestDayFolder.id testDay));
                ("date", namePart (TestDayFolder.name testDay) 0);
                ("venue", JsObject.or (namePart (TestDayFolder.name testDay) 1)
                                      (JStr "Unknown"));
                ("runs", JArr (JObj <$> runs)) ] ];
     ImportedData.runs := Some runs;
     ImportedData.setups := Some [];
     ImportedData.tireSets := Some [] |}.

End GoogleDriveSync.

(** A Drive folder with two telemetry files, and the same folder after a
    third one was added. *)
Definition driveFile (id name : string) : GoogleDriveSync.XRKFile.t :=
  GoogleDriveSync.XRKFile.mk id name "1024" "2025-04-11T12:00:00.000Z" "".

Definition driveDay (files : list GoogleDriveSync.XRKFile.t) : GoogleDriveSync.TestDayFolder.t :=
  GoogleDriveSync.TestDayFolder.mk "folder-1" "2025-04-11 - Villa"
    "2025-04-11T12:00:00.000Z" "" files None.

(** * Properties *)

(** ** The merge *)

Section Merge.

Implicit Types (prev batch : list JSObject) (imported : option (list JSObject)).

Lemma mergeCollection_filter prev imported :
  mergeCollection prev imported =
  prev ++ filter (fun d => recordId d ∉ (recordId <$> prev)) (batchOf imported).
Proof.
  destruct imported as [[|d batch]|]; simpl; rewrite ?app_nil_r; reflexivity.
Qed.

Lemma mergeCollection_covers prev imported r :
  r ∈ batchOf imported -> recordId r ∈ (recordId <$> mergeCollection prev imported).
Proof.
  intros Hr. rewrite mergeCollection_filter, fmap_app, elem_of_app.
  destruct (decide (recordId r ∈ (recordId <$> prev))) as [Hin|Hout]; [left; exact Hin|].
  right. apply list_elem_of_fmap_2, list_elem_of_filter. split; assumption.
Qed.

Lemma mergeCollection_idem prev imported :
  mergeCollection (mergeCollection prev imported) imported = mergeCollection prev imported.
Proof.
  rewrite (mergeCollection_filter (mergeCollection prev imported)).
  set (m := mergeCollection prev imported).
  assert (Hnone : filter (fun d => recordId d ∉ (recordId <$> m)) (batchOf imported) = []).
  { apply elem_of_nil_inv. intros r [Hout Hr]%list_elem_of_filter.
    apply Hout, mergeCollection_covers, Hr. }
  rewrite Hnone. apply app_nil_r.
Qed.

Lemma mergeCollection_keeps prev imported :
  keepsAndAdds prev (batchOf imported) (mergeCollection prev imported).
Proof.
  exists (filter (fun d => recordId d ∉ (recordId <$> prev)) (batchOf imported)).
  split; [apply mergeCollection_filter|]. split.
  - apply sublist_filter.
  - intros r [Hr _]%list_elem_of_filter. exact Hr.
Qed.

Lemma NoDup_filter_fmap prev batch :
  NoDup (recordId <$> batch) ->
  NoDup (recordId <$> filter (fun d => recordId d ∉ (recordId <$> prev)) batch).
Proof.
  induction batch as [|d batch IH]; simpl; intros Hnd; [constructor|].
  apply NoDup_cons in Hnd as [Hd Hnd]. rewrite filter_cons.
  destruct (decide (recordId d ∉ (recordId <$> prev))); [|auto].
  rewrite fmap_cons. apply NoDup_cons. split; [|auto].
  intros (d' & Heq & [_ Hd']%list_elem_of_filter)%list_elem_of_fmap.
  apply Hd. rewrite Heq. apply list_elem_of_fmap_2, Hd'.
Qed.

Lemma mergeCollection_NoDup prev imported :
  NoDup (recordId <$> prev) -> NoDup (recordId <$> batchOf imported) ->
  NoDup (recordId <$> mergeCollection prev imported).
Proof.
  intros Hprev Hbatch. rewrite mergeCollection_filter, fmap_app.
  apply NoDup_app. split; [exact Hprev|]. split; [|apply NoDup_filter_fmap, Hbatch].
  intros k Hk (d & -> & [Hout _]%list_elem_of_filter)%list_elem_of_fmap.
  exact (Hout Hk).
Qed.

End Merge.

(** C3. The merge is idempotent: applying the same imported data to the
    result of a merge leaves every collection as it is. *)
Theorem handleDataImported_idempotent (data : Dataset.t) (importedData : ImportedData.t) :
  handleDataImported (handleDataImported data importedData) importedData
  = handleDataImported data importedData.
Proof.
  unfold handleDataImported; simpl. f_equal; apply mergeCollection_idem.
Qed.

(** C7. The merge passes the existing records through: each collection of
    the result is the existing collection, every record in its place and
    unchanged, followed by records of the batch whose id no existing record
    has; a batch record whose id an existing record has is dropped.  The
    handler builds new arrays ([[...prev, ...new]]); here it is a function
    of its arguments. *)
Theorem handleDataImported_keeps_existing (data : Dataset.t) (importedData : ImportedData.t) :
  let result := handleDataImported data importedData in
  keepsAndAdds (Dataset.days data) (batchOf (ImportedData.testDays importedData))
               (Dataset.days result) /\
  keepsAndAdds (Dataset.runs data) (batchOf (ImportedData.runs importedData))
               (Dataset.runs result) /\
  keepsAndAdds (Dataset.setups data) (batchOf (ImportedData.setups importedData))
               (Dataset.setups result) /\
  keepsAndAdds (Dataset.tires data) (batchOf (ImportedData.tireSets importedData))
               (Dataset.tires result).
Proof.
  simpl. split; [|split; [|split]]; apply mergeCollection_keeps.
Qed.

(** C8 as stated fails: the merge compares a batch record with the existing
    records only, so two batch records of one id are both added. *)
Lemma merge_adds_twin_records :
  uniqueKeys emptyDataset /\ ~ uniqueKeys (handleDataImported emptyDataset twinSetups).
Proof.
  split.
  - repeat split; constructor.
  - intros (_ & _ & Hsetups & _). simpl in Hsetups.
    apply NoDup_cons in Hsetups as [Hin _]. apply Hin. left.
Qed.

(** C8, amended. When the existing records have pairwise distinct ids and
    so have the records of the batch, collection by collection, the merged
    dataset has pairwise distinct ids in each of the four collections. *)
Theorem handleDataImported_uniqueKeys (data : Dataset.t) (importedData : ImportedData.t) :
  uniqueKeys data -> batchUniqueKeys importedData ->
  uniqueKeys (handleDataImported data importedData).
Proof.
  intros (Hd & Hr & Hs & Ht) (Bd & Br & Bs & Bt).
  unfold uniqueKeys; simpl.
  split; [|split; [|split]]; apply mergeCollection_NoDup; assumption.
Qed.

Lemma handleDataImported_uniqueKeys_witness :
  uniqueKeys oneSetup /\ batchUniqueKeys distinctSetups /\
  uniqueKeys (handleDataImported oneSetup distinctSetups).
Proof.
  assert (H1 : uniqueKeys oneSetup).
  { unfold uniqueKeys; simpl. repeat split; repeat constructor; apply not_elem_of_nil. }
  assert (H2 : batchUniqueKeys distinctSetups).
  { unfold batchUniqueKeys; simpl. repeat split; repeat constructor.
    - intros [=]%list_elem_of_singleton.
    - apply not_elem_of_nil. }
  split; [exact H1|]. split; [exact H2|].
  exact (handleDataImported_uniqueKeys oneSetup distinctSetups H1 H2).
Defined.

(** ** The importer of a test day *)

Section ImportTestDay.

Implicit Types (refs : ImporterRefs) (clock : nat -> string) (testDay : TestDayFolder.t).

Lemma runsOf_import refs clock testDay :
  runsOf (importTestDayData refs clock testDay).1 =
  imap (fun index file => makeRun testDay (clock index) index file)
       (notYetImported refs testDay).
Proof. reflexivity. Qed.

Lemma notYetImported_all (refs : ImporterRefs) (testDay : TestDayFolder.t) :
  (forall f, f ∈ TestDayFolder.xrkFiles testDay ->
             XRKFile.path f ∉ importedRunPathsRef refs) ->
  notYetImported refs testDay = TestDayFolder.xrkFiles testDay.
Proof.
  intros Hnew. unfold notYetImported.
  induction (TestDayFolder.xrkFiles testDay) as [|f fs IH]; [reflexivity|].
  rewrite filter_cons_True by (apply Hnew; left). f_equal.
  apply IH. intros g Hg. apply Hnew. right. exact Hg.
Qed.

Lemma run_ids refs clock testDay :
  recordId <$> runsOf (importTestDayData refs clock testDay).1 =
  runIdAt testDay <$> seq 0 (length (notYetImported refs testDay)).
Proof.
  rewrite runsOf_import, fmap_imap. apply (imap_seq_0 _ (runIdAt testDay)).
Qed.

Lemma filter_paths (paths : gset string) (l : list XRKFile.t) :
  XRKFile.path <$> filter (fun file => XRKFile.path file ∉ paths) l =
  filter (fun p => p ∉ paths) (XRKFile.path <$> l).
Proof.
  induction l as [|f l IH]; [reflexivity|].
  rewrite fmap_cons, !filter_cons.
  destruct (decide (XRKFile.path f ∉ paths)); rewrite ?fmap_cons, IH; reflexivity.
Qed.

End ImportTestDay.






(** C4 as stated fails: the content of the batch depends on the refs the
    importer keeps and on the clock.  A second import of the same scanned
    folder in one session carries no run, and two imports from the same
    refs at different times differ in the timestamps of the runs. *)
Lemma import_batches_differ :
  (scanForTestDayFolders villaFiles).1 = [villaDay] /\
  (let '(first, refs1) := importTestDayData freshRefs noon villaDay in
   let '(second, _) := importTestDayData refs1 noon villaDay in
   length (runsOf first) = 2%nat /\ runsOf second = [] /\ first <> second) /\
  (importTestDayData freshRefs noon villaDay).1
  <> (importTestDayData freshRefs afternoon villaDay).1.
Proof.
  split; [vm_compute; reflexivity|]. split.
  - vm_compute. split; [reflexivity|]. split; [reflexivity|]. discriminate.
  - vm_compute. discriminate.
Qed.

(** C4, amended. Two imports of one folder that start from the same refs
    produce the same batch but for the timestamp property of each run
    record, which holds the reading of the clock: the test-day record, the
    setups and tire sets, the order and the ids of the runs, and the refs
    after the import do not depend on the clock. *)
Theorem import_differs_in_timestamps_only
        (refs : ImporterRefs) (clock clock' : nat -> string) (testDay : TestDayFolder.t) :
  let '(batch, after) := importTestDayData refs clock testDay in
  let '(batch', after') := importTestDayData refs clock' testDay in
  after' = after /\
  ImportedData.testDays batch' = ImportedData.testDays batch /\
  ImportedData.setups batch' = ImportedData.setups batch /\
  ImportedData.tireSets batch' = ImportedData.tireSets batch /\
  runsOf batch'
  = imap (fun i run => JsObject.set run "timestamp" (JStr (clock' i))) (runsOf batch) /\
  recordId <$> runsOf batch' = recordId <$> runsOf batch.
Proof.
  unfold importTestDayData, markImported; simpl. rewrite !length_imap.
  split; [reflexivity|]. split; [reflexivity|]. split; [reflexivity|].
  split; [reflexivity|]. split.
  - apply list_eq. intros i. unfold runsOf; simpl.
    rewrite !list_lookup_imap. destruct (notYetImported refs testDay !! i); reflexivity.
  - unfold runsOf; simpl. rewrite !fmap_imap. apply imap_ext. reflexivity.
Qed.

(** C1 fails on the code.  A folder of two telemetry files is imported and
    merged; two files are added to the folder and it is imported again.
    The importer passes the two new files, numbers them 1 and 2 again, and
    the merge drops both records because the runs of the first import hold
    these ids: no run is added. *)
Theorem reimport_adds_no_run :
  (scanForTestDayFolders villaFiles).1 = [villaDay] /\
  (scanForTestDayFolders villaFilesLater).1 = [villaDayLater] /\
  let '(first, refs1) := importTestDayData freshRefs noon villaDay in
  let data1 := handleDataImported emptyDataset first in
  let '(second, refs2) := importTestDayData refs1 afternoon villaDayLater in
  let data2 := handleDataImported data1 second in
  length (Dataset.runs data1) = 2%nat /\
  XRKFile.name <$> notYetImported refs1 villaDayLater = ["run3.xrk"; "run4.xrk"] /\
  recordId <$> runsOf second
  = [JStr "local-2025-4-11 - Villa-1"; JStr "local-2025-4-11 - Villa-2"] /\
  Dataset.runs data2 = Dataset.runs data1 /\
  XRKFile.name <$> notYetImported refs2 villaDayLater = ["run3.xrk"; "run4.xrk"].
Proof.
  split; [vm_compute; reflexivity|]. split; [vm_compute; reflexivity|].
  vm_compute. repeat split.
Qed.

(** ** The importer of the global setups *)

Section ImportSetups.

Variable JSON_parse : string -> option JSValue.

Lemma makeSetup_is_Some now file v :
  is_Some (makeSetup now file v) <-> v <> JNull /\ v <> JUndefined.
Proof.
  unfold makeSetup. destruct v; simpl; split;
    try (intros [x Hx]; discriminate Hx); try (intros [? ?]; congruence);
    try (intros _; split; discriminate); intros _; eexists; reflexivity.
Qed.

Lemma readSetup_is_Some now file :
  is_Some (readSetup JSON_parse now file) <-> parsesToSetup JSON_parse file = true.
Proof.
  unfold readSetup, parsesToSetup.
  destruct (File.text file) as [content|]; simpl;
    [|split; [intros [x Hx]; discriminate Hx|discriminate]].
  destruct (JSON_parse content) as [v|]; simpl;
    [|split; [intros [x Hx]; discriminate Hx|discriminate]].
  rewrite makeSetup_is_Some. destruct v; split; try discriminate; try tauto;
    try (intros _; split; discriminate).
Qed.

Lemma importSetupFiles_fresh clock files : forall i st,
  NoDup (File.name <$> files) ->
  (forall f, f ∈ files -> File.name f ∉ setupNames st) ->
  importedSetups (importSetupFiles JSON_parse clock i st files)
  = importedSetups st ++ setupsRead JSON_parse clock i files /\
  console (importSetupFiles JSON_parse clock i st files)
  = console st ++ (warningFor <$> filter (fun f => parsesToSetup JSON_parse f = false) files) /\
  length (setupsRead JSON_parse clock i files)
  = length (filter (fun f => parsesToSetup JSON_parse f = true) files).
Proof.
  induction files as [|file files IH]; intros i st Hnd Hfresh; simpl.
  - rewrite !app_nil_r. auto.
  - rewrite fmap_cons in Hnd. apply NoDup_cons in Hnd as [Hfile Hnd].
    unfold importSetupFile at 1 2.
    rewrite bool_decide_eq_false_2 by (apply Hfresh; left).
    rewrite !filter_cons.
    destruct (readSetup JSON_parse (clock i) file) as [setup|] eqn:Hread.
    + assert (Hp : parsesToSetup JSON_parse file = true)
        by (apply (readSetup_is_Some (clock i)); rewrite Hread; eexists; reflexivity).
      rewrite Hp. destruct (decide (true = false)) as [[=]|_].
      destruct (decide (true = true)) as [_|[]]; [|reflexivity].
      lazymatch goal with
      | |- context [importSetupFiles _ _ _ ?st1 _] =>
          destruct (IH (S i) st1 Hnd) as (E1 & E2 & E3)
      end.
      * simpl. intros f Hf [Heq%elem_of_singleton|Hin]%elem_of_union.
        -- apply Hfile. rewrite <- Heq. apply list_elem_of_fmap_2, Hf.
        -- apply (Hfresh f); [right; exact Hf|exact Hin].
      * rewrite E1, E2; simpl. rewrite E3, <- app_assoc. auto.
    + assert (Hp : parsesToSetup JSON_parse file = false).
      { destruct (parsesToSetup JSON_parse file) eqn:E; [|reflexivity].
        apply (readSetup_is_Some (clock i)) in E. rewrite Hread in E.
        destruct E as [x Hx]. discriminate Hx. }
      rewrite Hp. destruct (decide (false = true)) as [[=]|_].
      destruct (decide (false = false)) as [_|[]]; [|reflexivity].
      lazymatch goal with
      | |- context [importSetupFiles _ _ _ ?st1 _] =>
          destruct (IH (S i) st1 Hnd) as (E1 & E2 & E3)
      end.
      * simpl. intros f Hf. apply Hfresh. right. exact Hf.
      * rewrite E1, E2; simpl. rewrite E3, <- app_assoc. auto.
Qed.

(** C9, amended. When the setup files have pairwise distinct names, none of
    them imported before, importGlobalSetups hands on one setup record for
    each file that can be read and parses to a value other than [null], in
    the order of the files, and writes one warning to the console for each
    other file; no file stops the loop.  (A file whose name was imported
    before is skipped without a record and without a warning.) *)
Theorem importGlobalSetups_isolates_failures
        (refs : ImporterRefs) (clock : nat -> string) (files : list File.t) :
  NoDup (File.name <$> files) ->
  (forall f, f ∈ files -> File.name f ∉ importedSetupNamesRef refs) ->
  let '(sent, warnings, _) := importGlobalSetups JSON_parse refs clock files in
  sentSetups sent = setupsRead JSON_parse clock 0 files /\
  length (sentSetups sent)
  = length (filter (fun f => parsesToSetup JSON_parse f = true) files) /\
  warnings = warningFor <$> filter (fun f => parsesToSetup JSON_parse f = false) files /\
  (length (sentSetups sent) + length warnings = length files)%nat.
Proof.
  intros Hnd Hfresh. unfold importGlobalSetups.
  destruct (importSetupFiles_fresh clock files 0
              (mkLoop [] (importedSetupNamesRef refs) []) Hnd Hfresh) as (E1 & E2 & E3).
  simpl in E1, E2. rewrite E2.
  set (st := importSetupFiles JSON_parse clock 0 _ files) in *.
  assert (Hsent : sentSetups
                    (if (0 <? length (importedSetups st))%nat
                     then Some {| ImportedData.testDays := Some [];
                                  ImportedData.runs := Some [];
                                  ImportedData.setups := Some (importedSetups st);
                                  ImportedData.tireSets := Some [] |}
                     else None) = importedSetups st).
  { destruct (importedSetups st); reflexivity. }
  rewrite Hsent, E1, E3. split; [reflexivity|]. split; [reflexivity|].
  split; [reflexivity|]. rewrite length_fmap.
  clear. induction files as [|f files IH]; [reflexivity|].
  rewrite !filter_cons. destruct (parsesToSetup JSON_parse f).
  - destruct (decide (true = true)) as [_|[]]; [|reflexivity].
    destruct (decide (true = false)) as [[=]|_]. simpl. lia.
  - destruct (decide (false = true)) as [[=]|_].
    destruct (decide (false = false)) as [_|[]]; [|reflexivity]. simpl. lia.
Qed.

End ImportSetups.

(** C9 as stated fails: of a batch of two valid setup files of one name
    and one file that is not JSON, two files parse, but one record only is
    handed on: the second namesake is skipped, and no warning is written
    for it. *)
Lemma namesake_setup_is_skipped :
  let '(sent, warnings, _) :=
    importGlobalSetups parseExample freshRefs noon namesakesAndBroken in
  filter (fun f => parsesToSetup parseExample f = true) namesakesAndBroken = namesakes /\
  filter (fun f => parsesToSetup parseExample f = false) namesakesAndBroken
  = [setupFile "" "broken.json" "{"] /\
  length (sentSetups sent) = 1%nat /\
  warnings = ["Failed to parse setup file broken.json:"].
Proof.
  vm_compute. repeat split.
Qed.

Lemma importGlobalSetups_isolates_failures_witness :
  let '(sent, warnings, _) := importGlobalSetups parseExample freshRefs noon tenSetupFiles in
  length (sentSetups sent) = 9%nat /\
  warnings = ["Failed to parse setup file s4.json:"].
Proof.
  assert (Hnd : NoDup (File.name <$> tenSetupFiles)).
  { apply (bool_decide_unpack _). vm_compute. exact I. }
  assert (Hfresh : forall f, f ∈ tenSetupFiles ->
                             File.name f ∉ importedSetupNamesRef freshRefs).
  { intros f _. apply not_elem_of_empty. }
  pose proof (importGlobalSetups_isolates_failures parseExample freshRefs noon
                tenSetupFiles Hnd Hfresh) as H.
  destruct (importGlobalSetups parseExample freshRefs noon tenSetupFiles)
    as [[sent warnings] after].
  destruct H as (_ & Hlen & Hwarn & _). split; [exact Hlen|exact Hwarn].
Defined.

(** ** The scan *)

Section Scan.

Implicit Types (m : DirectoryMap) (k : string) (f : File.t).

Lemma findTestDayFolder_short (parts : list string) :
  (length parts < 2)%nat -> findTestDayFolder parts = "".
Proof. destruct parts as [|a [|b parts]]; simpl; [reflexivity|reflexivity|lia]. Qed.

Lemma directoryMap_get_push_eq m k f :
  directoryMap_get (directoryMap_push m k f) k
  = Some (default [] (directoryMap_get m k) ++ [f]).
Proof.
  induction m as [|[k' fs] m IH]; simpl.
  - rewrite String.eqb_refl. reflexivity.
  - destruct (String.eqb k' k) eqn:E; simpl; rewrite E; [reflexivity|exact IH].
Qed.

Lemma directoryMap_get_push_ne m k k' f :
  k <> k' -> directoryMap_get (directoryMap_push m k f) k' = directoryMap_get m k'.
Proof.
  intros Hne. induction m as [|[k0 fs] m IH]; simpl.
  - apply String.eqb_neq in Hne. rewrite Hne. reflexivity.
  - destruct (String.eqb k0 k) eqn:E; simpl.
    + apply String.eqb_eq in E. subst k0.
      apply String.eqb_neq in Hne. rewrite Hne. reflexivity.
    + rewrite IH. reflexivity.
Qed.

Lemma directoryMap_get_None m k : directoryMap_get m k = None <-> k ∉ (fst <$> m).
Proof.
  induction m as [|[k' fs] m IH]; simpl.
  - split; [intros _; apply not_elem_of_nil|reflexivity].
  - rewrite not_elem_of_cons. destruct (String.eqb k' k) eqn:E.
    + apply String.eqb_eq in E. subst k'. split; [discriminate|].
      intros [Hne _]. exfalso. apply Hne. reflexivity.
    + apply String.eqb_neq in E. rewrite IH. split; [|tauto].
      intros H. split; [|exact H]. intros ->. apply E. reflexivity.
Qed.

Lemma directoryMap_push_keys m k f :
  (fst <$> directoryMap_push m k f) = (fst <$> m) \/
  ((k ∉ (fst <$> m)) /\ (fst <$> directoryMap_push m k f) = (fst <$> m) ++ [k]).
Proof.
  induction m as [|[k' fs] m IH]; simpl.
  - right. split; [apply not_elem_of_nil|reflexivity].
  - destruct (String.eqb k' k) eqn:E; simpl; [left; reflexivity|].
    apply String.eqb_neq in E. destruct IH as [IH|[Hk IH]].
    + left. f_equal. exact IH.
    + right. split; [|f_equal; exact IH]. rewrite not_elem_of_cons.
      split; [intros ->; apply E; reflexivity|exact Hk].
Qed.

Lemma directoryMap_push_NoDup m k f :
  NoDup (fst <$> m) -> NoDup (fst <$> directoryMap_push m k f).
Proof.
  intros Hnd. destruct (directoryMap_push_keys m k f) as [->|[Hk ->]]; [exact Hnd|].
  apply NoDup_app. split; [exact Hnd|]. split; [|apply NoDup_singleton].
  intros x Hx ->%list_elem_of_singleton. exact (Hk Hx).
Qed.

Lemma directoryMap_elem_of m k (fs : list File.t) :
  NoDup (fst <$> m) -> (k, fs) ∈ m <-> directoryMap_get m k = Some fs.
Proof.
  induction m as [|[k' fs'] m IH]; simpl; intros Hnd.
  - rewrite elem_of_nil. split; [tauto|discriminate].
  - apply NoDup_cons in Hnd as [Hk' Hnd]. rewrite elem_of_cons, (IH Hnd).
    destruct (String.eqb k' k) eqn:E.
    + apply String.eqb_eq in E. subst k'. split.
      * intros [[= ->]|Hget]; [reflexivity|].
        exfalso. apply Hk'. apply dec_stable. intros Hout.
        apply directoryMap_get_None in Hout. congruence.
      * intros [= ->]. left. reflexivity.
    + apply String.eqb_neq in E. split; [|tauto].
      intros [[= -> ->]|H]; [exfalso; apply E; reflexivity|exact H].
Qed.

Lemma classifyFile_map (acc : DirectoryMap * list File.t) f :
  (classifyFile acc f).1
  = if String.eqb (owner f) "" then acc.1 else directoryMap_push acc.1 (owner f) f.
Proof.
  destruct acc as [m setups]. unfold classifyFile, owner.
  destruct (2 <=? length (split (File.webkitRelativePath f) "/"))%nat eqn:Hlen; simpl.
  - destruct (String.eqb (findTestDayFolder _) ""); reflexivity.
  - apply Nat.leb_gt in Hlen. rewrite (findTestDayFolder_short _ Hlen). reflexivity.
Qed.

Lemma classify_NoDup (files : list File.t) : forall acc : DirectoryMap * list File.t,
  NoDup (fst <$> acc.1) -> NoDup (fst <$> (fold_left classifyFile files acc).1).
Proof.
  induction files as [|f files IH]; intros acc Hnd; simpl; [exact Hnd|].
  apply IH. rewrite classifyFile_map.
  destruct (String.eqb (owner f) ""); [exact Hnd|apply directoryMap_push_NoDup, Hnd].
Qed.

Lemma classify_get (files : list File.t) : forall (acc : DirectoryMap * list File.t) k,
  k <> "" ->
  directoryMap_get (fold_left classifyFile files acc).1 k
  = match filter (fun f => owner f = k) files with
    | [] => directoryMap_get acc.1 k
    | f :: fs => Some (default [] (directoryMap_get acc.1 k) ++ f :: fs)
    end.
Proof.
  induction files as [|f files IH]; intros acc k Hk; simpl; [reflexivity|].
  rewrite (IH _ k Hk), classifyFile_map, filter_cons.
  destruct (decide (owner f = k)) as [Hf|Hf].
  - subst k. apply String.eqb_neq in Hk. rewrite Hk, directoryMap_get_push_eq.
    destruct (filter _ files); simpl; [reflexivity|].
    rewrite <- app_assoc. reflexivity.
  - destruct (String.eqb (owner f) ""); [reflexivity|].
    rewrite (directoryMap_get_push_ne _ _ _ _ Hf). reflexivity.
Qed.

Lemma classify_get_empty (files : list File.t) : forall acc : DirectoryMap * list File.t,
  directoryMap_get (fold_left classifyFile files acc).1 "" = directoryMap_get acc.1 "".
Proof.
  induction files as [|f files IH]; intros acc; simpl; [reflexivity|].
  rewrite IH, classifyFile_map. destruct (String.eqb (owner f) "") eqn:E; [reflexivity|].
  apply String.eqb_neq in E. apply directoryMap_get_push_ne, E.
Qed.

(** The entries of the map after the first loop: one per owner, with the
    files of that owner in the order of the input. *)
Lemma classify_entries (files : list File.t) k (fs : list File.t) :
  (k, fs) ∈ (fold_left classifyFile files ([], [])).1 <->
  k <> "" /\ fs <> [] /\ fs = filter (fun f => owner f = k) files.
Proof.
  rewrite directoryMap_elem_of by (apply classify_NoDup; constructor).
  destruct (decide (k = "")) as [->|Hk].
  - rewrite classify_get_empty. simpl. split; [discriminate|]. intros [[] _]. reflexivity.
  - rewrite (classify_get _ _ _ Hk). simpl.
    destruct (filter (fun f => owner f = k) files) as [|f l].
    + split; [discriminate|]. intros (_ & Hne & ->). contradiction.
    + split.
      * intros [= <-]. split; [exact Hk|]. split; [discriminate|reflexivity].
      * intros (_ & _ & ->). reflexivity.
Qed.

Lemma testday_json_is_not_xrk f : isTestDayJson f = true -> isXrk f = false.
Proof.
  unfold isTestDayJson, isXrk. intros ->%String.eqb_eq. reflexivity.
Qed.

Lemma collect_files (fs : list File.t) : forall (xs : list XRKFile.t) (h : bool),
  fold_left collectFile fs (xs, h)
  = (xs ++ (toXRKFile <$> filter (fun f => isXrk f = true) fs),
     h || existsb isTestDayJson fs).
Proof.
  induction fs as [|f fs IH]; intros xs h; simpl.
  - rewrite app_nil_r, orb_false_r. reflexivity.
  - rewrite filter_cons. destruct (isXrk f) eqn:Hx; simpl.
    + destruct (decide (true = true)) as [_|[]]; [|reflexivity].
      rewrite IH, <- app_assoc.
      destruct (isTestDayJson f) eqn:Hj; [|reflexivity].
      apply testday_json_is_not_xrk in Hj. congruence.
    + destruct (decide (false = true)) as [[=]|_].
      destruct (isTestDayJson f); rewrite IH; [|reflexivity].
      rewrite !orb_true_r. reflexivity.
Qed.

Lemma processFolder_folderOf (folders : list TestDayFolder.t) (entry : string * list File.t) :
  processFolder folders entry
  = folders ++ match folderOf entry with Some td => [td] | None => [] end.
Proof.
  destruct entry as [k fs]. unfold processFolder, folderOf. simpl.
  unfold isTestDay. rewrite collect_files. simpl.
  destruct (matchTestDayFolder k) as [dv|].
  - rewrite bool_decide_eq_true_2 by (eexists; reflexivity).
    destruct (_ || _); [reflexivity|]. rewrite app_nil_r. reflexivity.
  - rewrite bool_decide_eq_false_2 by (intros [x Hx]; discriminate Hx).
    rewrite app_nil_r. reflexivity.
Qed.

Lemma process_folders m : forall folders : list TestDayFolder.t,
  fold_left processFolder m folders = folders ++ omap folderOf m.
Proof.
  induction m as [|entry m IH]; intros folders; simpl.
  - rewrite app_nil_r. reflexivity.
  - rewrite IH, processFolder_folderOf, <- app_assoc.
    destruct (folderOf entry); reflexivity.
Qed.

Lemma scan_folders (files : list File.t) :
  (scanForTestDayFolders files).1
  = omap folderOf (fold_left classifyFile files ([], [])).1.
Proof.
  unfold scanForTestDayFolders.
  destruct (fold_left classifyFile files ([], [])) as [m setups]. simpl.
  apply process_folders.
Qed.

Lemma folderOf_Some k (fs : list File.t) td :
  folderOf (k, fs) = Some td <->
  isTestDay k = true /\
  (exists f, f ∈ fs /\ (isXrk f = true \/ isTestDayJson f = true)) /\
  td = TestDayFolder.mk k k (toXRKFile <$> filter (fun f => isXrk f = true) fs).
Proof.
  unfold folderOf; simpl. destruct (isTestDay k); [|split; [discriminate|intros [[=] _]]].
  rewrite length_fmap.
  destruct (filter (fun f => isXrk f = true) fs) as [|x xs] eqn:Hxrk; simpl.
  - destruct (existsb isTestDayJson fs) eqn:Hj.
    + apply existsb_exists in Hj as (f & Hf & Hj). split.
      * intros [= <-]. split; [reflexivity|]. split; [|reflexivity].
        exists f. split; [apply list_elem_of_In, Hf|right; exact Hj].
      * intros (_ & _ & ->). reflexivity.
    + split; [discriminate|]. intros (_ & (f & Hf & [Hx|Hj']) & _); exfalso.
      * assert (Hin : f ∈ filter (fun f => isXrk f = true) fs)
          by (apply list_elem_of_filter; split; assumption).
        rewrite Hxrk in Hin. exact (not_elem_of_nil _ Hin).
      * assert (existsb isTestDayJson fs = true) as He; [|congruence].
        apply existsb_exists. exists f. split; [apply list_elem_of_In, Hf|exact Hj'].
  - split.
    + intros [= <-]. split; [reflexivity|]. split; [|reflexivity].
      assert (Hin : x ∈ filter (fun f => isXrk f = true) fs) by (rewrite Hxrk; left).
      apply list_elem_of_filter in Hin as [Hx Hin]. exists x. auto.
    + intros (_ & _ & ->). reflexivity.
Qed.

End Scan.

(** C5 as stated fails when "below" takes every segment above the file: a
    folder that matches the pattern and holds a telemetry file, but lies
    inside another folder that matches, is not emitted; its files go to
    the outer folder. *)
Lemma inner_test_day_is_not_emitted :
  let segment := "2025-4-12 - Mosport" in
  isTestDay segment = true /\
  (exists f, f ∈ nestedFiles /\ liesBelow segment f /\ isXrk f = true) /\
  ~ (exists td, td ∈ (scanForTestDayFolders nestedFiles).1 /\
                TestDayFolder.name td = segment).
Proof.
  split; [vm_compute; reflexivity|]. split.
  - eexists. split; [left|]. split; [|vm_compute; reflexivity].
    exists 2%nat. vm_compute. split; [reflexivity|lia].
  - intros (td & Hin & Hname).
    assert (Hscan : TestDayFolder.name <$> (scanForTestDayFolders nestedFiles).1
                    = ["2025-4-11 - Villa"]) by (vm_compute; reflexivity).
    apply (list_elem_of_fmap_2 TestDayFolder.name) in Hin.
    rewrite Hscan, Hname in Hin. apply list_elem_of_singleton in Hin. discriminate Hin.
Qed.

(** C5, amended. The scan emits a test-day folder for a segment exactly
    when the segment matches the date-venue pattern and, among the files
    whose first matching segment (but the file name) it is, one has the
    [.xrk] extension or is named [testday.json]; the telemetry files of an
    emitted folder are the [.xrk] files among those files, in the order of
    the input, so a folder that holds the marker and no [.xrk] file is
    emitted with no telemetry file. *)
Theorem scan_emits_folder_iff (files : list File.t) (segment : string) :
  ((exists td, td ∈ (scanForTestDayFolders files).1 /\ TestDayFolder.name td = segment)
   <->
   (isTestDay segment = true /\
    exists f, f ∈ files /\ owner f = segment /\
              (isXrk f = true \/ isTestDayJson f = true)))
  /\
  (forall td, td ∈ (scanForTestDayFolders files).1 ->
     TestDayFolder.xrkFiles td
     = toXRKFile <$> filter (fun f => isXrk f = true /\ owner f = TestDayFolder.name td) files).
Proof.
  rewrite scan_folders. split; [split|].
  - intros (td & ([k fs] & Hin & Hfolder)%list_elem_of_omap & Hname).
    apply classify_entries in Hin as (_ & _ & Hfs).
    apply folderOf_Some in Hfolder as (Hk & (f & Hf & Hkind) & ->).
    simpl in Hname. subst k. split; [exact Hk|].
    rewrite Hfs in Hf. apply list_elem_of_filter in Hf as [Hown Hf].
    exists f. auto.
  - intros (Hseg & f & Hf & Hown & Hkind).
    set (fs := filter (fun f => owner f = segment) files).
    assert (Hfs : f ∈ fs) by (apply list_elem_of_filter; auto).
    exists (TestDayFolder.mk segment segment
              (toXRKFile <$> filter (fun f => isXrk f = true) fs)).
    split; [|reflexivity]. apply list_elem_of_omap. exists (segment, fs). split.
    + apply classify_entries. split; [|split; [|reflexivity]].
      * intros ->. vm_compute in Hseg. discriminate Hseg.
      * intros Hnil. rewrite Hnil in Hfs. exact (not_elem_of_nil _ Hfs).
    + apply folderOf_Some. split; [exact Hseg|]. split; [|reflexivity]. exists f. auto.
  - intros td ([k fs] & Hin & Hfolder)%list_elem_of_omap.
    apply classify_entries in Hin as (_ & _ & Hfs).
    apply folderOf_Some in Hfolder as (_ & _ & ->). simpl.
    rewrite Hfs, list_filter_filter. reflexivity.
Qed.

Lemma scan_emits_folder_iff_witness :
  exists td, td ∈ (scanForTestDayFolders markerOnlyFiles).1 /\
             TestDayFolder.name td = "2025-4-12 - Mosport" /\
             TestDayFolder.xrkFiles td = [].
Proof.
  destruct (scan_emits_folder_iff markerOnlyFiles "2025-4-12 - Mosport") as [[_ Hemit] Hxrk].
  destruct Hemit as (td & Hin & Hname).
  - split; [vm_compute; reflexivity|].
    eexists. split; [left|]. split; [vm_compute; reflexivity|].
    right. vm_compute. reflexivity.
  - exists td. split; [exact Hin|]. split; [exact Hname|].
    rewrite (Hxrk td Hin), Hname. vm_compute. reflexivity.
Defined.

(** ** The test-day pattern *)

Section Greedy.

Variables (p : ascii -> bool) (k : list ascii -> list ascii -> option captures).

Lemma canTake_nil lo hi taken rest :
  canTake p lo hi [] taken rest -> taken = [] /\ rest = [] /\ lo = O.
Proof.
  intros (Hs & _ & Hlo & _). symmetry in Hs. apply app_eq_nil in Hs as [-> ->].
  simpl in Hlo. repeat split; lia.
Qed.

Lemma canTake_cons lo hi c s taken rest :
  canTake p lo hi (c :: s) taken rest ->
  (taken = [] /\ rest = c :: s /\ lo = O) \/
  (exists taken', taken = c :: taken' /\ p c = true /\ may_take hi = true /\
                  canTake p (Nat.pred lo) (Nat.pred <$> hi) s taken' rest).
Proof.
  intros (Hs & Hp & Hlo & Hhi). destruct taken as [|c' taken']; simpl in *.
  - left. repeat split; [congruence|lia].
  - right. injection Hs as <- ->. apply Forall_cons in Hp as [Hc Hp].
    exists taken'. split; [reflexivity|]. split; [exact Hc|]. split.
    + destruct hi as [[|h]|]; simpl; [lia|reflexivity|reflexivity].
    + split; [reflexivity|]. split; [exact Hp|]. split; [lia|].
      destruct hi as [h|]; simpl; [lia|exact I].
Qed.

Lemma canTake_step lo hi c s taken rest :
  p c = true -> may_take hi = true ->
  canTake p (Nat.pred lo) (Nat.pred <$> hi) s taken rest ->
  canTake p lo hi (c :: s) (c :: taken) rest.
Proof.
  intros Hc Hhi (-> & Hp & Hlo & Hh). split; [reflexivity|].
  split; [constructor; assumption|]. split; [simpl; lia|].
  destruct hi as [[|h]|]; simpl in *; [discriminate|lia|exact I].
Qed.

Lemma greedy_None lo hi pre s :
  greedy p lo hi pre s k = None ->
  forall taken rest, canTake p lo hi s taken rest -> k (rev taken ++ pre) rest = None.
Proof.
  revert lo hi pre. induction s as [|c s IH]; intros lo hi pre Hg taken rest Hcan.
  - apply canTake_nil in Hcan as (-> & -> & ->). exact Hg.
  - simpl in Hg. apply canTake_cons in Hcan as [(-> & -> & ->)|(t & -> & Hc & Hhi & Hcan)].
    + simpl in *. destruct (p c && may_take hi); [|exact Hg].
      destruct (greedy p 0 (Nat.pred <$> hi) (c :: pre) s k); [discriminate|exact Hg].
    + rewrite Hc, Hhi in Hg; simpl in Hg.
      destruct (greedy p (Nat.pred lo) (Nat.pred <$> hi) (c :: pre) s k) eqn:Hsub;
        [discriminate|].
      simpl. rewrite <- app_assoc. exact (IH _ _ _ Hsub t rest Hcan).
Qed.

Lemma greedy_Some lo hi pre s r :
  greedy p lo hi pre s k = Some r ->
  exists taken rest,
    canTake p lo hi s taken rest /\ k (rev taken ++ pre) rest = Some r /\
    forall taken' rest', canTake p lo hi s taken' rest' ->
                         (length taken < length taken')%nat ->
                         k (rev taken' ++ pre) rest' = None.
Proof.
  revert lo hi pre. induction s as [|c s IH]; intros lo hi pre Hg.
  - simpl in Hg. destruct lo; [|discriminate]. exists [], []. split; [|split].
    + split; [reflexivity|]. split; [constructor|]. split; [simpl; lia|].
      destruct hi; simpl; [lia|exact I].
    + exact Hg.
    + intros t' r' (-> & -> & _)%canTake_nil. simpl. lia.
  - simpl in Hg.
    assert (Hstop : match lo with O => k pre (c :: s) | S _ => None end = Some r ->
                    (p c && may_take hi = false \/
                     greedy p (Nat.pred lo) (Nat.pred <$> hi) (c :: pre) s k = None) ->
                    exists taken rest,
                      canTake p lo hi (c :: s) taken rest /\
                      k (rev taken ++ pre) rest = Some r /\
                      forall taken' rest', canTake p lo hi (c :: s) taken' rest' ->
                                           (length taken < length taken')%nat ->
                                           k (rev taken' ++ pre) rest' = None).
    { intros Hk Hno. destruct lo; [|discriminate]. exists [], (c :: s).
      split; [|split; [exact Hk|]].
      - split; [reflexivity|]. split; [constructor|]. split; [simpl; lia|].
        destruct hi; simpl; [lia|exact I].
      - intros t' r' [(-> & _)|(t & -> & Hc & Hhi & Hcan)]%canTake_cons Hlen;
          [simpl in Hlen; lia|].
        destruct Hno as [Hno|Hno]; [rewrite Hc, Hhi in Hno; discriminate|].
        simpl. rewrite <- app_assoc. exact (greedy_None _ _ _ _ Hno t r' Hcan). }
    destruct (p c && may_take hi) eqn:Htake; [|apply Hstop; auto].
    destruct (greedy p (Nat.pred lo) (Nat.pred <$> hi) (c :: pre) s k) as [r'|] eqn:Hsub;
      [|apply Hstop; auto].
    injection Hg as ->. apply andb_true_iff in Htake as [Hc Hhi].
    destruct (IH _ _ _ Hsub) as (t & rest & Hcan & Hk & Hmax).
    exists (c :: t), rest. split; [apply canTake_step; assumption|]. split.
    + simpl. rewrite <- app_assoc. exact Hk.
    + intros t' r' [(-> & _)|(t0 & -> & _ & _ & Hcan')]%canTake_cons Hlen;
        [simpl in Hlen; lia|].
      simpl. rewrite <- app_assoc. apply Hmax; [exact Hcan'|simpl in Hlen; lia].
Qed.

Lemma greedy_intro lo hi pre s taken rest r :
  canTake p lo hi s taken rest ->
  k (rev taken ++ pre) rest = Some r ->
  (forall taken' rest', canTake p lo hi s taken' rest' ->
                        (length taken < length taken')%nat ->
                        k (rev taken' ++ pre) rest' = None) ->
  greedy p lo hi pre s k = Some r.
Proof.
  intros Hcan Hk Hmax. destruct (greedy p lo hi pre s k) as [r'|] eqn:Hg.
  - destruct (greedy_Some _ _ _ _ _ Hg) as (t' & rest' & Hcan' & Hk' & Hmax').
    destruct (Nat.lt_trichotomy (length taken) (length t')) as [Hlt|[Heq|Hgt]].
    + rewrite (Hmax _ _ Hcan' Hlt) in Hk'. discriminate.
    + destruct Hcan as (Hs & _), Hcan' as (Hs' & _). rewrite Hs in Hs'.
      apply app_inj_1 in Hs' as [-> ->]; [|exact Heq]. congruence.
    + rewrite (Hmax' _ _ Hcan Hgt) in Hk. discriminate.
  - rewrite (greedy_None _ _ _ _ Hg _ _ Hcan) in Hk. discriminate.
Qed.

End Greedy.

Section TestDayPattern.

Lemma space_is_not_digit c : is_space c = true -> is_digit c = false.
Proof. destruct c as [[] [] [] [] [] [] [] []]; vm_compute; congruence. Qed.

Lemma sep_is_not_digit c : is_sep c = true -> is_digit c = false.
Proof. destruct c as [[] [] [] [] [] [] [] []]; vm_compute; congruence. Qed.

Lemma sep_is_not_space c : is_sep c = true -> is_space c = false.
Proof. destruct c as [[] [] [] [] [] [] [] []]; vm_compute; congruence. Qed.

Lemma is_char_eq a c : is_char a c = true <-> c = a.
Proof. unfold is_char. rewrite Ascii.eqb_eq. split; congruence. Qed.

(** A run of [p] that is followed by the end of the input or by a code
    unit outside [p] is the longest the quantifier can take. *)
Lemma canTake_longest p lo hi (taken rest taken' rest' : list ascii) :
  match rest with c :: _ => p c = false | [] => True end ->
  canTake p lo hi (taken ++ rest) taken' rest' ->
  (length taken' <= length taken)%nat.
Proof.
  intros Hstop (Hs & Hp & _). symmetry in Hs.
  apply app_eq_app in Hs as [l [[-> Hl]|[-> _]]]; [|rewrite length_app; lia].
  destruct l as [|c l]; [rewrite app_nil_r; lia|].
  destruct rest as [|c' rest]; [discriminate|]. injection Hl as -> _.
  apply Forall_app in Hp as [_ Hp]. apply Forall_cons in Hp as [Hc _]. congruence.
Qed.

Lemma canTake_all p lo hi (taken rest : list ascii) :
  Forall (fun c => p c = true) taken -> (lo <= length taken)%nat ->
  match hi with Some h => (length taken <= h)%nat | None => True end ->
  canTake p lo hi (taken ++ rest) taken rest.
Proof. intros. split; [reflexivity|]. auto. Qed.

(** The text a group captures: what was consumed since the group began. *)
Lemma capture_taken (taken pre : list ascii) :
  rev (take (length (rev taken ++ pre) - length pre) (rev taken ++ pre)) = taken.
Proof.
  rewrite length_app, Nat.add_sub, take_app_length. apply rev_involutive.
Qed.

Lemma rmatch_date_inv pre s caps (k : cont) res :
  rmatch datePattern pre s caps k = Some res ->
  exists d rest, s = d ++ rest /\ isDateText d /\ k (rev d ++ pre) rest caps = Some res.
Proof.
  unfold datePattern. cbn [rmatch]. intros H.
  apply greedy_Some in H as (y & r1 & (-> & Hy & Hy4 & Hy4') & H & _).
  destruct r1 as [|c1 r1]; [discriminate|].
  destruct (is_char "-" c1) eqn:Hc1; [|discriminate]. apply is_char_eq in Hc1 as ->.
  apply greedy_Some in H as (m & r2 & (-> & Hm & Hm1 & Hm2) & H & _).
  destruct r2 as [|c2 r2]; [discriminate|].
  destruct (is_char "-" c2) eqn:Hc2; [|discriminate]. apply is_char_eq in Hc2 as ->.
  apply greedy_Some in H as (d & r3 & (-> & Hd & Hd1 & Hd2) & H & _).
  exists (y ++ "-"%char :: m ++ "-"%char :: d), r3. split; [|split].
  - rewrite <- app_assoc. simpl. rewrite <- app_assoc. reflexivity.
  - exists y, m, d. repeat split; try assumption; lia.
  - rewrite <- H. f_equal.
    norm_rev. reflexivity.
Qed.

Lemma rmatch_date_intro pre d rest caps (k : cont) res :
  isDateText d ->
  match rest with c :: _ => is_digit c = false | [] => True end ->
  k (rev d ++ pre) rest caps = Some res ->
  rmatch datePattern pre (d ++ rest) caps k = Some res.
Proof.
  intros (y & m & dd & -> & Hy4 & Hy & Hm12 & Hm & Hd12 & Hd) Hrest Hk.
  unfold datePattern. cbn [rmatch].
  rewrite <- app_assoc. simpl. rewrite <- app_assoc. simpl.
  eapply greedy_intro.
  - apply canTake_all; [exact Hy|lia|lia].
  - simpl. eapply greedy_intro.
    + apply canTake_all; [exact Hm|lia|lia].
    + simpl. eapply greedy_intro.
      * apply canTake_all; [exact Hd|lia|lia].
      * rewrite <- Hk. f_equal.
        norm_rev. reflexivity.
      * intros t' r' Hcan Hlen.
        apply canTake_longest in Hcan; [lia|exact Hrest].
    + intros t' r' Hcan Hlen.
      apply canTake_longest in Hcan; [lia|reflexivity].
  - intros t' r' (_ & _ & _ & Hhi) Hlen. lia.
Qed.

Lemma rmatch_venue_inv pre s caps (k : cont) res :
  (forall pre' s' caps', k pre' s' caps' <> None) ->
  rmatch separatorVenuePattern pre s caps k = Some res ->
  exists ws1 sep ws2 v pre',
    s = ws1 ++ sep :: ws2 ++ v /\
    Forall (fun c => is_space c = true) ws1 /\ is_sep sep = true /\
    Forall (fun c => is_space c = true) ws2 /\ isVenueText v /\
    k pre' [] (<[2%nat := v]> caps) = Some res.
Proof.
  intros Hk. unfold separatorVenuePattern. cbn [rmatch]. intros H.
  apply greedy_Some in H as (ws1 & r1 & (-> & Hws1 & _) & H & _).
  destruct r1 as [|sep r1]; [discriminate|].
  destruct (is_sep sep) eqn:Hsep; [|discriminate].
  apply greedy_Some in H as (ws2 & r2 & (-> & Hws2 & _) & H & Hmax).
  apply greedy_Some in H as (v & r3 & (-> & Hv & Hv1 & _) & H & _).
  destruct r3 as [|c3 r3]; [|discriminate].
  rewrite capture_taken in H. rewrite app_nil_r in *.
  exists ws1, sep, ws2, v. eexists. repeat split; try eassumption.
  destruct v as [|c rest]; [simpl in Hv1; lia|].
  exists c, rest. split; [reflexivity|].
  destruct (is_space c) eqn:Hc; [|left; reflexivity]. right.
  destruct rest as [|c' rest]; [reflexivity|]. exfalso.
  apply Forall_cons in Hv as [_ Hrest].
  specialize (Hmax (ws2 ++ [c]) (c' :: rest)).
  match type of Hmax with _ -> _ -> ?call = None =>
    assert (Hsome : call <> None); [|apply Hsome, Hmax]
  end.
  - intros Hnone. eapply greedy_None with (taken := c' :: rest) (rest := []) in Hnone.
    + simpl in Hnone. exact (Hk _ _ _ Hnone).
    + split; [rewrite app_nil_r; reflexivity|]. split; [exact Hrest|].
      split; [simpl; lia|exact I].
  - split; [rewrite <- app_assoc; reflexivity|]. split; [|split; [lia|exact I]].
    apply Forall_app. split; [exact Hws2|]. constructor; [exact Hc|constructor].
  - rewrite length_app. simpl. lia.
Qed.

Lemma rmatch_venue_intro pre ws1 sep ws2 v caps (k : cont) res :
  Forall (fun c => is_space c = true) ws1 -> is_sep sep = true ->
  Forall (fun c => is_space c = true) ws2 -> isVenueText v ->
  k (rev v ++ rev ws2 ++ sep :: rev ws1 ++ pre) [] (<[2%nat := v]> caps) = Some res ->
  rmatch separatorVenuePattern pre (ws1 ++ sep :: ws2 ++ v) caps k = Some res.
Proof.
  intros Hws1 Hsep Hws2 (Hv & c & rest & -> & Hc) Hk.
  unfold separatorVenuePattern. cbn [rmatch].
  eapply greedy_intro.
  - apply canTake_all; [exact Hws1|lia|exact I].
  - simpl. rewrite Hsep. eapply greedy_intro.
    + apply canTake_all; [exact Hws2|lia|exact I].
    + eapply greedy_intro.
      * rewrite <- (app_nil_r (c :: rest)) at 1.
        apply canTake_all; [exact Hv|simpl; lia|exact I].
      * cbv beta iota. rewrite capture_taken. rewrite <- Hk. f_equal; norm_rev; reflexivity.
      * intros t' r' Hcan Hlen. rewrite <- (app_nil_r (c :: rest)) in Hcan.
        apply canTake_longest in Hcan; [lia|exact I].
    + intros t' r' Hcan Hlen.
      destruct Hc as [Hc| ->].
      * apply canTake_longest in Hcan; [lia|exact Hc].
      * destruct Hcan as (Hs & Hp & _). symmetry in Hs.
        apply app_eq_app in Hs as [l [[-> Hl]|[-> _]]]; [|rewrite length_app in Hlen; lia].
        destruct l as [|x l]; [rewrite app_nil_r in Hlen; lia|].
        injection Hl as <- Hl. symmetry in Hl. apply app_eq_nil in Hl as [-> ->].
        reflexivity.
  - intros t' r' Hcan Hlen.
    apply canTake_longest in Hcan; [lia|apply sep_is_not_space, Hsep].
Qed.

Lemma exec_from_anchored r (s pre : list ascii) c :
  exec_from (RBegin ⋅ r)%re (c :: pre) s = None.
Proof.
  revert c pre. induction s as [|c' s IH]; intros c pre; simpl; [reflexivity|apply IH].
Qed.

Lemma exec_anchored r (s : list ascii) :
  exec_from (RBegin ⋅ r)%re [] s
  = match rmatch (RGroup 0 (RBegin ⋅ r)%re) [] s ∅ (fun _ _ caps => Some caps) with
    | Some caps => Some (O, caps)
    | None => None
    end.
Proof.
  destruct s as [|c s]; simpl.
  - destruct (rmatch r [] [] ∅ _); reflexivity.
  - destruct (rmatch r [] (c :: s) ∅ _); [reflexivity|apply exec_from_anchored].
Qed.

End TestDayPattern.

Lemma chars_of_chars (l : list ascii) : chars (of_chars l) = l.
Proof. apply list_ascii_of_string_of_list_ascii. Qed.

Lemma of_chars_chars (s : string) : of_chars (chars s) = s.
Proof. apply string_of_list_ascii_of_string. Qed.

Lemma group_date_venue (whole d v : list ascii) :
  let caps : captures := <[0%nat := whole]> (<[2%nat := v]> (<[1%nat := d]> ∅)) in
  group caps 1 = of_chars d /\ group caps 2 = of_chars v.
Proof.
  unfold group. split.
  - rewrite lookup_insert_ne by discriminate. rewrite lookup_insert_ne by discriminate.
    rewrite lookup_insert_eq. reflexivity.
  - rewrite lookup_insert_ne by discriminate. rewrite lookup_insert_eq. reflexivity.
Qed.

(** C6 as stated fails on the white space around the name and on the
    venue: the pattern is anchored at the first code unit, so a name with
    leading white space is not matched, and the venue is the rest of the
    name as it stands, trailing white space and further separators
    included. *)
Lemma leading_space_is_not_matched :
  specTestDayPattern " 2025-4-11 - Villa" "2025-4-11" "Villa" /\
  matchTestDayFolder " 2025-4-11 - Villa" = None /\
  specTestDayPattern "2025-4-11 - Villa " "2025-4-11" "Villa" /\
  matchTestDayFolder "2025-4-11 - Villa " = Some ("2025-4-11", "Villa ") /\
  specTestDayPattern "2025-4-11--Villa" "2025-4-11" "Villa" /\
  matchTestDayFolder "2025-4-11--Villa" = Some ("2025-4-11", "-Villa").
Proof.
  assert (Hdate : isDateText (chars "2025-4-11")).
  { exists (chars "2025"), (chars "4"), (chars "11"). simpl.
    repeat split; try lia; repeat constructor. }
  assert (Hends : (forall c rest, chars "Villa" = c :: rest -> is_space c = false) /\
                  (forall c rest, rev (chars "Villa") = c :: rest -> is_space c = false)).
  { split; intros c rest [= <- _]; reflexivity. }
  split; [|split; [reflexivity|]]; [|split; [|split; [reflexivity|]]];
    [| |split; [|reflexivity]].
  - exists (chars " "), (chars " "), (chars "-"), (chars " "), [].
    split; [reflexivity|]. split; [repeat constructor|]. split; [exact Hdate|].
    split; [discriminate|]. split; [repeat constructor|]. split; [discriminate|exact Hends].
  - exists [], (chars " "), (chars "-"), (chars " "), (chars " ").
    split; [reflexivity|]. split; [repeat constructor|]. split; [exact Hdate|].
    split; [discriminate|]. split; [repeat constructor|]. split; [discriminate|exact Hends].
  - exists [], [], (chars "--"), [], [].
    split; [reflexivity|]. split; [repeat constructor|]. split; [exact Hdate|].
    split; [discriminate|]. split; [repeat constructor|]. split; [discriminate|exact Hends].
Qed.

Lemma matchTestDayFolder_Some (s date venue : string) :
  matchTestDayFolder s = Some (date, venue) <-> isTestDayName s date venue.
Proof.
  unfold matchTestDayFolder, exec, testDayPattern, isTestDayName.
  rewrite exec_anchored. split.
  - destruct (rmatch _ _ _ _ _) as [caps|] eqn:H; [|discriminate].
    intros [= <- <-]. cbn [rmatch] in H.
    apply rmatch_date_inv in H as (d & rest & Hs & Hd & H). cbv beta in H.
    rewrite capture_taken in H.
    apply rmatch_venue_inv in H as (ws1 & sep & ws2 & v & pre' & -> & H1 & Hsep & H2 & Hv & H);
      [|discriminate].
    injection H as <-. exists ws1, sep, ws2.
    destruct (group_date_venue (rev (take (length pre' - 0) pre')) d v) as [-> ->].
    rewrite !chars_of_chars. tauto.
  - intros (ws1 & sep & ws2 & -> & Hd & H1 & Hsep & H2 & Hv).
    assert (Hm : exists whole,
               rmatch (RGroup 0 (RBegin ⋅ RGroup 1 datePattern ⋅ separatorVenuePattern)%re)
                      [] (chars date ++ ws1 ++ sep :: ws2 ++ chars venue) ∅
                      (fun _ _ caps => Some caps)
               = Some (<[0%nat := whole]>
                         (<[2%nat := chars venue]> (<[1%nat := chars date]> ∅)))).
    { eexists. cbn [rmatch]. eapply rmatch_date_intro; [exact Hd| |].
      - destruct ws1 as [|c ws1]; simpl; [apply sep_is_not_digit, Hsep|].
        apply Forall_cons in H1 as [Hc _]. apply space_is_not_digit, Hc.
      - cbv beta. rewrite capture_taken.
        eapply rmatch_venue_intro; [exact H1|exact Hsep|exact H2|exact Hv|reflexivity]. }
    destruct Hm as [whole ->].
    destruct (group_date_venue whole (chars date) (chars venue)) as [-> ->].
    rewrite !of_chars_chars. reflexivity.
Qed.

(** C6, amended. The matcher returns a date and a venue for a segment
    exactly when the segment is, from its first code unit on: the date
    (four digits, [-], one or two digits, [-], one or two digits), any
    white space, one separator [-] or [_], any white space, and the venue,
    which runs to the end of the segment, is not empty, holds no line
    terminator and starts with white space only when it is a single code
    unit; the date and the venue returned are these two parts as they
    stand.  For every other segment it returns none. *)
Theorem matchTestDayFolder_spec (s : string) :
  (forall date venue,
     matchTestDayFolder s = Some (date, venue) <-> isTestDayName s date venue) /\
  (matchTestDayFolder s = None <-> forall date venue, ~ isTestDayName s date venue).
Proof.
  split; [intros date venue; apply matchTestDayFolder_Some|].
  split.
  - intros Hnone date venue Hname. apply matchTestDayFolder_Some in Hname. congruence.
  - intros Hno. destruct (matchTestDayFolder s) as [[date venue]|] eqn:Hm; [|reflexivity].
    apply matchTestDayFolder_Some in Hm. destruct (Hno _ _ Hm).
Qed.

Lemma matchTestDayFolder_spec_witness :
  isTestDayName "2025-4-11 - Villa" "2025-4-11" "Villa" /\
  (forall date venue, ~ isTestDayName "2025-4-11Villa" date venue) /\
  (forall date venue, ~ isTestDayName "Villa" date venue) /\
  matchTestDayFolder "2025-12-25 - Test Track" = Some ("2025-12-25", "Test Track").
Proof.
  split; [|split; [|split; [|reflexivity]]].
  - exact (proj1 (proj1 (matchTestDayFolder_spec "2025-4-11 - Villa") _ _) eq_refl).
  - exact (proj1 (proj2 (matchTestDayFolder_spec "2025-4-11Villa")) eq_refl).
  - exact (proj1 (proj2 (matchTestDayFolder_spec "Villa")) eq_refl).
Defined.

(** * Further properties of the code *)

(** ** The merge and the run list *)

Section MergeKeys.

Implicit Types (prev : list JSObject) (imported : option (list JSObject)).

Lemma mergeCollection_ids prev imported (k : JSValue) :
  k ∈ (recordId <$> mergeCollection prev imported) <->
  k ∈ (recordId <$> prev) \/ k ∈ (recordId <$> batchOf imported).
Proof.
  rewrite mergeCollection_filter, fmap_app, elem_of_app. split.
  - intros [Hk|Hk]; [left; exact Hk|right].
    apply list_elem_of_fmap in Hk as (d & -> & [_ Hd]%list_elem_of_filter).
    apply list_elem_of_fmap_2, Hd.
  - intros [Hk|Hk]; [left; exact Hk|].
    destruct (decide (k ∈ (recordId <$> prev))) as [Hin|Hout]; [left; exact Hin|right].
    apply list_elem_of_fmap in Hk as (d & -> & Hd).
    apply list_elem_of_fmap_2, list_elem_of_filter. split; assumption.
Qed.

End MergeKeys.

(** X1. After a merge the ids of each collection are exactly the ids the
    collection had together with the ids of the batch: no batch record is
    lost without a record of its id being present, and no other id
    appears. *)
Theorem handleDataImported_ids (data : Dataset.t) (importedData : ImportedData.t)
        (k : JSValue) :
  let result := handleDataImported data importedData in
  (k ∈ (recordId <$> Dataset.days result) <->
   k ∈ (recordId <$> Dataset.days data) \/
   k ∈ (recordId <$> batchOf (ImportedData.testDays importedData))) /\
  (k ∈ (recordId <$> Dataset.runs result) <->
   k ∈ (recordId <$> Dataset.runs data) \/
   k ∈ (recordId <$> batchOf (ImportedData.runs importedData))) /\
  (k ∈ (recordId <$> Dataset.setups result) <->
   k ∈ (recordId <$> Dataset.setups data) \/
   k ∈ (recordId <$> batchOf (ImportedData.setups importedData))) /\
  (k ∈ (recordId <$> Dataset.tires result) <->
   k ∈ (recordId <$> Dataset.tires data) \/
   k ∈ (recordId <$> batchOf (ImportedData.tireSets importedData))).
Proof.
  simpl. split; [|split; [|split]]; apply mergeCollection_ids.
Qed.

Section RunList.

Implicit Types (prev : list JSObject) (r : JSObject).

Lemma upsertRun_known prev r i x :
  list_find (fun x => recordId x = recordId r) prev = Some (i, x) ->
  upsertRun prev r = <[i := r]> prev /\ prev !! i = Some x /\ recordId x = recordId r.
Proof.
  intros Hfind. unfold upsertRun. rewrite Hfind.
  apply list_find_Some in Hfind as (Hi & Hx & _). auto.
Qed.

Lemma upsertRun_new prev r :
  recordId r ∉ (recordId <$> prev) -> upsertRun prev r = prev ++ [r].
Proof.
  intros Hnew. unfold upsertRun.
  destruct (list_find _ prev) as [[i x]|] eqn:Hfind; [|reflexivity].
  apply list_find_Some in Hfind as (Hi & Hx & _).
  exfalso. apply Hnew. rewrite <- Hx. apply list_elem_of_fmap_2.
  apply list_elem_of_lookup_2 with i, Hi.
Qed.

Lemma upsertRun_cases prev r :
  ((recordId r ∉ (recordId <$> prev)) /\ upsertRun prev r = prev ++ [r]) \/
  (exists i x, prev !! i = Some x /\ recordId x = recordId r /\
               (forall j y, prev !! j = Some y -> (j < i)%nat -> recordId y <> recordId r) /\
               upsertRun prev r = <[i := r]> prev).
Proof.
  unfold upsertRun.
  destruct (list_find _ prev) as [[i x]|] eqn:Hfind.
  - right. apply list_find_Some in Hfind as (Hi & Hx & Hbefore). exists i, x. auto.
  - left. split; [|reflexivity]. apply list_find_None in Hfind.
    intros (y & Hy & Hin)%list_elem_of_fmap.
    rewrite Forall_forall in Hfind. apply (Hfind y Hin). congruence.
Qed.

End RunList.

Lemma upsertRun_id_list (prev : list JSObject) (r : JSObject) :
  (recordId <$> upsertRun prev r)
  = if decide (recordId r ∈ (recordId <$> prev))
    then recordId <$> prev
    else (recordId <$> prev) ++ [recordId r].
Proof.
  destruct (upsertRun_cases prev r) as [[Hnew ->]|(i & x & Hi & Hx & _ & ->)].
  - rewrite decide_False by exact Hnew. rewrite fmap_app. reflexivity.
  - rewrite decide_True.
    + rewrite list_fmap_insert. apply list_insert_id.
      rewrite list_lookup_fmap, Hi. simpl. congruence.
    + rewrite <- Hx. apply list_elem_of_fmap_2. apply list_elem_of_lookup_2 with i, Hi.
Qed.

(** X2. upsertRun keeps the sequence of the ids: when a record has the id
    of the run the ids are as before, otherwise the new id is added at the
    end; the run itself is in the list afterwards. *)
Theorem upsertRun_ids (prev : list JSObject) (r : JSObject) :
  r ∈ upsertRun prev r /\
  (recordId <$> upsertRun prev r)
  = if decide (recordId r ∈ (recordId <$> prev))
    then recordId <$> prev
    else (recordId <$> prev) ++ [recordId r].
Proof.
  split; [|apply upsertRun_id_list].
  destruct (upsertRun_cases prev r) as [[Hnew ->]|(i & x & Hi & Hx & _ & ->)].
  - apply elem_of_app; right; left.
  - apply list_elem_of_insert; eapply lookup_lt_Some, Hi.
Qed.

(** X3. When the runs have pairwise distinct ids, upsertRun leaves exactly
    the run itself and the runs of the other ids, and the ids stay
    pairwise distinct: the list never holds two runs of one id after an
    edit. *)
Theorem upsertRun_unique (prev : list JSObject) (r : JSObject) :
  NoDup (recordId <$> prev) ->
  NoDup (recordId <$> upsertRun prev r) /\
  forall x, x ∈ upsertRun prev r <-> x = r \/ (x ∈ prev /\ recordId x <> recordId r).
Proof.
  intros Hnd. split.
  - rewrite upsertRun_id_list. case_decide; [exact Hnd|].
    apply NoDup_app. split; [exact Hnd|]. split; [|apply NoDup_singleton].
    intros k Hk ->%list_elem_of_singleton. contradiction.
  - intros x.
    destruct (upsertRun_cases prev r) as [[Hnew ->]|(i & y & Hi & Hy & _ & ->)].
    + rewrite elem_of_app, list_elem_of_singleton. split.
      * intros [Hx| ->]; [right|left; reflexivity]. split; [exact Hx|].
        intros Heq. apply Hnew. rewrite <- Heq. apply list_elem_of_fmap_2, Hx.
      * intros [->|[Hx _]]; auto.
    + rewrite list_elem_of_lookup. split.
      * intros [j Hj]. apply list_lookup_insert_Some in Hj as [(_ & <- & _)|[Hne Hj]];
          [left; reflexivity|right].
        split; [apply list_elem_of_lookup_2 with j, Hj|].
        intros Heq. apply Hne.
        apply (NoDup_lookup (recordId <$> prev) i j (recordId r) Hnd);
          rewrite list_lookup_fmap; [rewrite Hi|rewrite Hj]; simpl; congruence.
      * intros [->|[[j Hj]%list_elem_of_lookup Hne]].
        -- exists i. apply list_lookup_insert_eq. eapply lookup_lt_Some, Hi.
        -- exists j. rewrite list_lookup_insert_ne; [exact Hj|].
           intros <-. rewrite Hi in Hj. injection Hj as <-. contradiction.
Qed.

Lemma upsertRun_unique_witness :
  NoDup (recordId <$> upsertRun [setupA; setupC] setupB) /\
  forall x, x ∈ upsertRun [setupA; setupC] setupB <->
            x = setupB \/ (x ∈ [setupA; setupC] /\ recordId x <> recordId setupB).
Proof.
  apply (upsertRun_unique [setupA; setupC] setupB).
  repeat constructor; [intros [=]%list_elem_of_singleton|apply not_elem_of_nil].
Defined.

(** X4. Deleting the id of a run after upserting the run gives what
    deleting it from the list before gives, and no record of a deleted id
    remains. *)
Theorem deleteRun_upsertRun (prev : list JSObject) (r : JSObject) :
  deleteRun (upsertRun prev r) (recordId r) = deleteRun prev (recordId r) /\
  forall id, id ∉ (recordId <$> deleteRun prev id).
Proof.
  split.
  - unfold deleteRun.
    destruct (upsertRun_cases prev r) as [[Hnew ->]|(i & y & Hi & Hy & _ & ->)].
    + rewrite filter_app, filter_cons_False, filter_nil, app_nil_r; [reflexivity|].
      intros H. apply H. reflexivity.
    + rewrite insert_take_drop by (eapply lookup_lt_Some, Hi).
      rewrite <- (take_drop_middle prev i y Hi) at 3.
      rewrite !filter_app, !filter_cons_False; [reflexivity| |];
        intros H; apply H; [exact Hy|reflexivity].
  - intros id (x & -> & [Hne _]%list_elem_of_filter)%list_elem_of_fmap.
    apply Hne. reflexivity.
Qed.

(** X5. An import after an edit gives what the edit after the import
    gives: for a run whose id is in the list, merging a batch into the
    edited list is upserting the edit into the merged list, so an import
    never undoes an edit. *)
Theorem merge_after_upsertRun (prev : list JSObject) (r : JSObject)
        (imported : option (list JSObject)) :
  recordId r ∈ (recordId <$> prev) ->
  mergeCollection (upsertRun prev r) imported
  = upsertRun (mergeCollection prev imported) r.
Proof.
  intros Hin. rewrite !mergeCollection_filter.
  pose proof (upsertRun_id_list prev r) as Hids. rewrite decide_True in Hids by exact Hin.
  rewrite Hids.
  destruct (upsertRun_cases prev r) as [[Hnew _]|(i & y & Hi & Hy & Hfirst & Hup)];
    [contradiction|].
  rewrite Hup. unfold upsertRun at 1.
  assert (Hfind : list_find (fun x => recordId x = recordId r) prev = Some (i, y)).
  { apply list_find_Some. split; [exact Hi|]. split; [exact Hy|exact Hfirst]. }
  rewrite (list_find_app_l _ _ _ _ _ Hfind).
  symmetry. apply insert_app_l. eapply lookup_lt_Some, Hi.
Qed.

Lemma merge_after_upsertRun_witness :
  mergeCollection (upsertRun [setupA; setupC] setupB) (Some [setupA])
  = upsertRun (mergeCollection [setupA; setupC] (Some [setupA])) setupB.
Proof.
  apply (merge_after_upsertRun [setupA; setupC] setupB (Some [setupA])). left.
Defined.

(** ** The importer of a test day, further *)

Section MarkImported.

Lemma markImported_fold (xs : list XRKFile.t) (n : nat) : forall (i : nat) (paths : gset string),
  fold_left
    (fun acc idx =>
       match xs !! idx with
       | Some f => {[ XRKFile.path f ]} ∪ acc
       | None => acc
       end)
    (seq i n) paths
  = paths ∪ list_to_set (XRKFile.path <$> take n (drop i xs)).
Proof.
  induction n as [|n IH]; intros i paths; simpl.
  - rewrite union_empty_r_L. reflexivity.
  - rewrite IH. destruct (xs !! i) as [f|] eqn:Hi.
    + rewrite (drop_S _ _ _ Hi). simpl.
      rewrite (comm_L (∪) {[ XRKFile.path f ]} paths), (assoc_L (∪)). reflexivity.
    + apply lookup_ge_None in Hi.
      rewrite (drop_ge xs i), (drop_ge xs (S i)) by lia. rewrite !take_nil. reflexivity.
Qed.

Lemma notYetImported_none (refs : ImporterRefs) (testDay : TestDayFolder.t) :
  (forall f, f ∈ TestDayFolder.xrkFiles testDay ->
             XRKFile.path f ∈ importedRunPathsRef refs) ->
  notYetImported refs testDay = [].
Proof.
  intros Hold. unfold notYetImported.
  induction (TestDayFolder.xrkFiles testDay) as [|f fs IH]; [reflexivity|].
  rewrite filter_cons_False by (intros H; apply H, Hold; left).
  apply IH. intros g Hg. apply Hold. right. exact Hg.
Qed.

Lemma import_nothing (refs : ImporterRefs) (clock : nat -> string)
      (testDay : TestDayFolder.t) :
  notYetImported refs testDay = [] ->
  importTestDayData refs clock testDay
  = ({| ImportedData.testDays :=
          Some [ [ ("id", JStr ("local-" +:+ TestDayFolder.name testDay));
                   ("date", namePart (TestDayFolder.name testDay) 0);
                   ("track", JsObject.or (namePart (TestDayFolder.name testDay) 1)
                                         (JStr "Unknown"));
                   ("runs", JNum 0) ] ];
        ImportedData.runs := Some [];
        ImportedData.setups := Some [];
        ImportedData.tireSets := Some [] |}, refs).
Proof.
  intros Hnone. unfold importTestDayData, markImported. rewrite Hnone. simpl.
  destruct refs; reflexivity.
Qed.

End MarkImported.

Lemma refs_after_import
      (refs : ImporterRefs) (clock : nat -> string) (testDay : TestDayFolder.t) :
  importedRunPathsRef (importTestDayData refs clock testDay).2
  = importedRunPathsRef refs ∪
    list_to_set (XRKFile.path <$> take (length (notYetImported refs testDay))
                                       (TestDayFolder.xrkFiles testDay)) /\
  importedSetupNamesRef (importTestDayData refs clock testDay).2
  = importedSetupNamesRef refs.
Proof.
  simpl. split; [|reflexivity]. unfold markImported.
  rewrite markImported_fold, length_imap, drop_0. reflexivity.
Qed.

(** X6. The paths an import marks as imported are the paths of the first
    [n] telemetry files of the folder, [n] being the number of runs the
    import made, whichever files these runs were made of; the paths marked
    before stay, and the setup names are not touched. *)
Theorem import_marks_leading_files
        (refs : ImporterRefs) (clock : nat -> string) (testDay : TestDayFolder.t) :
  let after := (importTestDayData refs clock testDay).2 in
  importedRunPathsRef after
  = importedRunPathsRef refs ∪
    list_to_set (XRKFile.path <$> take (length (notYetImported refs testDay))
                                       (TestDayFolder.xrkFiles testDay)) /\
  importedSetupNamesRef after = importedSetupNamesRef refs.
Proof. apply refs_after_import. Qed.

(** X7. When none of the telemetry files of a folder is marked as
    imported, as in a new session, the import makes one run of each file in
    the order of the folder.  An import of the same folder that follows it
    makes no run, changes neither the refs nor the dataset the first batch
    was merged into, and leaves the runs of any dataset as they are. *)
Theorem first_import_is_complete
        (refs : ImporterRefs) (clock clock' : nat -> string)
        (testDay : TestDayFolder.t) (data : Dataset.t) :
  (forall f, f ∈ TestDayFolder.xrkFiles testDay ->
             XRKFile.path f ∉ importedRunPathsRef refs) ->
  let '(first, refs1) := importTestDayData refs clock testDay in
  let '(second, refs2) := importTestDayData refs1 clock' testDay in
  runsOf first
  = imap (fun i f => makeRun testDay (clock i) i f) (TestDayFolder.xrkFiles testDay) /\
  runsOf second = [] /\
  refs2 = refs1 /\
  handleDataImported (handleDataImported data first) second
  = handleDataImported data first /\
  forall other, Dataset.runs (handleDataImported other second) = Dataset.runs other.
Proof.
  intros Hnew.
  pose proof (refs_after_import refs clock testDay) as [Hpaths Hnames].
  destruct (importTestDayData refs clock testDay) as [first refs1] eqn:H1.
  assert (Hfirst : runsOf first
                   = imap (fun i f => makeRun testDay (clock i) i f)
                          (TestDayFolder.xrkFiles testDay)).
  { replace first with (importTestDayData refs clock testDay).1 by (rewrite H1; reflexivity).
    rewrite runsOf_import, notYetImported_all by exact Hnew. reflexivity. }
  simpl in Hpaths, Hnames.
  rewrite notYetImported_all, firstn_all in Hpaths by exact Hnew.
  assert (Hnone : notYetImported refs1 testDay = []).
  { apply notYetImported_none. intros f Hf. rewrite Hpaths.
    apply elem_of_union. right. apply elem_of_list_to_set, list_elem_of_fmap_2, Hf. }
  rewrite (import_nothing refs1 clock' testDay Hnone).
  split; [exact Hfirst|]. split; [reflexivity|]. split; [reflexivity|].
  split; [|reflexivity].
  assert (Hday : exists day, ImportedData.testDays first = Some [day] /\
                             recordId day = JStr ("local-" +:+ TestDayFolder.name testDay)).
  { replace first with (importTestDayData refs clock testDay).1 by (rewrite H1; reflexivity).
    eexists. split; reflexivity. }
  destruct Hday as (day & Hday & Hid).
  unfold handleDataImported.
  cbn [ImportedData.testDays ImportedData.runs ImportedData.setups ImportedData.tireSets
       Dataset.days Dataset.runs Dataset.setups Dataset.tires].
  f_equal.
  rewrite (mergeCollection_filter (mergeCollection _ _)). simpl.
  rewrite filter_cons_False, filter_nil, app_nil_r; [reflexivity|].
  intros Hout. apply Hout. change (recordId _) with (JStr ("local-" +:+ TestDayFolder.name testDay)).
  rewrite <- Hid, Hday.
  apply (mergeCollection_covers (Dataset.days data) (Some [day])). left.
Qed.

Lemma first_import_is_complete_witness :
  let '(first, refs1) := importTestDayData freshRefs noon villaDay in
  let '(second, refs2) := importTestDayData refs1 afternoon villaDay in
  runsOf first
  = imap (fun i f => makeRun villaDay (noon i) i f) (TestDayFolder.xrkFiles villaDay) /\
  runsOf second = [] /\
  refs2 = refs1 /\
  handleDataImported (handleDataImported emptyDataset first) second
  = handleDataImported emptyDataset first /\
  forall other, Dataset.runs (handleDataImported other second) = Dataset.runs other.
Proof.
  apply (first_import_is_complete freshRefs noon afternoon villaDay emptyDataset).
  intros f _. apply not_elem_of_empty.
Defined.

(** ** The setups, further *)

Section ObjectSpread.

Implicit Types (o src : JSObject) (k : string) (v : JSValue).

Lemma has_keys o k : JsObject.has o k = true <-> k ∈ (fst <$> o).
Proof.
  induction o as [|[k' v'] o IH]; simpl.
  - rewrite elem_of_nil. split; [discriminate|tauto].
  - rewrite orb_true_iff, String.eqb_eq, elem_of_cons, IH. split; intros [H|H]; auto.
Qed.

Lemma get_set_eq o k v : JsObject.get (JsObject.set o k v) k = v.
Proof.
  induction o as [|[k' v'] o IH]; simpl.
  - rewrite String.eqb_refl. reflexivity.
  - destruct (String.eqb k' k) eqn:E; simpl; rewrite E; [reflexivity|exact IH].
Qed.

Lemma get_set_ne o k k' v : k <> k' -> JsObject.get (JsObject.set o k v) k' = JsObject.get o k'.
Proof.
  intros Hne. induction o as [|[k0 v0] o IH]; simpl.
  - apply String.eqb_neq in Hne. rewrite Hne. reflexivity.
  - destruct (String.eqb k0 k) eqn:E; simpl.
    + apply String.eqb_eq in E. subst k0. apply String.eqb_neq in Hne. rewrite Hne.
      reflexivity.
    + rewrite IH. reflexivity.
Qed.

Lemma get_missing o k : JsObject.has o k = false -> JsObject.get o k = JUndefined.
Proof.
  induction o as [|[k' v'] o IH]; simpl; [reflexivity|].
  destruct (String.eqb k' k); simpl; [discriminate|exact IH].
Qed.

(** What an object spread leaves under a key: the value of the source when
    the source has the key, the value of the target otherwise. *)
Lemma get_spread src : forall o k,
  NoDup (fst <$> src) ->
  JsObject.get (JsObject.spread o src) k
  = if JsObject.has src k then JsObject.get src k else JsObject.get o k.
Proof.
  unfold JsObject.spread.
  induction src as [|[k' v'] src IH]; intros o k Hnd; simpl; [reflexivity|].
  apply NoDup_cons in Hnd as [Hk' Hnd]. rewrite (IH _ _ Hnd).
  destruct (String.eqb k' k) eqn:E; simpl.
  - apply String.eqb_eq in E. subst k'.
    destruct (JsObject.has src k) eqn:Hhas; [|apply get_set_eq].
    exfalso. apply Hk'. apply has_keys, Hhas.
  - apply String.eqb_neq in E. rewrite (get_set_ne _ _ _ _ E). reflexivity.
Qed.

End ObjectSpread.

(** X8. For a setup document that is an object, the record of
    importGlobalSetups carries every property of the document with the
    value of the document; so an id, a name or a timestamp of the document
    stands in the record as it is, whether truthy or not.  The id
    ['setup-' + file name without its .json suffix], that file name as the
    name, and the time of the import are used only under the keys the
    document lacks. *)
Theorem makeSetup_object (now : string) (file : File.t) (o : JSObject) :
  NoDup (fst <$> o) ->
  exists setup,
    makeSetup now file (JObj o) = Some setup /\
    (forall k, JsObject.has o k = true -> JsObject.get setup k = JsObject.get o k) /\
    (JsObject.has o "id" = false ->
     recordId setup = JStr ("setup-" +:+ remove_match (File.name file) jsonSuffixPattern)) /\
    (JsObject.has o "name" = false ->
     JsObject.get setup "name" = JStr (remove_match (File.name file) jsonSuffixPattern)) /\
    (JsObject.has o "timestamp" = false -> JsObject.get setup "timestamp" = JStr now).
Proof.
  intros Hnd. eexists. split; [reflexivity|].
  cbn [JsObject.own_props]. split; [|split; [|split]].
  - intros k Hk. rewrite (get_spread _ _ _ Hnd), Hk. reflexivity.
  - intros Hid. unfold recordId. rewrite (get_spread _ _ _ Hnd), Hid.
    rewrite (get_missing _ _ Hid). reflexivity.
  - intros Hname. rewrite (get_spread _ _ _ Hnd), Hname.
    rewrite (get_missing _ _ Hname). reflexivity.
  - intros Hts. rewrite (get_spread _ _ _ Hnd), Hts. reflexivity.
Qed.

Lemma makeSetup_object_witness :
  exists setup,
    makeSetup "t" (setupFile "" "Baseline.JSON" "{}") (JObj [("id", JStr ""); ("aero", JNull)])
    = Some setup /\
    recordId setup = JStr "" /\
    JsObject.get setup "aero" = JNull /\
    JsObject.get setup "name" = JStr "Baseline" /\
    JsObject.get setup "timestamp" = JStr "t".
Proof.
  destruct (makeSetup_object "t" (setupFile "" "Baseline.JSON" "{}")
              [("id", JStr ""); ("aero", JNull)]) as (setup & Hs & Hall & _ & Hname & Hts).
  { repeat constructor; [intros [=]%list_elem_of_singleton|apply not_elem_of_nil]. }
  exists setup. split; [exact Hs|]. split; [exact (Hall "id" eq_refl)|].
  split; [exact (Hall "aero" eq_refl)|]. split; [exact (Hname eq_refl)|exact (Hts eq_refl)].
Defined.

Section SetupsAgain.

Variable JSON_parse : string -> option JSValue.

Lemma readSetup_None now file :
  readSetup JSON_parse now file = None <-> parsesToSetup JSON_parse file = false.
Proof.
  pose proof (readSetup_is_Some JSON_parse now file) as H.
  destruct (readSetup JSON_parse now file) as [setup|];
    destruct (parsesToSetup JSON_parse file); split; try discriminate; try reflexivity.
  - intros _. assert (Hsome : is_Some (Some setup)) by (eexists; reflexivity).
    apply H in Hsome. discriminate Hsome.
  - intros _. destruct (proj2 H eq_refl) as [x Hx]. discriminate Hx.
Qed.

(** The names marked as imported only grow in the loop, by names of the
    files. *)
Lemma importSetupFiles_keeps_names clock files : forall i st x,
  x ∈ setupNames st -> x ∈ setupNames (importSetupFiles JSON_parse clock i st files).
Proof.
  induction files as [|file files IH]; intros i st x Hx; simpl; [exact Hx|].
  apply IH. unfold importSetupFile. case_bool_decide; [exact Hx|].
  destruct (readSetup JSON_parse (clock i) file); simpl; [|exact Hx].
  apply elem_of_union. right. exact Hx.
Qed.

Lemma importSetupFiles_names_from clock files : forall i st x,
  x ∈ setupNames (importSetupFiles JSON_parse clock i st files) ->
  x ∈ setupNames st \/ x ∈ (File.name <$> files).
Proof.
  induction files as [|file files IH]; intros i st x Hx; simpl in Hx; [left; exact Hx|].
  apply IH in Hx as [Hx|Hx]; [|right; right; exact Hx].
  unfold importSetupFile in Hx. case_bool_decide; [left; exact Hx|].
  destruct (readSetup JSON_parse (clock i) file); simpl in Hx; [|left; exact Hx].
  apply elem_of_union in Hx as [Hx%elem_of_singleton|Hx]; [|left; exact Hx].
  right. rewrite Hx. left.
Qed.

(** A file whose name is not marked after the loop was read and failed. *)
Lemma unmarked_setup_failed clock files : forall i st f,
  f ∈ files ->
  File.name f ∉ setupNames (importSetupFiles JSON_parse clock i st files) ->
  parsesToSetup JSON_parse f = false.
Proof.
  induction files as [|file files IH]; intros i st f Hf Hname.
  - apply elem_of_nil in Hf. destruct Hf.
  - simpl in Hname. apply elem_of_cons in Hf as [->|Hf]; [|exact (IH _ _ f Hf Hname)].
    assert (H1 : File.name file ∉ setupNames (importSetupFile JSON_parse (clock i) st file))
      by (intros H; apply Hname, importSetupFiles_keeps_names, H).
    unfold importSetupFile in H1. case_bool_decide as Hin; [contradiction|].
    destruct (readSetup JSON_parse (clock i) file) as [setup|] eqn:Hread.
    + destruct H1. simpl. apply elem_of_union. left. apply elem_of_singleton. reflexivity.
    + apply (readSetup_None (clock i)), Hread.
Qed.

(** The loop over files whose unmarked ones fail: nothing is added, and
    each unmarked file is reported. *)
Lemma importSetupFiles_again clock files : forall i st,
  (forall f, f ∈ files -> File.name f ∉ setupNames st ->
             parsesToSetup JSON_parse f = false) ->
  importSetupFiles JSON_parse clock i st files
  = mkLoop (importedSetups st) (setupNames st)
           (console st ++
            (warningFor <$> filter (fun f => File.name f ∉ setupNames st) files)).
Proof.
  induction files as [|file files IH]; intros i st Hfail; simpl.
  - rewrite app_nil_r. destruct st; reflexivity.
  - unfold importSetupFile. rewrite filter_cons. case_bool_decide as Hin.
    + rewrite decide_False by (intros H; exact (H Hin)).
      apply IH. intros f Hf. apply Hfail. right. exact Hf.
    + rewrite decide_True by exact Hin.
      assert (Hread : readSetup JSON_parse (clock i) file = None)
        by (apply readSetup_None, Hfail; [left|exact Hin]).
      rewrite Hread, IH.
      * simpl. rewrite <- app_assoc. reflexivity.
      * simpl. intros f Hf. apply Hfail. right. exact Hf.
Qed.

(** The warnings of the loop hold a warning for each file whose name is
    not marked in the end. *)
Lemma warnings_of_unmarked clock files : forall i st (marked : gset string),
  (forall x, x ∈ setupNames (importSetupFiles JSON_parse clock i st files) -> x ∈ marked) ->
  exists warnings,
    console (importSetupFiles JSON_parse clock i st files) = console st ++ warnings /\
    sublist (warningFor <$> filter (fun f => File.name f ∉ marked) files) warnings.
Proof.
  induction files as [|file files IH]; intros i st marked Hmarked; simpl in *.
  - exists []. rewrite app_nil_r. split; [reflexivity|constructor].
  - destruct (IH (S i) (importSetupFile JSON_parse (clock i) st file) marked Hmarked)
      as (warnings & Hconsole & Hsub).
    rewrite Hconsole, filter_cons.
    assert (Hkept : forall x, x ∈ setupNames (importSetupFile JSON_parse (clock i) st file) ->
                              x ∈ marked)
      by (intros x Hx; apply Hmarked, importSetupFiles_keeps_names, Hx).
    unfold importSetupFile in *. case_bool_decide as Hin.
    + exists warnings. split; [reflexivity|].
      rewrite decide_False by (intros H; apply H, Hkept, Hin). exact Hsub.
    + destruct (readSetup JSON_parse (clock i) file) as [setup|]; simpl in *.
      * exists warnings. split; [reflexivity|].
        rewrite decide_False; [exact Hsub|].
        intros H. apply H, Hkept, elem_of_union. left. apply elem_of_singleton. reflexivity.
      * exists (warningFor file :: warnings). split; [rewrite <- app_assoc; reflexivity|].
        destruct (decide (File.name file ∉ marked)).
        -- rewrite fmap_cons. apply sublist_skip, Hsub.
        -- apply sublist_cons, Hsub.
Qed.

(** With pairwise distinct file names the warnings of the loop are those
    of the files whose name is not marked in the end. *)
Lemma warnings_of_distinct_names clock files : forall i st,
  NoDup (File.name <$> files) ->
  console (importSetupFiles JSON_parse clock i st files)
  = console st ++
    (warningFor <$>
       filter (fun f => File.name f ∉ setupNames (importSetupFiles JSON_parse clock i st files))
              files).
Proof.
  induction files as [|file files IH]; intros i st Hnd.
  - simpl. rewrite app_nil_r. reflexivity.
  - rewrite fmap_cons in Hnd. apply NoDup_cons in Hnd as [Hfile Hnd].
    cbn [importSetupFiles]. rewrite (IH (S i) _ Hnd), filter_cons.
    set (st1 := importSetupFile JSON_parse (clock i) st file).
    assert (Hkept : forall x, x ∈ setupNames st1 ->
                              x ∈ setupNames (importSetupFiles JSON_parse clock (S i) st1 files))
      by (intros x; apply importSetupFiles_keeps_names).
    assert (Hfrom : forall x,
               x ∈ setupNames (importSetupFiles JSON_parse clock (S i) st1 files) ->
               x ∈ setupNames st1 \/ x ∈ (File.name <$> files))
      by (intros x; apply importSetupFiles_names_from).
    revert Hkept Hfrom.
    generalize (setupNames (importSetupFiles JSON_parse clock (S i) st1 files)).
    intros marked Hkept Hfrom. subst st1. unfold importSetupFile in *.
    case_bool_decide as Hin.
    + rewrite decide_False by (intros H; apply H, Hkept, Hin). reflexivity.
    + destruct (readSetup JSON_parse (clock i) file) as [setup|]; simpl in *.
      * rewrite decide_False; [reflexivity|].
        intros H. apply H, Hkept, elem_of_union. left. apply elem_of_singleton. reflexivity.
      * rewrite decide_True; [rewrite fmap_cons, <- app_assoc; reflexivity|].
        intros H. apply Hfrom in H as [H|H]; contradiction.
Qed.

(** X9. A second import of the same setup files in a session hands on
    nothing and leaves the refs as the first import left them.  It reads
    again, and warns about, exactly the files whose name is not marked as
    imported; each of these warnings was written by the first import too,
    and when the file names are pairwise distinct the warnings of the two
    imports are the same. *)
Theorem importGlobalSetups_again
        (refs : ImporterRefs) (clock clock' : nat -> string) (files : list File.t) :
  let '(_, warnings1, refs1) := importGlobalSetups JSON_parse refs clock files in
  let '(sent2, warnings2, refs2) := importGlobalSetups JSON_parse refs1 clock' files in
  sent2 = None /\ refs2 = refs1 /\
  warnings2
  = (warningFor <$> filter (fun f => File.name f ∉ importedSetupNamesRef refs1) files) /\
  sublist warnings2 warnings1 /\
  (NoDup (File.name <$> files) -> warnings2 = warnings1).
Proof.
  unfold importGlobalSetups.
  set (st0 := mkLoop [] (importedSetupNamesRef refs) []).
  set (st1 := importSetupFiles JSON_parse clock 0 st0 files).
  cbn [importedRunPathsRef importedSetupNamesRef].
  rewrite (importSetupFiles_again clock' files 0 (mkLoop [] (setupNames st1) []))
    by (intros f Hf Hname; exact (unmarked_setup_failed clock files 0 st0 f Hf Hname)).
  cbn [importedSetups setupNames console length Nat.ltb Nat.leb app].
  split; [reflexivity|]. split; [reflexivity|]. split; [reflexivity|]. split.
  - destruct (warnings_of_unmarked clock files 0 st0 (setupNames st1)) as (w & Hw & Hsub);
      [intros x Hx; exact Hx|].
    fold st1 in Hw. rewrite Hw. exact Hsub.
  - intros Hnd. pose proof (warnings_of_distinct_names clock files 0 st0 Hnd) as Hw.
    fold st1 in Hw. rewrite Hw. reflexivity.
Qed.

End SetupsAgain.

Lemma importGlobalSetups_again_witness :
  (let '(_, warnings1, refs1) := importGlobalSetups parseExample freshRefs noon tenSetupFiles in
   let '(sent2, warnings2, refs2) :=
     importGlobalSetups parseExample refs1 afternoon tenSetupFiles in
   sent2 = None /\ refs2 = refs1 /\ warnings2 = warnings1) /\
  (let '(_, warnings1, refs1) :=
     importGlobalSetups parseExample freshRefs noon namesakesAndBroken in
   let '(sent2, warnings2, refs2) :=
     importGlobalSetups parseExample refs1 afternoon namesakesAndBroken in
   sent2 = None /\ refs2 = refs1 /\ sublist warnings2 warnings1).
Proof.
  split.
  - pose proof (importGlobalSetups_again parseExample freshRefs noon afternoon tenSetupFiles)
      as H.
    destruct (importGlobalSetups parseExample freshRefs noon tenSetupFiles)
      as [[sent1 warnings1] refs1].
    destruct (importGlobalSetups parseExample refs1 afternoon tenSetupFiles)
      as [[sent2 warnings2] refs2].
    destruct H as (Hsent & Hrefs & _ & _ & Hsame).
    split; [exact Hsent|]. split; [exact Hrefs|]. apply Hsame.
    apply (bool_decide_unpack _). vm_compute. exact I.
  - pose proof (importGlobalSetups_again parseExample freshRefs noon afternoon
                  namesakesAndBroken) as H.
    destruct (importGlobalSetups parseExample freshRefs noon namesakesAndBroken)
      as [[sent1 warnings1] refs1].
    destruct (importGlobalSetups parseExample refs1 afternoon namesakesAndBroken)
      as [[sent2 warnings2] refs2].
    destruct H as (Hsent & Hrefs & _ & Hsub & _).
    split; [exact Hsent|]. split; [exact Hrefs|exact Hsub].
Defined.

Section JsonSuffix.

Lemma dot_lower c : is_char "." c = true <-> lower_char c = "."%char.
Proof. destruct c as [[] [] [] [] [] [] [] []]; vm_compute; split; congruence. Qed.

Lemma ci_j_lower c : is_char_ci "j" c = true <-> lower_char c = "j"%char.
Proof. destruct c as [[] [] [] [] [] [] [] []]; vm_compute; split; congruence. Qed.

Lemma ci_s_lower c : is_char_ci "s" c = true <-> lower_char c = "s"%char.
Proof. destruct c as [[] [] [] [] [] [] [] []]; vm_compute; split; congruence. Qed.

Lemma ci_o_lower c : is_char_ci "o" c = true <-> lower_char c = "o"%char.
Proof. destruct c as [[] [] [] [] [] [] [] []]; vm_compute; split; congruence. Qed.

Lemma ci_n_lower c : is_char_ci "n" c = true <-> lower_char c = "n"%char.
Proof. destruct c as [[] [] [] [] [] [] [] []]; vm_compute; split; congruence. Qed.

Lemma chars_toLowerCase (s : string) : chars (toLowerCase s) = lower_char <$> chars s.
Proof. induction s as [|c s IH]; simpl; [reflexivity|]. f_equal. exact IH. Qed.

Lemma startsWith_prefix (p s : list ascii) :
  startsWith p s = true <-> exists t, s = p ++ t.
Proof.
  revert s. induction p as [|a p IH]; intros s; simpl.
  - split; [intros _; exists s; reflexivity|reflexivity].
  - destruct s as [|c s]; [split; [discriminate|intros [t [=]]]|].
    rewrite andb_true_iff, Ascii.eqb_eq, IH. split.
    + intros [-> [t ->]]. exists t. reflexivity.
    + intros [t [= -> ->]]. split; [reflexivity|exists t; reflexivity].
Qed.

Lemma endsWith_suffix (s p : string) :
  endsWith s p = true <-> exists t, chars s = t ++ chars p.
Proof.
  unfold endsWith. rewrite startsWith_prefix. split.
  - intros [t Ht]. exists (rev t).
    rewrite <- (rev_involutive (chars s)), Ht, rev_app_distr, rev_involutive. reflexivity.
  - intros [t Ht]. exists (rev t). rewrite Ht, rev_app_distr. reflexivity.
Qed.

(** The pattern at one position: it matches when what is left of the name
    is the suffix, in any case. *)
Lemma rmatch_json (pre s : list ascii) :
  rmatch (RGroup 0 jsonSuffixPattern) pre s ∅ (fun _ _ caps => Some caps)
  = if decide (lower_char <$> s = chars ".json") then Some (<[0%nat := s]> ∅) else None.
Proof.
  unfold jsonSuffixPattern. cbn [rmatch].
  destruct s as [|a [|b [|c [|d [|e [|f s]]]]]];
    try (rewrite decide_False by discriminate).
  - reflexivity.
  - destruct (is_char "." a); reflexivity.
  - destruct (is_char "." a), (is_char_ci "j" b); reflexivity.
  - destruct (is_char "." a), (is_char_ci "j" b), (is_char_ci "s" c); reflexivity.
  - destruct (is_char "." a), (is_char_ci "j" b), (is_char_ci "s" c), (is_char_ci "o" d);
      reflexivity.
  - destruct (is_char "." a) eqn:Ha.
    2:{ rewrite decide_False; [reflexivity|]. simpl. intros [= H _]. apply dot_lower in H.
        congruence. }
    destruct (is_char_ci "j" b) eqn:Hb.
    2:{ rewrite decide_False; [reflexivity|]. simpl. intros [= _ H _]. apply ci_j_lower in H.
        congruence. }
    destruct (is_char_ci "s" c) eqn:Hc.
    2:{ rewrite decide_False; [reflexivity|]. simpl. intros [= _ _ H _]. apply ci_s_lower in H.
        congruence. }
    destruct (is_char_ci "o" d) eqn:Hd.
    2:{ rewrite decide_False; [reflexivity|]. simpl. intros [= _ _ _ H _]. apply ci_o_lower in H.
        congruence. }
    destruct (is_char_ci "n" e) eqn:He.
    2:{ rewrite decide_False; [reflexivity|]. simpl. intros [= _ _ _ _ H]. apply ci_n_lower in H.
        congruence. }
    rewrite decide_True.
    + change (e :: d :: c :: b :: a :: pre) with (rev [a; b; c; d; e] ++ pre).
      rewrite capture_taken. reflexivity.
    + apply dot_lower in Ha. apply ci_j_lower in Hb. apply ci_s_lower in Hc.
      apply ci_o_lower in Hd. apply ci_n_lower in He.
      simpl. rewrite Ha, Hb, Hc, Hd, He. reflexivity.
  - destruct (is_char "." a), (is_char_ci "j" b), (is_char_ci "s" c), (is_char_ci "o" d),
      (is_char_ci "n" e); reflexivity.
Qed.

Lemma exec_from_json (s : list ascii) : forall pre,
  exec_from jsonSuffixPattern pre s
  = if decide (lower_char <$> drop (length s - 5) s = chars ".json")
    then Some ((length pre + (length s - 5))%nat, <[0%nat := drop (length s - 5) s]> ∅)
    else None.
Proof.
  induction s as [|c s IH]; intros pre.
  - reflexivity.
  - cbn [exec_from]. rewrite rmatch_json.
    destruct (decide (lower_char <$> c :: s = chars ".json")) as [Hall|Hnot].
    + assert (Hlen : length (c :: s) = 5%nat).
      { rewrite <- (length_fmap lower_char), Hall. reflexivity. }
      rewrite Hlen. simpl. rewrite decide_True by exact Hall.
      rewrite Nat.add_0_r. reflexivity.
    + rewrite IH. destruct (Nat.le_gt_cases 5 (length s)) as [Hlong|Hshort].
      * replace (length (c :: s) - 5)%nat with (S (length s - 5)) by (simpl; lia).
        simpl. destruct (decide _); [|reflexivity].
        rewrite Nat.add_succ_r. reflexivity.
      * replace (length s - 5)%nat with 0%nat by lia.
        replace (length (c :: s) - 5)%nat with 0%nat by (simpl in *; lia).
        simpl. rewrite (decide_False (P := _ :: _ = _)) by exact Hnot.
        rewrite decide_False; [reflexivity|].
        intros Heq. apply (f_equal length) in Heq. rewrite length_fmap in Heq.
        rewrite drop_0 in Heq. simpl in Heq. lia.
Qed.

End JsonSuffix.

(** X10. [name.replace(/\.json$/i, '')] cuts the last five code units off
    a file name that ends in [.json] in any case, and leaves every other
    name as it is; so the default id of a setup file [Baseline.JSON] is
    [setup-Baseline]. *)
Theorem remove_json_suffix (name : string) :
  (endsWith (toLowerCase name) ".json" = true ->
   exists base suffix,
     chars name = base ++ suffix /\ length suffix = 5%nat /\
     remove_match name jsonSuffixPattern = of_chars base) /\
  (endsWith (toLowerCase name) ".json" = false ->
   remove_match name jsonSuffixPattern = name).
Proof.
  unfold remove_match, exec. rewrite exec_from_json. simpl length.
  set (s := chars name). set (i := (length s - 5)%nat).
  split.
  - intros [t Ht]%endsWith_suffix. rewrite chars_toLowerCase in Ht. fold s in Ht.
    assert (Hlen : length s = (length t + 5)%nat).
    { rewrite <- (length_fmap lower_char), Ht, length_app. reflexivity. }
    assert (Hdrop : lower_char <$> drop i s = chars ".json").
    { rewrite fmap_drop, Ht. unfold i. rewrite Hlen, Nat.add_sub.
      rewrite drop_app_length. reflexivity. }
    rewrite decide_True by exact Hdrop.
    exists (take i s), (drop i s). split; [symmetry; apply take_drop|]. split.
    + rewrite length_drop. unfold i. lia.
    + rewrite lookup_insert_eq. simpl. f_equal.
      rewrite drop_ge, app_nil_r; [reflexivity|]. rewrite length_drop. unfold i. lia.
  - intros Hends. rewrite decide_False; [reflexivity|].
    intros Hdrop. assert (endsWith (toLowerCase name) ".json" = true); [|congruence].
    apply endsWith_suffix. exists (lower_char <$> take i s).
    rewrite chars_toLowerCase. fold s. rewrite <- Hdrop, <- fmap_app, take_drop. reflexivity.
Qed.

Lemma remove_json_suffix_witness :
  (exists base suffix,
     chars "Baseline.JSON" = base ++ suffix /\ length suffix = 5%nat /\
     remove_match "Baseline.JSON" jsonSuffixPattern = of_chars base) /\
  remove_match "setup.json.bak" jsonSuffixPattern = "setup.json.bak".
Proof.
  split.
  - exact (proj1 (remove_json_suffix "Baseline.JSON") eq_refl).
  - exact (proj2 (remove_json_suffix "setup.json.bak") eq_refl).
Defined.

(** ** The folders and the counters of the scan *)

Section ScanResults.

Lemma findTestDayFolder_matches (parts : list string) :
  findTestDayFolder parts <> "" -> isTestDay (findTestDayFolder parts) = true.
Proof.
  induction parts as [|seg rest IH]; [simpl; congruence|].
  destruct rest as [|seg' rest]; [simpl; congruence|].
  change (findTestDayFolder (seg :: seg' :: rest))
    with (if isTestDay seg then seg else findTestDayFolder (seg' :: rest)).
  destruct (isTestDay seg) eqn:H; [intros _; exact H|exact IH].
Qed.

Lemma folderOf_name (entry : string * list File.t) td :
  folderOf entry = Some td ->
  TestDayFolder.name td = entry.1 /\ TestDayFolder.path td = entry.1.
Proof.
  unfold folderOf. destruct (isTestDay _); [|discriminate].
  destruct (_ || _); [|discriminate]. intros [= <-]. split; reflexivity.
Qed.

Lemma folder_names_sublist (m : DirectoryMap) :
  sublist (TestDayFolder.name <$> omap folderOf m) (fst <$> m).
Proof.
  induction m as [|entry m IH]; simpl; [constructor|].
  destruct (folderOf entry) as [td|] eqn:H; simpl.
  - apply folderOf_name in H as [-> _]. apply sublist_skip, IH.
  - apply sublist_cons, IH.
Qed.

Lemma scan_names_NoDup (files : list File.t) :
  NoDup (TestDayFolder.name <$> (scanForTestDayFolders files).1).
Proof.
  rewrite scan_folders.
  eapply sublist_NoDup; [|apply folder_names_sublist].
  apply classify_NoDup. constructor.
Qed.

(** X11. The scan lists a folder name once: the names of the test-day
    folders it returns are pairwise distinct, whatever the order and the
    depth of the files, and each folder carries its name as its path. *)
Theorem scan_folder_names_distinct (files : list File.t) :
  NoDup (TestDayFolder.name <$> (scanForTestDayFolders files).1) /\
  Forall (fun td => TestDayFolder.path td = TestDayFolder.name td)
         (scanForTestDayFolders files).1.
Proof.
  split; [apply scan_names_NoDup|].
  rewrite scan_folders. apply Forall_forall. intros td Htd.
  apply list_elem_of_omap in Htd as (entry & _ & H).
  apply folderOf_name in H as [-> ->]. reflexivity.
Qed.

Lemma push_files (m : DirectoryMap) k f :
  concat (snd <$> directoryMap_push m k f) ≡ₚ concat (snd <$> m) ++ [f].
Proof.
  induction m as [|[k' fs] m IH]; simpl; [reflexivity|].
  destruct (String.eqb k' k); simpl.
  - rewrite <- !app_assoc. apply Permutation_app_head, Permutation_app_comm.
  - rewrite IH, app_assoc. reflexivity.
Qed.

Lemma classify_files (files : list File.t) : forall acc : DirectoryMap * list File.t,
  concat (snd <$> (fold_left classifyFile files acc).1)
  ≡ₚ concat (snd <$> acc.1) ++ filter (fun f => owner f <> "") files.
Proof.
  induction files as [|f files IH]; intros acc; simpl.
  - rewrite app_nil_r. reflexivity.
  - rewrite IH, classifyFile_map, filter_cons.
    destruct (String.eqb (owner f) "") eqn:Ho.
    + apply String.eqb_eq in Ho. rewrite decide_False by (intros H; exact (H Ho)).
      reflexivity.
    + apply String.eqb_neq in Ho. rewrite decide_True by exact Ho.
      rewrite push_files, <- app_assoc. reflexivity.
Qed.

Lemma totalXRKFiles_from (folders : list TestDayFolder.t) : forall n : nat,
  fold_left (fun sum folder => (sum + length (TestDayFolder.xrkFiles folder))%nat) folders n
  = (n + length (concat (TestDayFolder.xrkFiles <$> folders)))%nat.
Proof.
  induction folders as [|td folders IH]; intros n; [simpl; lia|].
  rewrite fmap_cons. cbn [fold_left concat]. rewrite IH, length_app. lia.
Qed.

Lemma folders_xrkFiles (m : DirectoryMap) :
  Forall (fun entry => isTestDay entry.1 = true) m ->
  concat (TestDayFolder.xrkFiles <$> omap folderOf m)
  = toXRKFile <$> filter (fun f => isXrk f = true) (concat (snd <$> m)).
Proof.
  induction m as [|entry m IH]; intros Hm; [reflexivity|].
  apply Forall_cons in Hm as [He Hm]. destruct entry as [k fs]. simpl in He.
  rewrite fmap_cons. cbn [concat snd]. rewrite filter_app, fmap_app, <- (IH Hm).
  change (omap folderOf ((k, fs) :: m))
    with (match folderOf (k, fs) with
          | Some td => td :: omap folderOf m
          | None => omap folderOf m
          end).
  destruct (folderOf (k, fs)) as [td|] eqn:Hf.
  - apply folderOf_Some in Hf as (_ & _ & ->). reflexivity.
  - unfold folderOf in Hf. cbn [fst snd] in Hf. rewrite He in Hf.
    destruct (toXRKFile <$> filter (fun f => isXrk f = true) fs); [reflexivity|].
    discriminate Hf.
Qed.

(** The telemetry files of all folders of a scan: the [.xrk] files that
    have an owner, each once. *)
Lemma scan_xrkFiles (files : list File.t) :
  concat (TestDayFolder.xrkFiles <$> (scanForTestDayFolders files).1)
  ≡ₚ toXRKFile <$> filter (fun f => isXrk f = true /\ owner f <> "") files.
Proof.
  rewrite scan_folders, folders_xrkFiles.
  - rewrite (classify_files files ([], [])). simpl.
    rewrite list_filter_filter. reflexivity.
  - apply Forall_forall. intros [k fs] Hin.
    apply classify_entries in Hin as (Hk & Hfs & ->). simpl.
    destruct (filter (fun f => owner f = k) files) as [|f fs'] eqn:Hf; [congruence|].
    assert (Hin : f ∈ filter (fun f => owner f = k) files) by (rewrite Hf; left).
    apply list_elem_of_filter in Hin as [<- _].
    apply findTestDayFolder_matches, Hk.
Qed.

(** X12. The XRK counter the scan shows is the number of files of the
    selection whose name ends in [.xrk], whatever the letter case, and
    that lie below a folder whose name matches the pattern: each such file
    is counted once, under one folder, and no other file is counted. *)
Theorem scan_counts_owned_xrk_files (files : list File.t) :
  totalXRKFiles (scanForTestDayFolders files).1
  = length (filter (fun f => isXrk f = true /\ owner f <> "") files).
Proof.
  unfold totalXRKFiles. rewrite totalXRKFiles_from, scan_xrkFiles, length_fmap.
  reflexivity.
Qed.

End ScanResults.

(** ** Strings: concatenation and [split] *)

Section Split.

Lemma chars_app (a b : string) : chars (a +:+ b) = chars a ++ chars b.
Proof. induction a as [|c a IH]; simpl; [reflexivity|]. f_equal. exact IH. Qed.

Lemma startsWith_app (p s : list ascii) : startsWith p (p ++ s) = true.
Proof.
  induction p as [|c p IH]; simpl; [reflexivity|].
  rewrite Ascii.eqb_refl. exact IH.
Qed.

Lemma split_go_skip sep (x : list ascii) : forall cur b,
  split_go sep cur (x ++ b) (length x) = split_go sep cur b 0.
Proof.
  induction x as [|c x IH]; intros cur b; simpl; [destruct b; reflexivity|].
  apply IH.
Qed.

(** The first piece ends at the first occurrence of the separator. *)
Lemma split_go_first sep (a : list ascii) : forall cur b,
  sep <> [] ->
  (forall a1 a2, a = a1 ++ a2 -> a2 <> [] -> startsWith sep (a2 ++ sep ++ b) = false) ->
  split_go sep cur (a ++ sep ++ b) 0 = of_chars (rev cur ++ a) :: split_go sep [] b 0.
Proof.
  induction a as [|c a IH]; intros cur b Hsep Hfirst.
  - destruct sep as [|c sep]; [congruence|].
    rewrite app_nil_r. change ([] ++ (c :: sep) ++ b) with (c :: sep ++ b).
    cbn [split_go]. change (c :: sep ++ b) with ((c :: sep) ++ b).
    rewrite startsWith_app. f_equal. apply split_go_skip.
  - change ((c :: a) ++ sep ++ b) with (c :: a ++ sep ++ b). cbn [split_go].
    assert (Hc : startsWith sep ((c :: a) ++ sep ++ b) = false)
      by (apply (Hfirst [] (c :: a) eq_refl); discriminate).
    change ((c :: a) ++ sep ++ b) with (c :: a ++ sep ++ b) in Hc. rewrite Hc.
    rewrite IH; [|exact Hsep|].
    + simpl. rewrite <- app_assoc. reflexivity.
    + intros a1 a2 -> Ha2. apply (Hfirst (c :: a1) a2 eq_refl Ha2).
Qed.

(** Without an occurrence of the separator there is one piece. *)
Lemma split_go_last sep (s : list ascii) : forall cur,
  includes_chars s sep = false -> split_go sep cur s 0 = [of_chars (rev cur ++ s)].
Proof.
  induction s as [|c s IH]; intros cur H.
  - rewrite app_nil_r. reflexivity.
  - cbn [includes_chars] in H. apply orb_false_iff in H as [Hc Hs].
    cbn [split_go]. rewrite Hc, IH by exact Hs.
    simpl. rewrite <- app_assoc. reflexivity.
Qed.

Lemma split_whole (s sep : string) :
  includes s sep = false -> split s sep = [s].
Proof.
  intros H. unfold split. rewrite split_go_last by exact H.
  simpl. rewrite of_chars_chars. reflexivity.
Qed.

Lemma split_first (a sep b : string) :
  sep <> "" ->
  (forall a1 a2, chars a = a1 ++ a2 -> a2 <> [] ->
                 startsWith (chars sep) (a2 ++ chars sep ++ chars b) = false) ->
  split (a +:+ sep +:+ b) sep = a :: split b sep.
Proof.
  intros Hsep Hfirst. unfold split. rewrite !chars_app.
  rewrite split_go_first; [|destruct sep; [congruence|discriminate]|exact Hfirst].
  simpl. rewrite of_chars_chars. reflexivity.
Qed.

End Split.

(** ** Test days created from the dashboard *)

Section CreateTestDay.

Lemma testDayFolderName_chars (date venue : string) :
  chars (testDayFolderName date venue)
  = chars date ++ [" "%char] ++ "-"%char :: [" "%char] ++ chars venue.
Proof. unfold testDayFolderName. rewrite !chars_app. reflexivity. Qed.

Lemma chars_inj (a b : string) : chars a = chars b -> a = b.
Proof. intros H. rewrite <- (of_chars_chars a), H. apply of_chars_chars. Qed.

Lemma date_has_no_space (d : list ascii) :
  isDateText d -> Forall (fun c => is_space c = false) d.
Proof.
  intros (y & m & dd & -> & _ & Hy & _ & Hm & _ & Hd).
  assert (Hdigits : forall l, Forall (fun c => is_digit c = true) l ->
                              Forall (fun c => is_space c = false) l).
  { intros l Hl. eapply Forall_impl; [exact Hl|]. intros c Hc.
    destruct (is_space c) eqn:Hs; [|reflexivity].
    apply space_is_not_digit in Hs. congruence. }
  apply Forall_app. split; [apply Hdigits, Hy|]. constructor; [reflexivity|].
  apply Forall_app. split; [apply Hdigits, Hm|]. constructor; [reflexivity|].
  apply Hdigits, Hd.
Qed.

Lemma created_folder_name_shape (now date venue folderName : string) meta :
  createTestDayOnDisk true now date venue = Some (folderName, meta) ->
  isDateText (chars date) /\ isVenueText (chars venue) ->
  matchTestDayFolder folderName = Some (date, venue).
Proof.
  unfold createTestDayOnDisk. simpl. destruct (_ || _); [discriminate|].
  intros [= <- _] [Hd Hv]. apply matchTestDayFolder_Some.
  exists [" "%char], "-"%char, [" "%char].
  split; [apply testDayFolderName_chars|]. split; [exact Hd|].
  split; [repeat constructor|]. split; [reflexivity|].
  split; [repeat constructor|exact Hv].
Qed.

(** X13. createTestDayOnDisk names the folder [date - venue], and the
    scanner reads such a name back as the same date and venue exactly when
    the date field is a date of the pattern and the venue field is a venue
    of the pattern; with any other entry the folder is created all the same
    but is not read back as entered. *)
Theorem created_folder_name_round_trip (now date venue folderName : string) meta :
  createTestDayOnDisk true now date venue = Some (folderName, meta) ->
  matchTestDayFolder folderName = Some (date, venue) <->
  isDateText (chars date) /\ isVenueText (chars venue).
Proof.
  intros Hcreate. split.
  - rewrite matchTestDayFolder_Some.
    intros (ws1 & sep & ws2 & _ & Hd & _ & _ & _ & Hv). split; assumption.
  - apply (created_folder_name_shape now date venue folderName meta Hcreate).
Qed.

Lemma created_folder_name_round_trip_witness :
  matchTestDayFolder "2025-4-11 - Villa" = Some ("2025-4-11", "Villa") <->
  isDateText (chars "2025-4-11") /\ isVenueText (chars "Villa").
Proof.
  exact (created_folder_name_round_trip "2025-04-10T09:00:00.000Z" "2025-4-11" "Villa"
           _ _ eq_refl).
Defined.

Lemma split_template (date venue : string) :
  Forall (fun c => is_space c = false) (chars date) ->
  includes venue " - " = false ->
  split (testDayFolderName date venue) " - " = [date; venue].
Proof.
  intros Hdate Hvenue. unfold testDayFolderName.
  rewrite split_first;
    [rewrite split_whole by exact Hvenue; reflexivity|discriminate|].
  intros a1 a2 Ha Ha2. destruct a2 as [|c a2]; [congruence|].
  rewrite Ha in Hdate. apply Forall_app in Hdate as [_ Hc].
  apply Forall_cons in Hc as [Hc _].
  change (startsWith (chars " - ") ((c :: a2) ++ chars " - " ++ chars venue))
    with (Ascii.eqb " " c && startsWith (chars "- ") (a2 ++ chars " - " ++ chars venue)).
  destruct (Ascii.eqb " " c) eqn:E; [|reflexivity].
  apply Ascii.eqb_eq in E. subst c. discriminate Hc.
Qed.

Lemma days_and_runs_of_import refs clock testDay (P : JSValue -> JSValue -> Prop) :
  P (namePart (TestDayFolder.name testDay) 0)
    (JsObject.or (namePart (TestDayFolder.name testDay) 1) (JStr "Unknown")) ->
  let importedData := (importTestDayData refs clock testDay).1 in
  (exists day, daysOf importedData = [day] /\
               P (JsObject.get day "date") (JsObject.get day "track")) /\
  Forall (fun run => P (namePart (TestDayFolder.name testDay) 0) (JsObject.get run "track"))
         (runsOf importedData).
Proof.
  intros HP. split.
  - eexists. split; [reflexivity|exact HP].
  - apply Forall_forall. intros run Hrun. rewrite runsOf_import in Hrun.
    apply elem_of_lookup_imap in Hrun as (i & file & -> & _). exact HP.
Qed.

(** X14. importTestDayData reads the date and the track of a test day by
    cutting the folder name at [ - ].  For a folder named [date - venue]
    (the date without white space, the venue not empty and without a
    further [ - ]) the test-day record gets that date and that venue and
    every run that venue as its track.  For a folder name the scanner
    accepts but that holds no [ - ], such as one written with [_], the
    date of the record is the whole folder name and the track of the record
    and of every run is [Unknown]. *)
Theorem import_reads_date_and_track refs clock (testDay : TestDayFolder.t) :
  let importedData := (importTestDayData refs clock testDay).1 in
  (forall date venue,
     TestDayFolder.name testDay = testDayFolderName date venue ->
     Forall (fun c => is_space c = false) (chars date) ->
     venue <> "" -> includes venue " - " = false ->
     (exists day, daysOf importedData = [day] /\
                  JsObject.get day "date" = JStr date /\
                  JsObject.get day "track" = JStr venue) /\
     Forall (fun run => JsObject.get run "track" = JStr venue) (runsOf importedData)) /\
  (includes (TestDayFolder.name testDay) " - " = false ->
     (exists day, daysOf importedData = [day] /\
                  JsObject.get day "date" = JStr (TestDayFolder.name testDay) /\
                  JsObject.get day "track" = JStr "Unknown") /\
     Forall (fun run => JsObject.get run "track" = JStr "Unknown") (runsOf importedData)).
Proof.
  intros importedData. split.
  - intros date venue Hname Hdate Hvenue Hcut.
    assert (H0 : namePart (TestDayFolder.name testDay) 0 = JStr date)
      by (unfold namePart; rewrite Hname, split_template by assumption; reflexivity).
    assert (H1 : JsObject.or (namePart (TestDayFolder.name testDay) 1) (JStr "Unknown")
                 = JStr venue).
    { unfold namePart. rewrite Hname, split_template by assumption. simpl.
      unfold JsObject.or. simpl. destruct venue; [congruence|reflexivity]. }
    destruct (days_and_runs_of_import refs clock testDay
                (fun d t => d = JStr date /\ t = JStr venue) (conj H0 H1))
      as [(day & Hday & Hd & Ht) Hruns].
    split; [exists day; auto|].
    eapply Forall_impl; [exact Hruns|]. intros run [_ H]. exact H.
  - intros Hnone.
    assert (H0 : namePart (TestDayFolder.name testDay) 0 = JStr (TestDayFolder.name testDay))
      by (unfold namePart; rewrite split_whole by assumption; reflexivity).
    assert (H1 : JsObject.or (namePart (TestDayFolder.name testDay) 1) (JStr "Unknown")
                 = JStr "Unknown")
      by (unfold namePart; rewrite split_whole by assumption; reflexivity).
    destruct (days_and_runs_of_import refs clock testDay
                (fun d t => d = JStr (TestDayFolder.name testDay) /\ t = JStr "Unknown")
                (conj H0 H1))
      as [(day & Hday & Hd & Ht) Hruns].
    split; [exists day; auto|].
    eapply Forall_impl; [exact Hruns|]. intros run [_ H]. exact H.
Qed.

Lemma import_reads_date_and_track_witness :
  (exists day, daysOf (importTestDayData freshRefs noon villaDay).1 = [day] /\
               JsObject.get day "date" = JStr "2025-4-11" /\
               JsObject.get day "track" = JStr "Villa") /\
  matchTestDayFolder (TestDayFolder.name underscoreDay) = Some ("2025-4-11", "Villa") /\
  (exists day, daysOf (importTestDayData freshRefs noon underscoreDay).1 = [day] /\
               JsObject.get day "date" = JStr "2025-4-11_Villa" /\
               JsObject.get day "track" = JStr "Unknown").
Proof.
  split; [|split; [reflexivity|]].
  - refine (proj1 (proj1 (import_reads_date_and_track freshRefs noon villaDay)
                     "2025-4-11" "Villa" eq_refl _ _ eq_refl)).
    + repeat constructor.
    + discriminate.
  - exact (proj1 (proj2 (import_reads_date_and_track freshRefs noon underscoreDay) eq_refl)).
Defined.

Lemma split_segment (a b : string) :
  "/"%char ∉ chars a -> split (a +:+ "/" +:+ b) "/" = a :: split b "/".
Proof.
  intros Ha. apply split_first; [discriminate|].
  intros a1 a2 Heq Ha2. destruct a2 as [|c a2]; [congruence|].
  change (startsWith (chars "/") ((c :: a2) ++ chars "/" ++ chars b))
    with (Ascii.eqb "/" c && true).
  destruct (Ascii.eqb "/" c) eqn:E; [|reflexivity].
  apply Ascii.eqb_eq in E. subst c. destruct Ha. rewrite Heq.
  apply elem_of_app. right. left.
Qed.

Lemma date_has_no_slash (d : list ascii) : isDateText d -> "/"%char ∉ d.
Proof.
  intros (y & m & dd & -> & _ & Hy & _ & Hm & _ & Hd).
  assert (Hdigits : forall l, Forall (fun c => is_digit c = true) l -> "/"%char ∉ l).
  { intros l Hl Hin. rewrite Forall_forall in Hl. apply Hl in Hin. discriminate Hin. }
  intros H.
  apply elem_of_app in H as [H|H]; [exact (Hdigits _ Hy H)|].
  apply elem_of_cons in H as [H|H]; [discriminate H|].
  apply elem_of_app in H as [H|H]; [exact (Hdigits _ Hm H)|].
  apply elem_of_cons in H as [H|H]; [discriminate H|].
  exact (Hdigits _ Hd H).
Qed.

Lemma filter_none {A : Type} (P : A -> Prop) `{forall x, Decision (P x)} (l : list A) :
  (forall x, x ∈ l -> ~ P x) -> filter P l = [].
Proof.
  induction l as [|x l IH]; intros Hl; [reflexivity|].
  rewrite filter_cons_False by (apply Hl; left).
  apply IH. intros y Hy. apply Hl. right. exact Hy.
Qed.

(** X15. A test day created from the panel is found by the next scan: when
    the date and the venue entered are a date and a venue of the pattern
    and hold no [/], and the selected folder itself is not named like a
    test day, the scan of any selection that holds the [testday.json]
    written into the new folder lists that folder, under the name given to
    it, with the [.xrk] files of the selection that the scan files under it
    (those whose first segment of the form of a test day is its name); with
    no telemetry file when there is none of them yet. *)
Theorem created_test_day_is_scanned (now base date venue folderName : string) meta
        (size lastModified : Z) content (files : list File.t) :
  createTestDayOnDisk true now date venue = Some (folderName, meta) ->
  isDateText (chars date) -> isVenueText (chars venue) ->
  "/"%char ∉ chars base -> "/"%char ∉ chars venue -> isTestDay base = false ->
  testDayJsonFile base folderName size lastModified content ∈ files ->
  TestDayFolder.mk folderName folderName
    (toXRKFile <$> filter (fun f => isXrk f = true)
                          (filter (fun f => owner f = folderName) files))
  ∈ (scanForTestDayFolders files).1 /\
  ((forall f, f ∈ files -> owner f = folderName -> isXrk f = false) ->
   TestDayFolder.mk folderName folderName [] ∈ (scanForTestDayFolders files).1).
Proof.
  intros Hcreate Hdate Hvenue Hbase Hslash Hroot Hfile.
  assert (Hmatch : isTestDay folderName = true).
  { unfold isTestDay. apply bool_decide_eq_true_2. exists (date, venue).
    apply (created_folder_name_shape now date venue folderName meta Hcreate).
    split; assumption. }
  unfold createTestDayOnDisk in Hcreate. simpl in Hcreate.
  destruct (_ || _); [discriminate|]. injection Hcreate as Hname _.
  assert (Hfolder : "/"%char ∉ chars folderName).
  { rewrite <- Hname, testDayFolderName_chars. intros H'.
    apply elem_of_app in H' as [H'|H']; [exact (date_has_no_slash _ Hdate H')|].
    simpl in H'. repeat (apply elem_of_cons in H' as [H'|H']; [discriminate H'|]).
    exact (Hslash H'). }
  assert (Howner : owner (testDayJsonFile base folderName size lastModified content)
                   = folderName).
  { unfold owner, testDayJsonFile. cbn [File.webkitRelativePath].
    rewrite split_segment by exact Hbase.
    change (folderName +:+ "/testday.json") with (folderName +:+ "/" +:+ "testday.json").
    rewrite split_segment by exact Hfolder.
    change (split "testday.json" "/") with ["testday.json"].
    cbn [findTestDayFolder]. rewrite Hroot, Hmatch. reflexivity. }
  assert (Hbelow : testDayJsonFile base folderName size lastModified content
                   ∈ filter (fun f => owner f = folderName) files)
    by (apply list_elem_of_filter; split; [exact Howner|exact Hfile]).
  assert (Hlisted : TestDayFolder.mk folderName folderName
                      (toXRKFile <$> filter (fun f => isXrk f = true)
                                            (filter (fun f => owner f = folderName) files))
                    ∈ (scanForTestDayFolders files).1).
  { rewrite scan_folders. apply list_elem_of_omap.
    exists (folderName, filter (fun f => owner f = folderName) files). split.
    - apply classify_entries. split; [|split; [|reflexivity]].
      + intros E. rewrite E in Hmatch. vm_compute in Hmatch. discriminate Hmatch.
      + intros E. rewrite E in Hbelow. apply elem_of_nil in Hbelow. exact Hbelow.
    - apply folderOf_Some. split; [exact Hmatch|]. split; [|reflexivity].
      exists (testDayJsonFile base folderName size lastModified content).
      split; [exact Hbelow|right; reflexivity]. }
  split; [exact Hlisted|]. intros Hnone.
  rewrite filter_none in Hlisted; [exact Hlisted|].
  intros f [Ho Hf]%list_elem_of_filter Hx. rewrite (Hnone f Hf Ho) in Hx. discriminate Hx.
Qed.

Lemma created_test_day_is_scanned_witness :
  TestDayFolder.mk "2025-4-12 - Mosport" "2025-4-12 - Mosport" []
  ∈ (scanForTestDayFolders
       (villaFiles
        ++ [testDayJsonFile "UTFR Test Data" "2025-4-12 - Mosport" 96 100 (Some "{}")])).1.
Proof.
  refine (proj2 (created_test_day_is_scanned "2025-04-10T09:00:00.000Z" "UTFR Test Data"
                   "2025-4-12" "Mosport" _ _ 96 100 (Some "{}") _ eq_refl _ _ _ _ eq_refl _) _).
  - exists (chars "2025"), (chars "4"), (chars "12"). simpl.
    repeat split; try lia; repeat constructor.
  - split; [repeat constructor|]. exists "M"%char, (chars "osport").
    split; [reflexivity|left; reflexivity].
  - apply (bool_decide_unpack _). reflexivity.
  - apply (bool_decide_unpack _). reflexivity.
  - apply elem_of_app. right. left.
  - intros f Hf. apply elem_of_app in Hf as [Hf|Hf].
    + unfold villaFiles in Hf. apply elem_of_cons in Hf as [->|Hf].
      * intros H. vm_compute in H. discriminate H.
      * apply list_elem_of_singleton in Hf as ->. intros H. vm_compute in H. discriminate H.
    + apply list_elem_of_singleton in Hf as ->. intros _. reflexivity.
Defined.

End CreateTestDay.

(** ** The pattern of the Drive route *)

Section DrivePattern.

Lemma rmatch_digits_date_inv lo pre s caps (k : cont) res :
  rmatch (RGreedy 4 (Some 4) is_digit ⋅ RChar (is_char "-") ⋅
          RGreedy lo (Some 2) is_digit ⋅ RChar (is_char "-") ⋅
          RGreedy lo (Some 2) is_digit)%re pre s caps k = Some res ->
  exists y m d rest,
    s = (y ++ "-"%char :: m ++ "-"%char :: d) ++ rest /\
    length y = 4%nat /\ Forall (fun c => is_digit c = true) y /\
    (lo <= length m <= 2)%nat /\ Forall (fun c => is_digit c = true) m /\
    (lo <= length d <= 2)%nat /\ Forall (fun c => is_digit c = true) d /\
    k (rev (y ++ "-"%char :: m ++ "-"%char :: d) ++ pre) rest caps = Some res.
Proof.
  cbn [rmatch]. intros H.
  apply greedy_Some in H as (y & r1 & (-> & Hy & Hy4 & Hy4') & H & _).
  destruct r1 as [|c1 r1]; [discriminate|].
  destruct (is_char "-" c1) eqn:Hc1; [|discriminate]. apply is_char_eq in Hc1 as ->.
  apply greedy_Some in H as (m & r2 & (-> & Hm & Hm1 & Hm2) & H & _).
  destruct r2 as [|c2 r2]; [discriminate|].
  destruct (is_char "-" c2) eqn:Hc2; [|discriminate]. apply is_char_eq in Hc2 as ->.
  apply greedy_Some in H as (d & r3 & (-> & Hd & Hd1 & Hd2) & H & _).
  exists y, m, d, r3. split; [|repeat split; try assumption; try lia].
  - rewrite <- app_assoc. simpl. rewrite <- app_assoc. reflexivity.
  - rewrite <- H. f_equal. norm_rev. reflexivity.
Qed.

Lemma rmatch_digits_date_intro lo pre y m d rest caps (k : cont) res :
  length y = 4%nat -> Forall (fun c => is_digit c = true) y ->
  (lo <= length m <= 2)%nat -> Forall (fun c => is_digit c = true) m ->
  (lo <= length d <= 2)%nat -> Forall (fun c => is_digit c = true) d ->
  match rest with c :: _ => is_digit c = false | [] => True end ->
  k (rev (y ++ "-"%char :: m ++ "-"%char :: d) ++ pre) rest caps = Some res ->
  rmatch (RGreedy 4 (Some 4) is_digit ⋅ RChar (is_char "-") ⋅
          RGreedy lo (Some 2) is_digit ⋅ RChar (is_char "-") ⋅
          RGreedy lo (Some 2) is_digit)%re
         pre ((y ++ "-"%char :: m ++ "-"%char :: d) ++ rest) caps k = Some res.
Proof.
  intros Hy4 Hy Hm12 Hm Hd12 Hd Hrest Hk. cbn [rmatch].
  rewrite <- app_assoc. simpl. rewrite <- app_assoc. simpl.
  eapply greedy_intro.
  - apply canTake_all; [exact Hy|lia|lia].
  - simpl. eapply greedy_intro.
    + apply canTake_all; [exact Hm|lia|lia].
    + simpl. eapply greedy_intro.
      * apply canTake_all; [exact Hd|lia|lia].
      * rewrite <- Hk. f_equal. norm_rev. reflexivity.
      * intros t' r' Hcan Hlen.
        apply canTake_longest in Hcan; [lia|exact Hrest].
    + intros t' r' Hcan Hlen.
      apply canTake_longest in Hcan; [lia|reflexivity].
  - intros t' r' (_ & _ & _ & Hhi) Hlen. lia.
Qed.

Lemma rmatch_separator_venue_inv i pre s caps (k : cont) res :
  (forall pre' s' caps', k pre' s' caps' <> None) ->
  rmatch (RGreedy 0 None is_space ⋅ RChar is_sep ⋅ RGreedy 0 None is_space ⋅
          RGroup i (RGreedy 1 None is_dot) ⋅ REnd)%re pre s caps k = Some res ->
  exists ws1 sep ws2 v pre',
    s = ws1 ++ sep :: ws2 ++ v /\
    Forall (fun c => is_space c = true) ws1 /\ is_sep sep = true /\
    Forall (fun c => is_space c = true) ws2 /\ isVenueText v /\
    k pre' [] (<[i := v]> caps) = Some res.
Proof.
  intros Hk. cbn [rmatch]. intros H.
  apply greedy_Some in H as (ws1 & r1 & (-> & Hws1 & _) & H & _).
  destruct r1 as [|sep r1]; [discriminate|].
  destruct (is_sep sep) eqn:Hsep; [|discriminate].
  apply greedy_Some in H as (ws2 & r2 & (-> & Hws2 & _) & H & Hmax).
  apply greedy_Some in H as (v & r3 & (-> & Hv & Hv1 & _) & H & _).
  destruct r3 as [|c3 r3]; [|discriminate].
  rewrite capture_taken in H. rewrite app_nil_r in *.
  exists ws1, sep, ws2, v. eexists. repeat split; try eassumption.
  destruct v as [|c rest]; [simpl in Hv1; lia|].
  exists c, rest. split; [reflexivity|].
  destruct (is_space c) eqn:Hc; [|left; reflexivity]. right.
  destruct rest as [|c' rest]; [reflexivity|]. exfalso.
  apply Forall_cons in Hv as [_ Hrest].
  specialize (Hmax (ws2 ++ [c]) (c' :: rest)).
  match type of Hmax with _ -> _ -> ?call = None =>
    assert (Hsome : call <> None); [|apply Hsome, Hmax]
  end.
  - intros Hnone. eapply greedy_None with (taken := c' :: rest) (rest := []) in Hnone.
    + simpl in Hnone. exact (Hk _ _ _ Hnone).
    + split; [rewrite app_nil_r; reflexivity|]. split; [exact Hrest|].
      split; [simpl; lia|exact I].
  - split; [rewrite <- app_assoc; reflexivity|]. split; [|split; [lia|exact I]].
    apply Forall_app. split; [exact Hws2|]. constructor; [exact Hc|constructor].
  - rewrite length_app. simpl. lia.
Qed.

Lemma rmatch_separator_venue_intro i pre ws1 sep ws2 v caps (k : cont) res :
  Forall (fun c => is_space c = true) ws1 -> is_sep sep = true ->
  Forall (fun c => is_space c = true) ws2 -> isVenueText v ->
  k (rev v ++ rev ws2 ++ sep :: rev ws1 ++ pre) [] (<[i := v]> caps) = Some res ->
  rmatch (RGreedy 0 None is_space ⋅ RChar is_sep ⋅ RGreedy 0 None is_space ⋅
          RGroup i (RGreedy 1 None is_dot) ⋅ REnd)%re
         pre (ws1 ++ sep :: ws2 ++ v) caps k = Some res.
Proof.
  intros Hws1 Hsep Hws2 (Hv & c & rest & -> & Hc) Hk. cbn [rmatch].
  eapply greedy_intro.
  - apply canTake_all; [exact Hws1|lia|exact I].
  - simpl. rewrite Hsep. eapply greedy_intro.
    + apply canTake_all; [exact Hws2|lia|exact I].
    + eapply greedy_intro.
      * rewrite <- (app_nil_r (c :: rest)) at 1.
        apply canTake_all; [exact Hv|simpl; lia|exact I].
      * cbv beta iota. rewrite capture_taken. rewrite <- Hk. f_equal; norm_rev; reflexivity.
      * intros t' r' Hcan Hlen. rewrite <- (app_nil_r (c :: rest)) in Hcan.
        apply canTake_longest in Hcan; [lia|exact I].
    + intros t' r' Hcan Hlen.
      destruct Hc as [Hc| ->].
      * apply canTake_longest in Hcan; [lia|exact Hc].
      * destruct Hcan as (Hs & Hp & _). symmetry in Hs.
        apply app_eq_app in Hs as [l [[-> Hl]|[-> _]]]; [|rewrite length_app in Hlen; lia].
        destruct l as [|x l]; [rewrite app_nil_r in Hlen; lia|].
        injection Hl as <- Hl. symmetry in Hl. apply app_eq_nil in Hl as [-> ->].
        reflexivity.
  - intros t' r' Hcan Hlen.
    apply canTake_longest in Hcan; [lia|apply sep_is_not_space, Hsep].
Qed.

Lemma length_chars (s : string) : length (chars s) = String.length s.
Proof. induction s as [|c s IH]; simpl; [reflexivity|]. f_equal. exact IH. Qed.

Lemma test_anchored r (s : string) :
  test (RBegin ⋅ r)%re s = true <->
  exists caps, rmatch (RGroup 0 (RBegin ⋅ r)%re) [] (chars s) ∅
                      (fun _ _ caps => Some caps) = Some caps.
Proof.
  unfold test, exec. rewrite bool_decide_eq_true, exec_anchored.
  destruct (rmatch _ _ _ _ _) as [caps|]; split.
  - intros _. exists caps. reflexivity.
  - intros _. eexists. reflexivity.
  - intros [x Hx]. discriminate Hx.
  - intros [caps Hcaps]. discriminate Hcaps.
Qed.

(** X16. The Drive route keeps a folder exactly when the scanner of the
    local panel accepts its name and reads a date of ten code units in it,
    that is with a month and a day of two digits each: [2025-04-11 - Villa]
    is a test day for both, [2025-4-11 - Villa] for the local scanner only.
    A folder without a name is dropped. *)
Theorem drive_pattern_is_local_pattern_with_long_date (name : string) :
  (isDriveTestDay (Some name) = true <->
   exists date venue,
     matchTestDayFolder name = Some (date, venue) /\ String.length date = 10%nat) /\
  isDriveTestDay None = false.
Proof.
  split; [|reflexivity].
  unfold isDriveTestDay, driveTestDayPattern. change (default "" (Some name)) with name.
  rewrite test_anchored. split.
  - intros [caps H]. cbn [rmatch] in H.
    apply (rmatch_digits_date_inv 2) in H
      as (y & m & d & rest & Hs & Hy4 & Hy & Hm2 & Hm & Hd2 & Hd & H).
    apply (rmatch_separator_venue_inv 1) in H
      as (ws1 & sep & ws2 & v & pre' & -> & H1 & Hsep & H2 & Hv & _); [|discriminate].
    exists (of_chars (y ++ "-"%char :: m ++ "-"%char :: d)), (of_chars v). split.
    + apply matchTestDayFolder_Some. exists ws1, sep, ws2.
      rewrite !chars_of_chars. split; [exact Hs|]. split; [|tauto].
      exists y, m, d. repeat split; try assumption; lia.
    + rewrite <- length_chars, chars_of_chars, length_app. simpl.
      rewrite length_app. simpl. lia.
  - intros (date & venue & Hmatch & Hlen).
    apply matchTestDayFolder_Some in Hmatch
      as (ws1 & sep & ws2 & Hs & Hdate & H1 & Hsep & H2 & Hv).
    destruct Hdate as (y & m & d & Hd & Hy4 & Hy & Hm12 & Hm & Hd12 & Hdd).
    rewrite <- length_chars, Hd, length_app in Hlen. simpl in Hlen.
    rewrite length_app in Hlen. simpl in Hlen.
    rewrite Hs, Hd. eexists. cbn [rmatch].
    eapply (rmatch_digits_date_intro 2); try assumption; try lia.
    + destruct ws1 as [|c ws1]; simpl; [apply sep_is_not_digit, Hsep|].
      apply Forall_cons in H1 as [Hc _]. apply space_is_not_digit, Hc.
    + eapply (rmatch_separator_venue_intro 1);
        [exact H1|exact Hsep|exact H2|exact Hv|reflexivity].
Qed.

End DrivePattern.

(** ** The ids of the imported runs *)

Section RunIds.

Lemma of_nat_digits (n : nat) : Forall (fun c => is_digit c = true) (chars (of_nat n)).
Proof.
  unfold of_nat. induction (Nat.to_uint n) as [|d IH|d IH|d IH|d IH|d IH|d IH|d IH|d IH|d IH|d IH];
    simpl; constructor; (reflexivity || exact IH).
Qed.

Lemma of_nat_inj (n m : nat) : of_nat n = of_nat m -> n = m.
Proof.
  unfold of_nat. intros H. apply DecimalNat.Unsigned.to_uint_inj.
  apply (f_equal NilEmpty.uint_of_string) in H. rewrite !NilEmpty.usu in H.
  congruence.
Qed.

(** A text [a-digits] is cut at its last [-] in one way only. *)
Lemma digits_suffix_unique (a : list ascii) : forall b da db,
  Forall (fun c => is_digit c = true) da -> Forall (fun c => is_digit c = true) db ->
  a ++ "-"%char :: da = b ++ "-"%char :: db -> a = b /\ da = db.
Proof.
  assert (Hno : forall (x y d : list ascii),
             Forall (fun c => is_digit c = true) d -> d <> x ++ "-"%char :: y).
  { intros x y d Hd ->. apply Forall_app in Hd as [_ Hd].
    apply Forall_cons in Hd as [Hd _]. discriminate Hd. }
  induction a as [|c a IH]; intros [|c' b] da db Hda Hdb H; simpl in H.
  - injection H as ->. split; reflexivity.
  - injection H as <- H. destruct (Hno b db da Hda H).
  - injection H as -> H. symmetry in H. destruct (Hno a da db Hdb H).
  - injection H as <- H. destruct (IH b da db Hda Hdb H) as [-> ->].
    split; reflexivity.
Qed.

Lemma runIdAt_inj (td1 td2 : TestDayFolder.t) (i j : nat) :
  runIdAt td1 i = runIdAt td2 j -> TestDayFolder.name td1 = TestDayFolder.name td2 /\ i = j.
Proof.
  unfold runIdAt. intros [= H]. apply (f_equal chars) in H.
  rewrite !chars_app in H. apply app_inv_head in H.
  rewrite <- !chars_app in H. rewrite !chars_app in H.
  apply digits_suffix_unique in H as [Hn Hd]; try apply of_nat_digits.
  apply chars_inj in Hn, Hd. apply of_nat_inj in Hd. split; [exact Hn|lia].
Qed.

(** X17. The id of an imported run determines the folder name and the
    position: two runs the importer makes, in the same or in different
    imports, carry the same id only when they were made at the same
    position for folders of the same name. *)
Theorem run_id_determines_folder_and_position
        (td1 td2 : TestDayFolder.t) (now1 now2 : string) (i j : nat) (f1 f2 : XRKFile.t) :
  recordId (makeRun td1 now1 i f1) = recordId (makeRun td2 now2 j f2) ->
  TestDayFolder.name td1 = TestDayFolder.name td2 /\ i = j.
Proof. apply runIdAt_inj. Qed.

Lemma run_id_determines_folder_and_position_witness :
  TestDayFolder.name villaDay = TestDayFolder.name villaDayLater /\ 1%nat = 1%nat.
Proof.
  apply (run_id_determines_folder_and_position villaDay villaDayLater
           (noon 1%nat) (afternoon 1%nat) 1 1
           (toXRKFile (telemetryFile "run2.xrk" 2048 200))
           (toXRKFile (telemetryFile "run2.xrk" 2048 200))).
  reflexivity.
Defined.

End RunIds.

(** ** IMPORT ALL after a scan *)

Section ImportAll.

Lemma NoDup_fmap_inj {A B : Type} (f : A -> B) (l : list A) (x y : A) :
  NoDup (f <$> l) -> x ∈ l -> y ∈ l -> f x = f y -> x = y.
Proof.
  intros Hnd [i Hi]%list_elem_of_lookup [j Hj]%list_elem_of_lookup Hf.
  assert (i = j) as <-; [|congruence].
  apply (NoDup_lookup _ i j (f x) Hnd); rewrite list_lookup_fmap.
  - rewrite Hi. reflexivity.
  - rewrite Hj, Hf. reflexivity.
Qed.

Lemma mergeCollection_new prev imported :
  (forall r, r ∈ batchOf imported -> recordId r ∉ (recordId <$> prev)) ->
  mergeCollection prev imported = prev ++ batchOf imported.
Proof.
  intros H. rewrite mergeCollection_filter. f_equal.
  induction (batchOf imported) as [|r batch IH]; [reflexivity|].
  rewrite filter_cons_True by (apply H; left). f_equal.
  apply IH. intros r' Hr'. apply H. right. exact Hr'.
Qed.

Lemma import_new_folder refs clock (testDay : TestDayFolder.t) :
  (forall f, f ∈ TestDayFolder.xrkFiles testDay ->
             XRKFile.path f ∉ importedRunPathsRef refs) ->
  recordId <$> runsOf (importTestDayData refs clock testDay).1 = runIdsOf testDay /\
  importedRunPathsRef (importTestDayData refs clock testDay).2
  = importedRunPathsRef refs ∪
    list_to_set (XRKFile.path <$> TestDayFolder.xrkFiles testDay).
Proof.
  intros Hnew. split.
  - rewrite run_ids, notYetImported_all by exact Hnew. reflexivity.
  - destruct (refs_after_import refs clock testDay) as [-> _].
    rewrite notYetImported_all, firstn_all by exact Hnew. reflexivity.
Qed.

Lemma runIdsOf_elem (testDay : TestDayFolder.t) (k : JSValue) :
  k ∈ runIdsOf testDay -> exists i, k = runIdAt testDay i.
Proof. intros (i & -> & _)%list_elem_of_fmap. exists i. reflexivity. Qed.

Lemma importAll_run_ids (folders : list TestDayFolder.t) : forall refs clock k data,
  NoDup (TestDayFolder.name <$> folders) ->
  NoDup (XRKFile.path <$> concat (TestDayFolder.xrkFiles <$> folders)) ->
  (forall f, f ∈ concat (TestDayFolder.xrkFiles <$> folders) ->
             XRKFile.path f ∉ importedRunPathsRef refs) ->
  (forall folder i, folder ∈ folders ->
                    runIdAt folder i ∉ (recordId <$> Dataset.runs data)) ->
  recordId <$> Dataset.runs (importAll refs clock k data folders).1
  = (recordId <$> Dataset.runs data) ++ (folders ≫= runIdsOf).
Proof.
  induction folders as [|folder rest IH]; intros refs clock k data Hnames Hpaths Hrefs Hdata.
  - simpl. rewrite app_nil_r. reflexivity.
  - cbn [importAll]. rewrite fmap_cons in Hnames. rewrite fmap_cons in Hpaths.
    rewrite fmap_cons in Hrefs. cbn [concat] in Hpaths, Hrefs. rewrite fmap_app in Hpaths.
    apply NoDup_app in Hpaths as (_ & Hdisj & Hp2).
    apply NoDup_cons in Hnames as [Hname Hnames].
    assert (Hnew : forall f, f ∈ TestDayFolder.xrkFiles folder ->
                             XRKFile.path f ∉ importedRunPathsRef refs)
      by (intros f Hf; apply Hrefs, elem_of_app; left; exact Hf).
    destruct (import_new_folder refs (clock k) folder Hnew) as [Hids Hmarked].
    destruct (importTestDayData refs (clock k) folder) as [importedData refs'].
    cbn [fst snd] in Hids, Hmarked.
    assert (Hmerged : Dataset.runs (handleDataImported data importedData)
                      = Dataset.runs data ++ runsOf importedData).
    { apply mergeCollection_new. intros r Hr Hin.
      assert (Hk : recordId r ∈ runIdsOf folder)
        by (rewrite <- Hids; apply list_elem_of_fmap_2, Hr).
      apply runIdsOf_elem in Hk as [i Hi]. rewrite Hi in Hin.
      exact (Hdata folder i (list_elem_of_here _ _) Hin). }
    rewrite IH; [|exact Hnames|exact Hp2| |].
    + rewrite Hmerged, fmap_app, Hids, <- app_assoc. reflexivity.
    + intros f Hf. rewrite Hmarked. intros [H|H]%elem_of_union.
      * apply (Hrefs f); [apply elem_of_app; right; exact Hf|exact H].
      * apply elem_of_list_to_set in H.
        apply (Hdisj (XRKFile.path f)); [exact H|apply list_elem_of_fmap_2, Hf].
    + intros folder' i Hin. rewrite Hmerged, fmap_app, Hids.
      intros [H|H]%elem_of_app.
      * exact (Hdata folder' i (list_elem_of_further _ _ _ Hin) H).
      * apply runIdsOf_elem in H as [j Hj]. apply runIdAt_inj in Hj as [Hn _].
        apply Hname. rewrite <- Hn. apply list_elem_of_fmap_2, Hin.
Qed.

Lemma length_runIdsOf (folders : list TestDayFolder.t) :
  length (folders ≫= runIdsOf) = totalXRKFiles folders.
Proof.
  unfold totalXRKFiles. rewrite totalXRKFiles_from. simpl.
  induction folders as [|folder rest IH]; [reflexivity|].
  rewrite fmap_cons. cbn [concat]. rewrite bind_cons, !length_app, IH.
  unfold runIdsOf at 1. rewrite length_fmap, length_seq. reflexivity.
Qed.

Lemma NoDup_runIdsOf (folders : list TestDayFolder.t) :
  NoDup (TestDayFolder.name <$> folders) -> NoDup (folders ≫= runIdsOf).
Proof.
  intros Hnames. apply NoDup_bind.
  - intros td1 td2 k H1 H2 [i ->]%runIdsOf_elem [j Hj]%runIdsOf_elem.
    apply runIdAt_inj in Hj as [Hn _].
    exact (NoDup_fmap_inj _ _ _ _ Hnames H1 H2 Hn).
  - intros td _. apply NoDup_fmap_2_strong; [|apply NoDup_seq].
    intros i j _ _ H. apply runIdAt_inj in H as [_ H]. exact H.
  - eapply NoDup_fmap_1, Hnames.
Qed.

(** X18. IMPORT ALL after a scan gives one run per counted telemetry
    file.  When the files of the selection have pairwise distinct paths,
    none of them is marked as imported, and the dashboard holds no run of
    an id the importer makes for the scanned folders, the button adds to
    the runs exactly one run for each [.xrk] file the scan counted, folder
    after folder in the order of the scan and under the ids
    [local-folder-position]; the number of runs grows by the XRK counter
    of the scan, and the ids stay pairwise distinct if they were. *)
Theorem import_all_after_scan (files : list File.t) refs clock (data : Dataset.t) :
  NoDup (File.webkitRelativePath <$> files) ->
  (forall f, f ∈ files -> File.webkitRelativePath f ∉ importedRunPathsRef refs) ->
  (forall folder i, folder ∈ (scanForTestDayFolders files).1 ->
                    runIdAt folder i ∉ (recordId <$> Dataset.runs data)) ->
  let folders := (scanForTestDayFolders files).1 in
  let result := (importAll refs clock 0 data folders).1 in
  recordId <$> Dataset.runs result
  = (recordId <$> Dataset.runs data) ++ (folders ≫= runIdsOf) /\
  length (Dataset.runs result) = (length (Dataset.runs data) + totalXRKFiles folders)%nat /\
  (NoDup (recordId <$> Dataset.runs data) -> NoDup (recordId <$> Dataset.runs result)).
Proof.
  intros Hpaths Hrefs Hdata folders result.
  assert (Hids : recordId <$> Dataset.runs result
                 = (recordId <$> Dataset.runs data) ++ (folders ≫= runIdsOf)).
  { apply importAll_run_ids.
    - apply scan_names_NoDup.
    - unfold folders. rewrite scan_xrkFiles, <- list_fmap_compose.
      eapply sublist_NoDup; [exact Hpaths|].
      apply fmap_sublist, sublist_filter.
    - intros f Hf. unfold folders in Hf. rewrite scan_xrkFiles in Hf.
      apply list_elem_of_fmap in Hf as (file & -> & [_ Hfile]%list_elem_of_filter).
      apply Hrefs, Hfile.
    - exact Hdata. }
  split; [exact Hids|]. split.
  - rewrite <- (length_fmap recordId (Dataset.runs result)), Hids.
    rewrite length_app, length_fmap, length_runIdsOf. reflexivity.
  - intros Hnd. rewrite Hids. apply NoDup_app. split; [exact Hnd|]. split.
    + intros k Hk (folder & [i ->]%runIdsOf_elem & Hfolder)%list_elem_of_bind.
      exact (Hdata folder i Hfolder Hk).
    + apply NoDup_runIdsOf, scan_names_NoDup.
Qed.

Lemma import_all_after_scan_witness :
  let folders := (scanForTestDayFolders villaFilesLater).1 in
  let result := (importAll freshRefs (fun _ => noon) 0 emptyDataset folders).1 in
  recordId <$> Dataset.runs result
  = (recordId <$> Dataset.runs emptyDataset) ++ (folders ≫= runIdsOf) /\
  length (Dataset.runs result)
  = (length (Dataset.runs emptyDataset) + totalXRKFiles folders)%nat /\
  (NoDup (recordId <$> Dataset.runs emptyDataset) ->
   NoDup (recordId <$> Dataset.runs result)).
Proof.
  apply (import_all_after_scan villaFilesLater freshRefs (fun _ => noon) emptyDataset).
  - apply (bool_decide_unpack _). vm_compute. reflexivity.
  - intros f _. apply not_elem_of_empty.
  - intros folder i _. apply not_elem_of_nil.
Defined.

End ImportAll.

(** ** The global setup files of the scan *)

Section SetupDetection.

Lemma lower_slash c : lower_char c = "/"%char -> c = "/"%char.
Proof. destruct c as [[] [] [] [] [] [] [] []]; vm_compute; congruence. Qed.

Lemma includes_chars_elem (s p : list ascii) c :
  includes_chars s (c :: p) = true -> c ∈ s.
Proof.
  induction s as [|a s IH]; cbn [includes_chars startsWith]; [discriminate|].
  intros [H|H]%orb_true_iff.
  - apply andb_true_iff in H as [H _]. apply Ascii.eqb_eq in H as ->. left.
  - right. exact (IH H).
Qed.

Lemma includes_none (s : string) c :
  c ∉ chars s -> includes s (String c "") = false.
Proof.
  intros H. destruct (includes s (String c "")) eqn:E; [|reflexivity].
  destruct H. exact (includes_chars_elem _ _ _ E).
Qed.

Lemma split_go_nonempty sep (s : list ascii) : forall cur skip,
  (1 <= length (split_go sep cur s skip))%nat.
Proof.
  induction s as [|c s IH]; intros cur skip; cbn [split_go]; [simpl; lia|].
  destruct skip; [|apply IH].
  destruct (startsWith sep (c :: s)); [simpl; lia|apply IH].
Qed.

Lemma first_segment_unique (c : ascii) (a : list ascii) : forall a' b b',
  c ∉ a -> c ∉ a' -> a ++ c :: b = a' ++ c :: b' -> a = a'.
Proof.
  induction a as [|x a IH]; intros [|x' a'] b b' Ha Ha' H; simpl in H.
  - reflexivity.
  - injection H as -> _. destruct Ha'. left.
  - injection H as -> _. destruct Ha. left.
  - injection H as -> H. f_equal. apply (IH a' b b'); [| |exact H].
    + intros Hin. apply Ha. right. exact Hin.
    + intros Hin. apply Ha'. right. exact Hin.
Qed.

Lemma lower_has_slash (l : list ascii) :
  "/"%char ∈ (lower_char <$> l) -> "/"%char ∈ l.
Proof.
  intros (c & Hc & Hin)%list_elem_of_fmap. symmetry in Hc.
  apply lower_slash in Hc as ->. exact Hin.
Qed.

(** The two tests on the path of a file, [relPath.toLowerCase().includes(
    '/setups/')] and [pathParts[0].toLowerCase() === 'setups'] under
    [pathParts.length >= 2], come to one: a segment but the last of the
    path is [setups], whatever the letter case. *)
Lemma setups_condition (relPath : string) :
  (2 <=? length (split relPath "/"))%nat && isGlobalSetup relPath (split relPath "/")
  = includes ("/" +:+ toLowerCase relPath) "/setups/".
Proof.
  change (includes ("/" +:+ toLowerCase relPath) "/setups/")
    with (startsWith (chars "setups/") (chars (toLowerCase relPath))
          || includes (toLowerCase relPath) "/setups/").
  unfold isGlobalSetup. rewrite chars_toLowerCase.
  destruct (decide ("/"%char ∈ chars relPath)) as [Hin|Hnot].
  - apply list_elem_of_split_l in Hin as (a & b & Hp & Ha).
    assert (Hsplit : split relPath "/" = of_chars a :: split (of_chars b) "/").
    { rewrite <- split_segment by (rewrite chars_of_chars; exact Ha). f_equal.
      apply chars_inj. rewrite !chars_app, !chars_of_chars. exact Hp. }
    rewrite Hsplit.
    replace (2 <=? length (of_chars a :: split (of_chars b) "/"))%nat with true.
    2:{ symmetry. apply Nat.leb_le. simpl.
        pose proof (split_go_nonempty (chars "/") (chars (of_chars b)) [] 0).
        unfold split. lia. }
    change (default "" (head (of_chars a :: split (of_chars b) "/"))) with (of_chars a).
    cbn [andb]. rewrite orb_comm. f_equal.
    rewrite Hp, fmap_app, fmap_cons.
    apply Bool.eq_iff_eq_true. rewrite String.eqb_eq, startsWith_prefix. split.
    + intros Hlow. apply (f_equal chars) in Hlow.
      rewrite chars_toLowerCase, chars_of_chars in Hlow. rewrite Hlow.
      exists (lower_char <$> b). reflexivity.
    + intros [t Ht]. apply chars_inj.
      rewrite chars_toLowerCase, chars_of_chars.
      change (chars "setups/" ++ t) with (chars "setups" ++ "/"%char :: t) in Ht.
      apply (first_segment_unique "/" _ _ _ _) in Ht; [exact Ht| |].
      * intros H. apply Ha, lower_has_slash, H.
      * apply (bool_decide_unpack _). reflexivity.
  - rewrite split_whole by (apply includes_none, Hnot). simpl (2 <=? _)%nat.
    cbn [andb]. symmetry. apply orb_false_iff. split.
    + destruct (startsWith _ _) eqn:E; [|reflexivity].
      apply startsWith_prefix in E as [t Ht]. destruct Hnot.
      apply lower_has_slash. rewrite Ht.
      apply elem_of_app. left. apply (bool_decide_unpack _). reflexivity.
    + destruct (includes _ _) eqn:E; [|reflexivity].
      apply includes_chars_elem in E. rewrite chars_toLowerCase in E.
      destruct Hnot. apply lower_has_slash, E.
Qed.

Lemma classifyFile_setups (acc : DirectoryMap * list File.t) f :
  (classifyFile acc f).2
  = if includes ("/" +:+ toLowerCase (File.webkitRelativePath f)) "/setups/"
       && endsWith (toLowerCase (File.name f)) ".json"
    then acc.2 ++ [f] else acc.2.
Proof.
  rewrite <- setups_condition. destruct acc as [m setups]. unfold classifyFile.
  destruct (2 <=? _)%nat; [|reflexivity]. cbn [andb snd].
  destruct (isGlobalSetup _ _ && endsWith _ _); reflexivity.
Qed.

Lemma classify_setups (files : list File.t) : forall acc : DirectoryMap * list File.t,
  (fold_left classifyFile files acc).2
  = acc.2 ++ filter (fun f => includes ("/" +:+ toLowerCase (File.webkitRelativePath f))
                                       "/setups/" = true /\
                              endsWith (toLowerCase (File.name f)) ".json" = true) files.
Proof.
  induction files as [|f files IH]; intros acc; simpl; [rewrite app_nil_r; reflexivity|].
  rewrite IH, classifyFile_setups, filter_cons.
  destruct (includes _ _) eqn:E1; destruct (endsWith _ _) eqn:E2; cbn [andb];
    try (rewrite decide_False by (intros [? ?]; congruence); reflexivity).
  rewrite decide_True by (split; reflexivity). rewrite <- app_assoc. reflexivity.
Qed.

(** X19. The global setup files the scan keeps are, in the order of the
    selection, the files whose name ends in [.json] and whose path has a
    segment [setups] before the file name, both whatever the letter case:
    a [Setups] folder counts at the top of the selection and at any depth,
    inside a test-day folder too. *)
Theorem scan_detects_setup_files (files : list File.t) :
  (scanForTestDayFolders files).2
  = filter (fun f => includes ("/" +:+ toLowerCase (File.webkitRelativePath f))
                              "/setups/" = true /\
                     endsWith (toLowerCase (File.name f)) ".json" = true) files.
Proof.
  pose proof (classify_setups files ([], [])) as H. simpl in H. rewrite <- H.
  unfold scanForTestDayFolders.
  destruct (fold_left classifyFile files ([], [])); reflexivity.
Qed.

End SetupDetection.

(** ** Files written from the dashboard *)

Section WrittenFiles.

Lemma toLowerCase_app (a b : string) :
  toLowerCase (a +:+ b) = toLowerCase a +:+ toLowerCase b.
Proof. induction a as [|c a IH]; simpl; [reflexivity|]. rewrite IH. reflexivity. Qed.

Lemma includes_chars_middle (x p y : list ascii) : includes_chars (x ++ p ++ y) p = true.
Proof.
  induction x as [|c x IH]; simpl app.
  - destruct (p ++ y) eqn:E; cbn [includes_chars]; rewrite <- E, startsWith_app; reflexivity.
  - cbn [includes_chars]. rewrite IH. apply orb_true_r.
Qed.

(** X20. Every setup the dashboard writes on its own is found by the next
    scan: whatever the name of the setup and of the granted folder, the
    file [Setups/setup-name.json] written below that folder is among the
    global setup files of a scan of a selection that lists it. *)
Theorem written_setup_is_detected (base name : string) (size lastModified : Z) content
        (files : list File.t) :
  writtenSetupFile base name size lastModified content ∈ files ->
  writtenSetupFile base name size lastModified content ∈ (scanForTestDayFolders files).2.
Proof.
  intros Hin. pose proof (classify_setups files ([], [])) as H. simpl in H.
  unfold scanForTestDayFolders.
  destruct (fold_left classifyFile files ([], [])) as [m setups]. simpl in H. subst setups.
  cbn [snd]. apply list_elem_of_filter. split; [|exact Hin]. split.
  - unfold writtenSetupFile. cbn [File.webkitRelativePath].
    rewrite !toLowerCase_app. change (toLowerCase "/Setups/") with "/setups/".
    unfold includes. rewrite !chars_app, app_assoc. apply includes_chars_middle.
  - unfold writtenSetupFile. cbn [File.name]. apply endsWith_suffix.
    unfold setupFileName. rewrite !toLowerCase_app, !chars_app.
    eexists. rewrite app_assoc. reflexivity.
Qed.

Lemma written_setup_is_detected_witness :
  writtenSetupFile "UTFR Test Data" "Baseline v2 (wet)" 512 100 (Some "{}")
  ∈ (scanForTestDayFolders
       (villaFiles
        ++ [writtenSetupFile "UTFR Test Data" "Baseline v2 (wet)" 512 100 (Some "{}")])).2.
Proof.
  apply (written_setup_is_detected "UTFR Test Data" "Baseline v2 (wet)" 512 100 (Some "{}")).
  apply elem_of_app. right. left.
Defined.

Lemma trimStart_suffix (s : list ascii) :
  exists ws, s = ws ++ trimStart s.
Proof.
  induction s as [|c s [ws IH]]; [exists []; reflexivity|]. simpl.
  destruct (is_space c); [|exists []; reflexivity].
  exists (c :: ws). simpl. f_equal. exact IH.
Qed.

Lemma trimStart_head (s : list ascii) c r :
  trimStart s = c :: r -> is_space c = false.
Proof.
  induction s as [|x s IH]; simpl; [discriminate|].
  destruct (is_space x) eqn:E; [exact IH|]. intros [= <- _]. exact E.
Qed.

(** What [trim] leaves: a piece of the text that is empty or starts with
    a code unit other than white space. *)
Lemma trim_shape (s : string) :
  (exists before after, chars s = before ++ chars (trim s) ++ after) /\
  (trim s = "" \/ exists c r, chars (trim s) = c :: r /\ is_space c = false).
Proof.
  unfold trim. rewrite chars_of_chars.
  destruct (trimStart_suffix (chars s)) as [ws1 H1].
  destruct (trimStart_suffix (rev (trimStart (chars s)))) as [ws2 H2].
  apply (f_equal (@rev ascii)) in H2. rewrite rev_involutive, rev_app_distr in H2.
  split.
  - exists ws1, (rev ws2). rewrite <- H2. exact H1.
  - destruct (rev (trimStart (rev (trimStart (chars s))))) as [|c r] eqn:E;
      [left; reflexivity|right].
    exists c, r. split; [reflexivity|].
    simpl in H2. exact (trimStart_head _ _ _ H2).
Qed.

Lemma stintTrackName_venue (track : string) :
  Forall (fun c => is_dot c = true) (chars track) ->
  isVenueText (chars (stintTrackName track)).
Proof.
  intros Hdot. unfold stintTrackName.
  assert (Hdot' : Forall (fun c => is_dot c = true) (chars (orString track "Unknown"))).
  { unfold orString. destruct (String.eqb track ""); [repeat constructor|exact Hdot]. }
  destruct (trim_shape (orString track "Unknown"))
    as [(before & after & Hpiece) [Hempty|(c & r & Hc & Hspace)]].
  - rewrite Hempty. split; [repeat constructor|].
    exists "U"%char, (chars "nknown"). split; [reflexivity|left; reflexivity].
  - assert (Hne : String.eqb (trim (orString track "Unknown")) "" = false).
    { apply String.eqb_neq. intros H. rewrite H in Hc. discriminate Hc. }
    unfold orString at 1. rewrite Hne. split.
    + rewrite Hpiece in Hdot'. apply Forall_app in Hdot' as [_ Hdot'].
      apply Forall_app in Hdot' as [Hdot' _]. exact Hdot'.
    + exists c, r. split; [exact Hc|left; exact Hspace].
Qed.

Lemma of_nat_short (n : nat) :
  (n < 100)%nat -> (1 <= length (chars (of_nat n)) <= 2)%nat.
Proof.
  intros Hn.
  assert (H : forallb (fun n => (1 <=? length (chars (of_nat n)))%nat
                                && (length (chars (of_nat n)) <=? 2)%nat)
                      (seq 0 100) = true) by (vm_compute; reflexivity).
  rewrite forallb_forall in H. specialize (H n).
  rewrite in_seq, andb_true_iff, Nat.leb_le, Nat.leb_le in H. apply H. lia.
Qed.

(** X21. A stint is exported into a folder the scanner takes for a test
    day.  For a year that prints as four digits, any month and day and a
    track name without a line break, the folder exportStintToDrive names
    is matched by the pattern of the scanner, with the date it was named
    by and, as the venue, the track name without the white space around
    it, [Unknown] when nothing else is left of it. *)
Theorem stint_folder_is_a_test_day (yyyy m d : nat) (track : string) :
  String.length (of_nat yyyy) = 4%nat -> (m < 100)%nat -> (d < 100)%nat ->
  Forall (fun c => is_dot c = true) (chars track) ->
  matchTestDayFolder (stintFolderName yyyy m d track)
  = Some (of_nat yyyy +:+ "-" +:+ of_nat m +:+ "-" +:+ of_nat d, stintTrackName track) /\
  (trim track = "" -> stintTrackName track = "Unknown").
Proof.
  intros Hy Hm Hd Hdot. split.
  - apply matchTestDayFolder_Some. exists [" "%char], "-"%char, [" "%char].
    split; [|split; [|split; [repeat constructor|split; [reflexivity|split;
      [repeat constructor|apply stintTrackName_venue, Hdot]]]]].
    + unfold stintFolderName. rewrite !chars_app. simpl. rewrite <- !app_assoc.
      simpl. rewrite <- !app_assoc. reflexivity.
    + exists (chars (of_nat yyyy)), (chars (of_nat m)), (chars (of_nat d)).
      split; [rewrite !chars_app; reflexivity|].
      rewrite length_chars. split; [exact Hy|]. split; [apply of_nat_digits|].
      split; [apply of_nat_short, Hm|]. split; [apply of_nat_digits|].
      split; [apply of_nat_short, Hd|apply of_nat_digits].
  - intros Hblank. unfold stintTrackName, orString at 2.
    destruct (String.eqb track "") eqn:E.
    + reflexivity.
    + rewrite Hblank. reflexivity.
Qed.

Lemma stint_folder_is_a_test_day_witness :
  matchTestDayFolder (stintFolderName 2025 4 11 "  Villa ")
  = Some ("2025-4-11", "Villa") /\
  (trim "  Villa " = "" -> stintTrackName "  Villa " = "Unknown").
Proof.
  apply (stint_folder_is_a_test_day 2025 4 11 "  Villa ").
  - reflexivity.
  - lia.
  - lia.
  - repeat constructor.
Defined.

Lemma replaceOthers_chars (keep : ascii -> bool) (s : string) :
  (forall c, c ∈ chars (replaceOthers keep s) -> keep c = true \/ c = "-"%char) /\
  length (chars (replaceOthers keep s)) = length (chars s) /\
  (Forall (fun c => keep c = true) (chars s) -> replaceOthers keep s = s).
Proof.
  unfold replaceOthers. rewrite chars_of_chars. split; [|split].
  - intros c (x & -> & _)%list_elem_of_fmap.
    destruct (keep x) eqn:E; [left; exact E|right; reflexivity].
  - apply length_fmap.
  - intros Hkeep. rewrite <- (of_chars_chars s) at 2. f_equal.
    induction Hkeep as [|c l Hc _ IH]; [reflexivity|].
    rewrite fmap_cons, Hc, IH. reflexivity.
Qed.

(** X22. The name part of a stint file is safe and short: it holds
    between one and forty code units, each an ASCII letter, a digit, [-]
    or [_], so that it never carries a path separator or a dot; a stint
    name that is already of that form is kept as it is, and an empty one
    becomes [stint]. *)
Theorem stint_safe_name (name : string) :
  Forall (fun c => is_alnum c || is_sep c = true) (chars (stintSafeName name)) /\
  (1 <= String.length (stintSafeName name) <= 40)%nat /\
  (Forall (fun c => is_alnum c || is_sep c = true) (chars name) ->
   (1 <= String.length name <= 40)%nat -> stintSafeName name = name) /\
  stintSafeName "" = "stint".
Proof.
  destruct (replaceOthers_chars (fun c => is_alnum c || is_sep c) name)
    as (Hkept & Hlen & Hid).
  unfold stintSafeName, orString.
  set (cut := of_chars (take 40 (chars (replaceOthers _ name)))).
  assert (Hcut : chars cut = take 40 (chars (replaceOthers (fun c => is_alnum c || is_sep c) name)))
    by apply chars_of_chars.
  split; [|split; [|split; [|reflexivity]]].
  - destruct (String.eqb cut "") eqn:E; [repeat constructor|].
    rewrite Hcut. apply Forall_forall. intros c Hc.
    apply elem_of_take in Hc as (i & Hc & _). apply list_elem_of_lookup_2 in Hc.
    destruct (Hkept c Hc) as [H| ->]; [exact H|reflexivity].
  - destruct (String.eqb cut "") eqn:E; [simpl; lia|].
    apply String.eqb_neq in E. rewrite <- length_chars. split.
    + destruct (chars cut) eqn:Ec; [|simpl; lia].
      destruct E. apply chars_inj. exact Ec.
    + rewrite Hcut, length_take. lia.
  - intros Hsafe [Hlo Hhi]. rewrite <- length_chars in Hlo, Hhi.
    assert (Hsame : cut = name).
    { apply chars_inj. rewrite Hcut, (Hid Hsafe). apply take_ge. lia. }
    rewrite Hsame. destruct name; [simpl in Hlo; lia|reflexivity].
Qed.

Lemma stint_safe_name_witness :
  stintSafeName "Stint 1" = "Stint-1" /\ stintSafeName "Stint_2" = "Stint_2".
Proof.
  split; [reflexivity|].
  apply (proj1 (proj2 (proj2 (stint_safe_name "Stint_2")))).
  - repeat constructor.
  - simpl. lia.
Defined.

End WrittenFiles.

(** ** The importer of the Drive panel *)

Section DriveImport.

Lemma drive_run_ids (n : nat) (l : list GoogleDriveSync.XRKFile.t) :
  recordId <$> imap (fun i f => GoogleDriveSync.makeRun (n + i) f) l
  = (fun f => JStr (GoogleDriveSync.XRKFile.id f)) <$> l.
Proof.
  revert n. induction l as [|f l IH]; intros n; [reflexivity|].
  rewrite imap_cons, !fmap_cons. f_equal.
  rewrite <- (IH (S n)). f_equal. apply imap_ext. intros i x _. simpl.
  rewrite Nat.add_succ_r. reflexivity.
Qed.

(** X23. The importer of the Drive panel keeps no record of earlier
    imports and names each run by the id of its Drive file.  When files
    are added at the end of a folder, the batch of the new import is the
    batch of the old one followed by one run for each added file, numbered
    by the position of the file in the folder: the runs of the files that
    were there keep their ids.  When the files of the folder have pairwise
    distinct ids, so have the runs of the batch. *)
Theorem drive_import_names_runs_by_file_id
        (testDay later : GoogleDriveSync.TestDayFolder.t)
        (added : list GoogleDriveSync.XRKFile.t) :
  GoogleDriveSync.TestDayFolder.xrkFiles later
  = GoogleDriveSync.TestDayFolder.xrkFiles testDay ++ added ->
  recordId <$> runsOf (GoogleDriveSync.importTestDayData later)
  = (fun f => JStr (GoogleDriveSync.XRKFile.id f))
      <$> GoogleDriveSync.TestDayFolder.xrkFiles later /\
  runsOf (GoogleDriveSync.importTestDayData later)
  = runsOf (GoogleDriveSync.importTestDayData testDay)
    ++ imap (fun i f => GoogleDriveSync.makeRun
                          (length (GoogleDriveSync.TestDayFolder.xrkFiles testDay) + i) f)
            added /\
  (NoDup (GoogleDriveSync.XRKFile.id <$> GoogleDriveSync.TestDayFolder.xrkFiles later) ->
   NoDup (recordId <$> runsOf (GoogleDriveSync.importTestDayData later))).
Proof.
  intros Hlater.
  assert (Hids : recordId <$> runsOf (GoogleDriveSync.importTestDayData later)
                 = (fun f => JStr (GoogleDriveSync.XRKFile.id f))
                     <$> GoogleDriveSync.TestDayFolder.xrkFiles later)
    by apply (drive_run_ids 0).
  split; [exact Hids|]. split.
  - change (runsOf (GoogleDriveSync.importTestDayData later))
      with (imap GoogleDriveSync.makeRun (GoogleDriveSync.TestDayFolder.xrkFiles later)).
    rewrite Hlater, imap_app. reflexivity.
  - intros Hnd. rewrite Hids.
    change (fun f => JStr (GoogleDriveSync.XRKFile.id f))
      with (JStr ∘ GoogleDriveSync.XRKFile.id).
    rewrite list_fmap_compose. apply NoDup_fmap_2_strong; [|exact Hnd].
    intros x y _ _ [= H]. exact H.
Qed.

Lemma drive_import_names_runs_by_file_id_witness :
  let testDay := driveDay [driveFile "a1" "run1.xrk"; driveFile "b2" "run2.xrk"] in
  let later := driveDay [driveFile "a1" "run1.xrk"; driveFile "b2" "run2.xrk";
                         driveFile "c3" "run3.xrk"] in
  runsOf (GoogleDriveSync.importTestDayData later)
  = runsOf (GoogleDriveSync.importTestDayData testDay)
    ++ [GoogleDriveSync.makeRun 2 (driveFile "c3" "run3.xrk")] /\
  NoDup (recordId <$> runsOf (GoogleDriveSync.importTestDayData later)).
Proof.
  intros testDay later.
  destruct (drive_import_names_runs_by_file_id testDay later [driveFile "c3" "run3.xrk"]
              eq_refl) as (_ & Hbatch & Hdistinct).
  split; [exact Hbatch|]. apply Hdistinct.
  apply (bool_decide_unpack _). vm_compute. exact I.
Defined.

End DriveImport.

(** ** IMPORT ALL, pressed again *)

Section ImportAllAgain.

Lemma importAll_refs (folders : list TestDayFolder.t) : forall refs clock k data,
  NoDup (XRKFile.path <$> concat (TestDayFolder.xrkFiles <$> folders)) ->
  (forall f, f ∈ concat (TestDayFolder.xrkFiles <$> folders) ->
             XRKFile.path f ∉ importedRunPathsRef refs) ->
  importedRunPathsRef (importAll refs clock k data folders).2
  = importedRunPathsRef refs ∪
    list_to_set (XRKFile.path <$> concat (TestDayFolder.xrkFiles <$> folders)) /\
  importedSetupNamesRef (importAll refs clock k data folders).2
  = importedSetupNamesRef refs.
Proof.
  induction folders as [|folder rest IH]; intros refs clock k data Hpaths Hrefs.
  - simpl. rewrite union_empty_r_L. split; reflexivity.
  - cbn [importAll]. rewrite fmap_cons in Hpaths. rewrite fmap_cons in Hrefs.
    rewrite fmap_cons. cbn [concat] in *. rewrite fmap_app in Hpaths.
    apply NoDup_app in Hpaths as (_ & Hdisj & Hp2).
    assert (Hnew : forall f, f ∈ TestDayFolder.xrkFiles folder ->
                             XRKFile.path f ∉ importedRunPathsRef refs)
      by (intros f Hf; apply Hrefs, elem_of_app; left; exact Hf).
    destruct (import_new_folder refs (clock k) folder Hnew) as [_ Hmarked].
    pose proof (proj2 (refs_after_import refs (clock k) folder)) as Hsetups.
    destruct (importTestDayData refs (clock k) folder) as [importedData refs'].
    cbn [fst snd] in Hmarked, Hsetups.
    destruct (IH refs' clock (S k) (handleDataImported data importedData) Hp2) as [-> ->].
    + intros f Hf. rewrite Hmarked. intros [H|H]%elem_of_union.
      * apply (Hrefs f); [apply elem_of_app; right; exact Hf|exact H].
      * apply elem_of_list_to_set in H.
        apply (Hdisj (XRKFile.path f)); [exact H|apply list_elem_of_fmap_2, Hf].
    + rewrite Hmarked, Hsetups, fmap_app, list_to_set_app_L, (assoc_L (∪)).
      split; reflexivity.
Qed.

Lemma importAll_nothing (folders : list TestDayFolder.t) : forall refs clock k data,
  (forall f, f ∈ concat (TestDayFolder.xrkFiles <$> folders) ->
             XRKFile.path f ∈ importedRunPathsRef refs) ->
  Dataset.runs (importAll refs clock k data folders).1 = Dataset.runs data /\
  (importAll refs clock k data folders).2 = refs.
Proof.
  induction folders as [|folder rest IH]; intros refs clock k data Hrefs.
  - split; reflexivity.
  - cbn [importAll]. rewrite fmap_cons in Hrefs. cbn [concat] in Hrefs.
    rewrite import_nothing.
    + destruct (IH refs clock (S k)
                  (handleDataImported data
                     {| ImportedData.testDays :=
                          Some [ [ ("id", JStr ("local-" +:+ TestDayFolder.name folder));
                                   ("date", namePart (TestDayFolder.name folder) 0);
                                   ("track", JsObject.or (namePart (TestDayFolder.name folder) 1)
                                                         (JStr "Unknown"));
                                   ("runs", JNum 0) ] ];
                        ImportedData.runs := Some [];
                        ImportedData.setups := Some [];
                        ImportedData.tireSets := Some [] |})) as [-> ->].
      * intros f Hf. apply Hrefs, elem_of_app. right. exact Hf.
      * split; reflexivity.
    + apply notYetImported_none. intros f Hf. apply Hrefs, elem_of_app. left. exact Hf.
Qed.

(** X24. Pressing IMPORT ALL a second time adds no run.  After IMPORT ALL
    on a scan whose files have pairwise distinct paths, none of them
    marked before, every counted telemetry file is marked as imported; a
    second IMPORT ALL on the same scan then leaves the runs of the
    dashboard, whatever they have become in between, and the refs as they
    are. *)
Theorem import_all_twice (files : list File.t) refs clock clock' (data data' : Dataset.t) :
  NoDup (File.webkitRelativePath <$> files) ->
  (forall f, f ∈ files -> File.webkitRelativePath f ∉ importedRunPathsRef refs) ->
  let folders := (scanForTestDayFolders files).1 in
  let refs1 := (importAll refs clock 0 data folders).2 in
  importedRunPathsRef refs1
  = importedRunPathsRef refs ∪
    list_to_set (XRKFile.path <$> concat (TestDayFolder.xrkFiles <$> folders)) /\
  Dataset.runs (importAll refs1 clock' 0 data' folders).1 = Dataset.runs data' /\
  (importAll refs1 clock' 0 data' folders).2 = refs1.
Proof.
  intros Hpaths Hrefs folders refs1.
  assert (Hmarked : importedRunPathsRef refs1
                    = importedRunPathsRef refs ∪
                      list_to_set (XRKFile.path <$> concat (TestDayFolder.xrkFiles <$> folders))).
  { apply importAll_refs.
    - unfold folders. rewrite scan_xrkFiles, <- list_fmap_compose.
      eapply sublist_NoDup; [exact Hpaths|].
      apply fmap_sublist, sublist_filter.
    - intros f Hf. unfold folders in Hf. rewrite scan_xrkFiles in Hf.
      apply list_elem_of_fmap in Hf as (file & -> & [_ Hfile]%list_elem_of_filter).
      apply Hrefs, Hfile. }
  split; [exact Hmarked|]. apply importAll_nothing.
  intros f Hf. rewrite Hmarked. apply elem_of_union. right.
  apply elem_of_list_to_set, list_elem_of_fmap_2, Hf.
Qed.

Lemma import_all_twice_witness :
  let folders := (scanForTestDayFolders villaFilesLater).1 in
  let refs1 := (importAll freshRefs (fun _ => noon) 0 emptyDataset folders).2 in
  importedRunPathsRef refs1
  = importedRunPathsRef freshRefs ∪
    list_to_set (XRKFile.path <$> concat (TestDayFolder.xrkFiles <$> folders)) /\
  Dataset.runs (importAll refs1 (fun _ => afternoon) 0 oneSetup folders).1
  = Dataset.runs oneSetup /\
  (importAll refs1 (fun _ => afternoon) 0 oneSetup folders).2 = refs1.
Proof.
  apply (import_all_twice villaFilesLater freshRefs (fun _ => noon) (fun _ => afternoon)
           emptyDataset oneSetup).
  - apply (bool_decide_unpack _). vm_compute. reflexivity.
  - intros f _. apply not_elem_of_empty.
Defined.

End ImportAllAgain.
